(** * Gmail email scorer: response interpretation, labelling and ledger

    A shallow embedding of [main.py]: the scoring operation
    [EmailScorer.score_email], the label application of
    [EmailScoringSystem._apply_scoring_labels] over
    [GmailManager.apply_label], the SQLite ledger of [EmailDatabase], the
    reading and cleaning of messages and the label setup of [GmailManager],
    and the loop of [EmailScoringSystem.process_emails].

    Conventions of the embedding.
    - A Python [str] is a list of Unicode code points ([pystr]); indices and
      Python integers are [Z]; Python floats are binary64 ([float]).
    - A raised exception is a value of [exc]; a computation that may raise
      returns [exc + A], with [inl] the exception.
    - Interpreter services that are not code of the repository
      ([json.loads], [float] on a [str], the rendering and averaging done by
      the SQLite engine, the float summation of [sum]) are the fields of the
      class [PyRuntime]. *)

From Stdlib Require Import Ascii String.
From Stdlib Require Import Bool List ZArith NArith Floats Lia.
Import ListNotations.

Set Implicit Arguments.

(* A decimal float literal denotes the nearest binary64, as in Python. *)
Set Warnings "-inexact-float".

(* ================================================================== *)
(** * Part I: the program *)
(* ================================================================== *)

(** ** Python strings *)

Module PyStr.

Definition char := N.
Definition pystr := list char.

(** A string literal of the source, given by its ASCII text. *)
Definition lit (s : string) : pystr := List.map N_of_ascii (list_ascii_of_string s).

(** The double quote, U+0022. *)
Definition dq : pystr := [34%N].

(** The line feed, U+000A. *)
Definition nl : pystr := [10%N].

Fixpoint eqb (s t : pystr) : bool :=
  match s, t with
  | [], [] => true
  | c :: s', d :: t' => N.eqb c d && eqb s' t'
  | _, _ => false
  end.

(** [str.isspace] on one code point: the whitespace set that [str.strip()]
    removes (U+0009..U+000D, U+001C..U+0020, U+0085, U+00A0, U+1680,
    U+2000..U+200A, U+2028, U+2029, U+202F, U+205F, U+3000). *)
Definition isspace (c : char) : bool :=
  ((9 <=? c) && (c <=? 13) || (28 <=? c) && (c <=? 32) || (c =? 133) || (c =? 160)
   || (c =? 5760) || (8192 <=? c) && (c <=? 8202) || (c =? 8232) || (c =? 8233)
   || (c =? 8239) || (c =? 8287) || (c =? 12288))%N.

(** [s.lstrip()] *)
Fixpoint lstrip (s : pystr) : pystr :=
  match s with
  | [] => []
  | c :: s' => if isspace c then lstrip s' else s
  end.

(** [s.rstrip()] *)
Fixpoint rstrip (s : pystr) : pystr :=
  match s with
  | [] => []
  | c :: s' =>
      match rstrip s' with
      | [] => if isspace c then [] else [c]
      | r => c :: r
      end
  end.

(** [s.strip()] *)
Definition strip (s : pystr) : pystr := lstrip (rstrip s).

(** [s.startswith(sub)] *)
Fixpoint startswith (sub s : pystr) : bool :=
  match sub, s with
  | [], _ => true
  | _ :: _, [] => false
  | c :: sub', d :: s' => N.eqb c d && startswith sub' s'
  end.

(** Index of the first occurrence of [sub] in [s]. *)
Fixpoint index_of (sub s : pystr) : option nat :=
  if startswith sub s then Some 0%nat
  else match s with
       | [] => None
       | _ :: s' => option_map S (index_of sub s')
       end.

(** Index of the last occurrence of [sub] in [s]. *)
Fixpoint rindex_of (sub s : pystr) : option nat :=
  match s with
  | [] => if startswith sub [] then Some 0%nat else None
  | _ :: s' =>
      match rindex_of sub s' with
      | Some j => Some (S j)
      | None => if startswith sub s then Some 0%nat else None
      end
  end.

Definition index_result (r : option nat) : Z :=
  match r with
  | Some i => Z.of_nat i
  | None => (-1)%Z
  end.

(** [s.find(sub)]: lowest index of [sub] in [s], or -1. *)
Definition find (s sub : pystr) : Z := index_result (index_of sub s).

(** [s.rfind(sub)]: highest index of [sub] in [s], or -1. *)
Definition rfind (s sub : pystr) : Z := index_result (rindex_of sub s).

(** [sub in s] *)
Definition contains (sub s : pystr) : bool :=
  match index_of sub s with
  | Some _ => true
  | None => false
  end.

(** A slice bound as Python normalises it: a negative bound counts from the
    end, and every bound is clamped to [0 .. len]. *)
Definition clamp (len i : Z) : Z :=
  if (i <? 0)%Z then Z.max (i + len) 0 else Z.min i len.

(** [s[a:b]] *)
Definition slice (s : pystr) (a b : Z) : pystr :=
  let len := Z.of_nat (List.length s) in
  let a' := clamp len a in
  let b' := clamp len b in
  firstn (Z.to_nat (b' - a')) (skipn (Z.to_nat a') s).

(** [s[a:]] *)
Definition slice_from (s : pystr) (a : Z) : pystr :=
  skipn (Z.to_nat (clamp (Z.of_nat (List.length s)) a)) s.

(** [s[:b]] *)
Definition slice_to (s : pystr) (b : Z) : pystr :=
  firstn (Z.to_nat (clamp (Z.of_nat (List.length s)) b)) s.

(** [sep.join(parts)] *)
Fixpoint join (sep : pystr) (parts : list pystr) : pystr :=
  match parts with
  | [] => []
  | [p] => p
  | p :: rest => p ++ sep ++ join sep rest
  end.

(** Decimal digits of a positive number, most significant first; [fuel]
    bounds the number of digits. *)
Fixpoint digits (fuel : nat) (n : N) (acc : pystr) : pystr :=
  match fuel with
  | O => acc
  | S fuel' =>
      let acc' := (48 + N.modulo n 10)%N :: acc in
      if (n <? 10)%N then acc' else digits fuel' (N.div n 10) acc'
  end.

(** [str(z)] for a Python integer. *)
Definition str_of_int (z : Z) : pystr :=
  let n := Z.to_N (Z.abs z) in
  let ds := digits (S (N.to_nat (N.log2 n))) n [] in
  if (z <? 0)%Z then 45%N :: ds else ds.

End PyStr.
Import PyStr.

(** ** Python values, exceptions and the interpreter services *)

Module Py.

(** The values [json.loads] can return. *)
#[local] Unset Elimination Schemes.
Inductive pyval : Type :=
| PNone
| PBool (b : bool)
| PInt (z : Z)
| PFloat (f : float)
| PStr (s : pystr)
| PList (l : list pyval)
| PDict (d : list (pystr * pyval)).
#[local] Set Elimination Schemes.

(** [type(v).__name__] *)
Definition type_name (v : pyval) : pystr :=
  match v with
  | PNone => lit "NoneType"
  | PBool _ => lit "bool"
  | PInt _ => lit "int"
  | PFloat _ => lit "float"
  | PStr _ => lit "str"
  | PList _ => lit "list"
  | PDict _ => lit "dict"
  end.

(** An instance of [Exception]: its class name and the text [str(e)]. *)
Record exc : Type := Raise { exc_class : pystr; exc_str : pystr }.

Definition ValueError (msg : pystr) : exc := Raise (lit "ValueError") msg.
Definition TypeError (msg : pystr) : exc := Raise (lit "TypeError") msg.
Definition AttributeError (msg : pystr) : exc := Raise (lit "AttributeError") msg.
Definition IndexError (msg : pystr) : exc := Raise (lit "IndexError") msg.
Definition OverflowError (msg : pystr) : exc := Raise (lit "OverflowError") msg.
Definition ZeroDivisionError (msg : pystr) : exc := Raise (lit "ZeroDivisionError") msg.

(** A computation that returns an [A] or raises. *)
Definition result (A : Type) : Type := (exc + A)%type.

Definition ret {A : Type} (a : A) : result A := inr a.
Definition raise {A : Type} (e : exc) : result A := inl e.

Definition bind {A B : Type} (m : result A) (k : A -> result B) : result B :=
  match m with
  | inl e => inl e
  | inr a => k a
  end.

(** [d.get(key, default)] on a dict given by its items; a key is looked up
    by equality of strings. *)
Fixpoint dict_get (d : list (pystr * pyval)) (key : pystr) (default : pyval) : pyval :=
  match d with
  | [] => default
  | (k, v) :: d' => if PyStr.eqb k key then v else dict_get d' key default
  end.

(** [key in d] *)
Fixpoint dict_has (d : list (pystr * pyval)) (key : pystr) : bool :=
  match d with
  | [] => false
  | (k, _) :: d' => PyStr.eqb k key || dict_has d' key
  end.

(** [v.get(key, default)] on any value: only a dict has the method. *)
Definition py_get (v : pyval) (key : pystr) (default : pyval) : result pyval :=
  match v with
  | PDict d => ret (dict_get d key default)
  | _ => raise (AttributeError
                  ([39%N] ++ type_name v ++ lit "' object has no attribute 'get'"))
  end.

(** [float(z)] for a Python integer: the nearest binary64 (ties to even);
    an integer that rounds beyond the largest finite float raises. *)
Definition float_of_int (z : Z) : result float :=
  let f := SF2Prim (binary_normalize prec emax z 0 false) in
  if PrimFloat.is_infinity f then raise (OverflowError (lit "int too large to convert to float"))
  else ret f.

(** What the interpreter and its libraries provide. *)
Class PyRuntime : Type := {
  (** [json.loads(text)] *)
  json_loads : pystr -> result pyval;
  (** [float(s)] for a [str] *)
  float_of_str : pystr -> result float;
  (** [sum(xs)] over a non-empty sequence of floats *)
  float_sum : list float -> float
}.

(** [float(v)] *)
Definition py_float `{PyRuntime} (v : pyval) : result float :=
  match v with
  | PFloat f => ret f
  | PInt z => float_of_int z
  | PBool b => ret (if b then 1%float else 0%float)
  | PStr s => float_of_str s
  | PNone | PList _ | PDict _ =>
      raise (TypeError (lit "float() argument must be a string or a real number, not '"
                          ++ type_name v ++ [39%N]))
  end.

End Py.
Import Py.

Declare Scope py_scope.
Delimit Scope py_scope with py.
Notation "x <- m ;; k" := (bind m (fun x => k))
  (at level 61, m at next level, right associativity) : py_scope.

(** ** The balanced-brace pattern *)

Module JsonPattern.

Definition lbrace : char := 123%N.
Definition rbrace : char := 125%N.

(** [json_pattern] after its opening brace. The pattern is: an opening
    brace, a run of non-brace characters, any number of groups (an opening
    brace, a non-brace run, a closing brace, a non-brace run), and a closing
    brace. Each run must stop at a brace, so the match is determined
    character by character: outside a group ([inner = false]) a closing
    brace ends the match and an opening brace enters a group; inside a group
    ([inner = true]) a closing brace leaves it and an opening brace fails.
    The result is the number of characters consumed, closing brace
    included. *)
Fixpoint scan (inner : bool) (s : pystr) : option nat :=
  match s with
  | [] => None
  | c :: s' =>
      if N.eqb c lbrace then
        if inner then None else option_map S (scan true s')
      else if N.eqb c rbrace then
        if inner then option_map S (scan false s') else Some 1%nat
      else option_map S (scan inner s')
  end.

(** [re.findall(json_pattern, s, re.DOTALL)]: the non-overlapping matches,
    left to right. [skip] counts the characters of [s] that still belong to
    the match found last. *)
Fixpoint findall_from (skip : nat) (s : pystr) : list pystr :=
  match s with
  | [] => []
  | c :: s' =>
      match skip with
      | S k => findall_from k s'
      | O =>
          if N.eqb c lbrace then
            match scan false s' with
            | Some n => (c :: firstn n s') :: findall_from n s'
            | None => findall_from 0 s'
            end
          else findall_from 0 s'
      end
  end.

Definition findall (s : pystr) : list pystr := findall_from 0 s.

End JsonPattern.

(** ** [EmailScore] and [EmailScorer] *)

(** The dataclass [EmailScore]. [category] and [reasoning] are annotated
    [str], but [score_email] stores whatever value the model's JSON holds
    under these keys, so the fields carry a [pyval]. *)
Record EmailScore : Type := mkEmailScore {
  importance_score : float;
  spam_score : float;
  category : pyval;
  reasoning : pyval;
  confidence : float
}.

Module EmailScorer.

(** One request to [client.chat.completions.create]. *)
Record Request : Type := mkRequest {
  req_model : pystr;
  req_messages : list (pystr * pystr);   (* role, content *)
  req_temperature : float;
  req_max_tokens : Z
}.

(** What the call returns: [choices[i].message.content] for each choice;
    the content of a message may be [None]. *)
Definition Response : Type := list (option pystr).

(** The scorer object: its model name and its client, whose [create] call
    returns a response or raises. *)
Record t : Type := mk {
  lm_studio_url : pystr;
  model_name : pystr;
  client_create : Request -> result Response
}.

(** [body[:1500] if body else ""] *)
Definition body_preview (body : pystr) : pystr :=
  match body with
  | [] => []
  | _ => slice_to body 1500
  end.

Definition prompt_head : pystr :=
  lit "Classify this email. Output JSON only, no thinking or explanation." ++ nl
  ++ nl
  ++ lit "SENDER: ".

Definition prompt_rules : pystr :=
  nl
  ++ nl
  ++ lit "Rules:" ++ nl
  ++ lit "- Work emails: importance 7-9" ++ nl
  ++ lit "- Orders/shipping/deliveries: importance 6-7" ++ nl
  ++ lit "- Personal emails: importance 6-8" ++ nl
  ++ lit "- Notifications: importance 3-5" ++ nl
  ++ lit "- Marketing/newsletters: importance 1-3" ++ nl
  ++ lit "- Unknown/suspicious senders: higher spam score" ++ nl
  ++ nl
  ++ lit "Orders category includes: Amazon, retailers, shipping companies (UPS/FedEx/USPS), order confirmations, delivery updates, tracking info." ++ nl
  ++ nl
  ++ lit "Output this exact JSON format:" ++ nl
  ++ lit "{" ++ dq ++ lit "importance_score" ++ dq ++ lit ": [0-10], "
  ++ dq ++ lit "spam_score" ++ dq ++ lit ": [0-10], "
  ++ dq ++ lit "category" ++ dq ++ lit ": "
  ++ dq ++ lit "[work/personal/orders/newsletter/promotion/spam/notification]" ++ dq
  ++ lit ", " ++ dq ++ lit "reasoning" ++ dq ++ lit ": " ++ dq ++ lit "[brief]" ++ dq
  ++ lit ", " ++ dq ++ lit "confidence" ++ dq ++ lit ": [0.0-1.0]}".

(** The f-string [prompt] of [score_email] (lines 46-65). [email_date] is a
    parameter of [score_email]; the f-string has no field for it. *)
Definition prompt (sender subject body email_date : pystr) : pystr :=
  prompt_head ++ sender ++ nl
  ++ lit "SUBJECT: " ++ subject ++ nl
  ++ lit "CONTENT: " ++ body_preview body
  ++ prompt_rules.

Definition system_message : pystr :=
  lit "You are a precise email classifier. Respond with JSON only, no thinking or explanation.".

Definition request (self : t) (user_prompt : pystr) : Request :=
  mkRequest (model_name self)
    [(lit "system", system_message); (lit "user", user_prompt)]
    0.1%float 200%Z.

Definition think_open : pystr := lit "<think>".
Definition think_close : pystr := lit "</think>".
Definition fence : pystr := lit "```".
Definition json_fence : pystr := lit "```json".

(** Lines 93-97: remove the thinking tags. *)
Definition remove_thinking (json_text : pystr) : pystr :=
  if contains think_open json_text && contains think_close json_text then
    let think_end := (find json_text think_close + 8)%Z in
    strip (slice_from json_text think_end)
  else json_text.

(** Lines 100-109: remove markdown code blocks. *)
Definition remove_code_blocks (json_text : pystr) : pystr :=
  if contains json_fence json_text then
    let start := (find json_text json_fence + 7)%Z in
    let end_ := rfind json_text fence in
    if (end_ >? start)%Z then strip (slice json_text start end_) else json_text
  else if contains fence json_text then
    let start := (find json_text fence + 3)%Z in
    let end_ := rfind json_text fence in
    if (end_ >? start)%Z then strip (slice json_text start end_) else json_text
  else json_text.

(** Lines 112-126: the first match of the balanced-brace pattern,
    stripped. *)
Definition find_json (json_text : pystr) : result pystr :=
  match JsonPattern.findall json_text with
  | m :: _ => ret (strip m)
  | [] => raise (ValueError (lit "No JSON found in model response"))
  end.

Local Open Scope py_scope.

(** Lines 131-137: the [EmailScore] built from the parsed value. The
    arguments are evaluated in the order written. *)
Definition build_score `{PyRuntime} (parsed : pyval) : result EmailScore :=
  v1 <- py_get parsed (lit "importance_score") (PInt 5) ;;
  imp <- py_float v1 ;;
  v2 <- py_get parsed (lit "spam_score") (PInt 0) ;;
  spam <- py_float v2 ;;
  cat <- py_get parsed (lit "category") (PStr (lit "unknown")) ;;
  rsn <- py_get parsed (lit "reasoning") (PStr (lit "No reasoning provided")) ;;
  v5 <- py_get parsed (lit "confidence") (PFloat 0.5) ;;
  conf <- py_float v5 ;;
  ret (mkEmailScore imp spam cat rsn conf).

(** Lines 99-137: from the text left by the removal of the thinking tags to
    the score. *)
Definition extract_and_build `{PyRuntime} (json_text : pystr) : result EmailScore :=
  let json_text := remove_code_blocks json_text in
  json_text <- find_json json_text ;;
  parsed <- json_loads json_text ;;
  build_score parsed.

(** Lines 78-137: from the text of the first choice to the score. *)
Definition interpret `{PyRuntime} (content : pystr) : result EmailScore :=
  let result_text := strip content in
  match result_text with
  | [] => raise (ValueError (lit "Empty response from model"))
  | _ => extract_and_build (remove_thinking result_text)
  end.

(** [response.choices[0].message.content.strip()] up to the call of
    [strip]: the content of the first choice. *)
Definition first_content (response : Response) : result pystr :=
  match response with
  | [] => raise (IndexError (lit "list index out of range"))
  | None :: _ => raise (AttributeError (lit "'NoneType' object has no attribute 'strip'"))
  | Some content :: _ => ret content
  end.

(** The [try] block of [score_email] (lines 68-137). *)
Definition score_email_try `{PyRuntime} (self : t)
  (sender subject body email_date : pystr) : result EmailScore :=
  response <- client_create self (request self (prompt sender subject body email_date)) ;;
  content <- first_content response ;;
  interpret content.

(** The score of the [except Exception] handler (lines 142-148). *)
Definition fallback_score (e : exc) : EmailScore :=
  mkEmailScore 5.0%float 0.0%float (PStr (lit "unknown"))
    (PStr (lit "Error during scoring: " ++ exc_str e)) 0.1%float.

(** [EmailScorer.score_email] *)
Definition score_email `{PyRuntime} (self : t)
  (sender subject body email_date : pystr) : EmailScore :=
  match score_email_try self sender subject body email_date with
  | inr score => score
  | inl e => fallback_score e
  end.

End EmailScorer.

(** ** Messages and label application *)

(** The dict built by [GmailManager._get_email_details]. *)
Module Email.

Record t : Type := mk {
  id : pystr;
  sender : pystr;
  subject : pystr;
  date : pystr;
  body : pystr;
  labels : list pystr;
  thread_id : pystr;
  snippet : pystr
}.

End Email.

Module GmailManager.

(** One [users().messages().modify(userId='me', id=..., body={'addLabelIds':
    [...]})] request. *)
Record ModifyRequest : Type := mkModify {
  modify_id : pystr;
  add_label_ids : list pystr
}.

(** The remote mailbox service: the requests executed so far, and its answer
    to the next one, which may depend on all of them; [true] when [execute]
    returns, [false] when it raises. *)
Record Service : Type := mkService {
  executed : list ModifyRequest;
  answers : list ModifyRequest -> ModifyRequest -> bool
}.

(** [GmailManager]: the dict [labels] from label name to label id, as its
    items, and the service. *)
Record t : Type := mk {
  labels : list (pystr * pystr);
  service : Service
}.

(** [self.labels[name]], [None] when the key is absent. *)
Fixpoint label_id (labels : list (pystr * pystr)) (name : pystr) : option pystr :=
  match labels with
  | [] => None
  | (k, v) :: rest => if PyStr.eqb k name then Some v else label_id rest name
  end.

(** [execute()] of one request on the service. *)
Definition execute (s : Service) (r : ModifyRequest) : bool * Service :=
  (answers s (executed s) r, mkService (executed s ++ [r]) (answers s)).

(** [GmailManager.apply_label] *)
Definition apply_label (self : t) (email_id label_name : pystr) : bool * t :=
  match label_id (labels self) label_name with
  | None => (false, self)
  | Some lid =>
      let (ok, s') := execute (service self) (mkModify email_id [lid]) in
      (ok, mk (labels self) s')
  end.

End GmailManager.

Module EmailScoringSystem.

Definition HIGH_IMPORTANCE : pystr := lit "EmailScorer/High-Importance".
Definition MEDIUM_IMPORTANCE : pystr := lit "EmailScorer/Medium-Importance".
Definition LOW_IMPORTANCE : pystr := lit "EmailScorer/Low-Importance".
Definition ORDERS_SHIPPING : pystr := lit "EmailScorer/Orders-Shipping".
Definition LIKELY_SPAM : pystr := lit "EmailScorer/Likely-Spam".
Definition NEEDS_REVIEW : pystr := lit "EmailScorer/Needs-Review".

(** [value == 'text'] for a value and a string literal. *)
Definition py_eq_str (v : pyval) (s : pystr) : bool :=
  match v with
  | PStr t => PyStr.eqb t s
  | _ => false
  end.

(** [x >= y] and [x < y] on floats. *)
Definition ge (x y : float) : bool := PrimFloat.leb y x.
Definition lt (x y : float) : bool := PrimFloat.ltb x y.

(** [if self.gmail.apply_label(email['id'], label):
        labels_applied.append(label)] *)
Definition apply_and_record (gmail : GmailManager.t) (email : Email.t)
  (label : pystr) (labels_applied : list pystr) : list pystr * GmailManager.t :=
  let (ok, gmail') := GmailManager.apply_label gmail (Email.id email) label in
  (if ok then labels_applied ++ [label] else labels_applied, gmail').

(** [EmailScoringSystem._apply_scoring_labels], with the mailbox threaded
    through the calls. *)
Definition _apply_scoring_labels (gmail : GmailManager.t) (email : Email.t)
  (score : EmailScore) : list pystr * GmailManager.t :=
  let labels_applied := [] in
  (* Special category labels first *)
  let (labels_applied, gmail) :=
    if py_eq_str (category score) (lit "orders")
    then apply_and_record gmail email ORDERS_SHIPPING labels_applied
    else (labels_applied, gmail) in
  (* Importance labels *)
  let (labels_applied, gmail) :=
    if ge (importance_score score) 8
    then apply_and_record gmail email HIGH_IMPORTANCE labels_applied
    else if ge (importance_score score) 5
    then apply_and_record gmail email MEDIUM_IMPORTANCE labels_applied
    else apply_and_record gmail email LOW_IMPORTANCE labels_applied in
  (* Spam labels *)
  let (labels_applied, gmail) :=
    if ge (spam_score score) 7
    then apply_and_record gmail email LIKELY_SPAM labels_applied
    else (labels_applied, gmail) in
  (* Low confidence needs review *)
  let (labels_applied, gmail) :=
    if lt (confidence score) 0.6
    then apply_and_record gmail email NEEDS_REVIEW labels_applied
    else (labels_applied, gmail) in
  (labels_applied, gmail).

End EmailScoringSystem.

(** ** The ledger *)

Module EmailDatabase.

(** A [datetime]: microseconds since 0001-01-01 00:00:00, the least value of
    the type. SQLite stores the text form, whose order is the order of
    time. *)
Definition datetime : Type := Z.

(** The first instant after [datetime.max] (9999-12-31 23:59:59.999999). *)
Definition DATETIME_END : Z := 3652059 * 86400000000.

(** What SQLite computes on floating-point values. *)
Class SqliteEngine : Type := {
  (** the text a REAL becomes in a column of TEXT affinity *)
  sqlite_real_text : float -> pystr;
  (** [AVG] over the non-NULL values of a group, at least one *)
  sqlite_avg : list float -> float
}.

(** A row of [email_scores]. A column holds what its affinity lets this
    program store in it: NULL ([None]) or text in a TEXT column, NULL or a
    float in a REAL column, NULL or a timestamp in [date_processed]. *)
Record Row : Type := mkRow {
  col_id : Z;
  col_email_id : option pystr;
  col_sender : option pystr;
  col_subject : option pystr;
  col_date_processed : option datetime;
  col_importance_score : option float;
  col_spam_score : option float;
  col_category : option pystr;
  col_reasoning : option pystr;
  col_confidence : option float;
  col_model_version : option pystr;
  col_labels_applied : option pystr;
  col_user_feedback : option pystr
}.

(** The database file: the rows of [email_scores] and the largest row id
    the table has ever held, which AUTOINCREMENT keeps in
    [sqlite_sequence]. *)
Record t : Type := mk {
  email_scores : list Row;
  sequence : Z
}.

(** The ways an operation of the ledger raises. *)
Inductive failure : Type :=
| SurrogatesNotAllowed (param : nat)          (* UnicodeEncodeError on a str *)
| TypeNotSupported (param : nat) (ty : pystr) (* binding a list or a dict *)
| IntTooLarge (param : nat)                   (* int outside 64 bits *)
| DatabaseFull                                (* no row id left *)
| TimedeltaOverflow                           (* OverflowError of timedelta *)
| DateOutOfRange                              (* OverflowError of datetime - timedelta *)
| NoneTimesInt                                (* TypeError: None * int *)
| IntTooLargeForFloat                         (* OverflowError: int to float *)
| DivisionByZero.                             (* ZeroDivisionError *)

Definition outcome (A : Type) : Type := (failure + A)%type.

Definition and_then {A B : Type} (m : outcome A) (k : A -> outcome B) : outcome B :=
  match m with
  | inl e => inl e
  | inr a => k a
  end.

Definition is_surrogate (c : char) : bool := ((55296 <=? c) && (c <=? 57343))%N.

(** Binding a [str]: it is passed as UTF-8, which lone surrogates lack. *)
Definition bind_text (param : nat) (s : pystr) : outcome (option pystr) :=
  if existsb is_surrogate s then inl (SurrogatesNotAllowed param) else inr (Some s).

(** Binding a [float] to a REAL column: SQLite stores NaN as NULL. *)
Definition bind_real (f : float) : option float :=
  if PrimFloat.is_nan f then None else Some f.

Definition INT64_MIN : Z := - 2 ^ 63.
Definition INT64_MAX : Z := 2 ^ 63 - 1.

(** Binding any value to a TEXT column: a number is stored as its text. *)
Definition bind_to_text `{SqliteEngine} (param : nat) (v : pyval) : outcome (option pystr) :=
  match v with
  | PStr s => bind_text param s
  | PNone => inr None
  | PBool b => inr (Some (if b then lit "1" else lit "0"))
  | PInt z =>
      if (INT64_MIN <=? z)%Z && (z <=? INT64_MAX)%Z then inr (Some (str_of_int z))
      else inl (IntTooLarge param)
  | PFloat f => inr (if PrimFloat.is_nan f then None else Some (sqlite_real_text f))
  | PList _ | PDict _ => inl (TypeNotSupported param (type_name v))
  end.

(** Equality of a TEXT column with a bound string. *)
Definition text_is (k : pystr) (v : option pystr) : bool :=
  match v with
  | Some s => PyStr.eqb s k
  | None => false
  end.

(** The row id AUTOINCREMENT assigns next: one more than the largest the
    table has ever held. *)
Definition largest_rowid (db : t) : Z :=
  fold_right Z.max (sequence db) (List.map col_id (email_scores db)).

Local Notation "x <- m ;; k" := (and_then m (fun x => k))
  (at level 61, m at next level, right associativity).

(** [EmailDatabase.save_score]; [now] is the value of [datetime.now()].
    INSERT OR REPLACE deletes the rows whose [email_id] equals the new one
    and inserts the new row; [id] and [user_feedback] are not in the column
    list, so the row gets the next row id and a NULL [user_feedback]. *)
Definition save_score `{SqliteEngine} (db : t) (email : Email.t) (score : EmailScore)
  (labels_applied : list pystr) (now : datetime) : outcome t :=
  p1 <- bind_text 1 (Email.id email) ;;
  p2 <- bind_text 2 (Email.sender email) ;;
  p3 <- bind_text 3 (Email.subject email) ;;
  let p4 := Some now in
  let p5 := bind_real (importance_score score) in
  let p6 := bind_real (spam_score score) in
  p7 <- bind_to_text 7 (category score) ;;
  p8 <- bind_to_text 8 (reasoning score) ;;
  let p9 := bind_real (confidence score) in
  p10 <- bind_text 10 (lit "v1.0") ;;
  p11 <- bind_text 11 (join (lit ",") labels_applied) ;;
  let rowid := (largest_rowid db + 1)%Z in
  if (rowid >? INT64_MAX)%Z then inl DatabaseFull
  else
    let kept := filter (fun r => negb (text_is (Email.id email) (col_email_id r)))
                  (email_scores db) in
    inr (mk (kept ++ [mkRow rowid p1 p2 p3 p4 p5 p6 p7 p8 p9 p10 p11 None]) rowid).

(** [EmailDatabase.is_email_processed] *)
Definition is_email_processed (db : t) (email_id : pystr) : outcome bool :=
  p1 <- bind_text 1 email_id ;;
  inr (existsb (fun r => text_is email_id (col_email_id r)) (email_scores db)).

(** Order of the values of a TEXT column: NULL first, then text by code
    points. *)
Fixpoint text_compare (s t : pystr) : comparison :=
  match s, t with
  | [], [] => Eq
  | [], _ :: _ => Lt
  | _ :: _, [] => Gt
  | c :: s', d :: t' =>
      match N.compare c d with
      | Eq => text_compare s' t'
      | o => o
      end
  end.

Definition key_compare (a b : option pystr) : comparison :=
  match a, b with
  | None, None => Eq
  | None, Some _ => Lt
  | Some _, None => Gt
  | Some s, Some t => text_compare s t
  end.

(** The distinct keys of GROUP BY, in the order SQLite emits the groups. *)
Fixpoint insert_key (k : option pystr) (ks : list (option pystr)) : list (option pystr) :=
  match ks with
  | [] => [k]
  | k' :: rest =>
      match key_compare k k' with
      | Lt => k :: ks
      | Eq => ks
      | Gt => k' :: insert_key k rest
      end
  end.

Definition group_keys (rows : list Row) : list (option pystr) :=
  fold_right insert_key [] (List.map col_category rows).

Definition same_key (a b : option pystr) : bool :=
  match key_compare a b with
  | Eq => true
  | _ => false
  end.

(** [COUNT(CASE WHEN col >= 7 THEN 1 END)] over a REAL column. *)
Definition count_ge7 (col : Row -> option float) (rows : list Row) : Z :=
  Z.of_nat (List.length (filter (fun r => match col r with
                                          | Some x => PrimFloat.leb 7 x
                                          | None => false
                                          end) rows)).

Fixpoint non_null {A : Type} (l : list (option A)) : list A :=
  match l with
  | [] => []
  | Some a :: l' => a :: non_null l'
  | None :: l' => non_null l'
  end.

(** A result row of the statistics query: [total_emails], [avg_confidence],
    [high_importance], [likely_spam], [category], [category_count]. *)
Definition StatRow : Type := (Z * option float * Z * Z * option pystr * Z)%type.

Definition group_row `{SqliteEngine} (rows : list Row) (key : option pystr) : StatRow :=
  let g := filter (fun r => same_key (col_category r) key) rows in
  let n := Z.of_nat (List.length g) in
  let avg := match non_null (List.map col_confidence g) with
             | [] => None
             | vals => Some (sqlite_avg vals)
             end in
  (n, avg, count_ge7 col_importance_score g, count_ge7 col_spam_score g, key, n).

(** The SELECT of [get_performance_stats]: the rows processed at or after
    [since_date], one result row per category. *)
Definition stats_query `{SqliteEngine} (db : t) (since_date : datetime) : list StatRow :=
  let rows := filter (fun r => match col_date_processed r with
                               | Some d => (since_date <=? d)%Z
                               | None => false
                               end) (email_scores db) in
  List.map (group_row rows) (group_keys rows).

(** The dict [get_performance_stats] returns. *)
Record Stats : Type := mkStats {
  total_processed : Z;
  avg_confidence : pyval;
  high_importance_count : Z;
  spam_count : Z;
  categories : list (option pystr * Z)
}.

Definition r1 (r : StatRow) : option float := let '(_, a, _, _, _, _) := r in a.
Definition r2 (r : StatRow) : Z := let '(_, _, h, _, _, _) := r in h.
Definition r3 (r : StatRow) : Z := let '(_, _, _, s, _, _) := r in s.
Definition r4 (r : StatRow) : option pystr := let '(_, _, _, _, c, _) := r in c.
Definition r5 (r : StatRow) : Z := let '(_, _, _, _, _, n) := r in n.

(** [sum] over Python integers. *)
Definition int_sum (l : list Z) : Z := fold_left Z.add l 0%Z.

(** [float(z)], the conversion Python applies to the integer operand of a
    mixed operation. *)
Definition to_float (z : Z) : outcome float :=
  match float_of_int z with
  | inr f => inr f
  | inl _ => inl IntTooLargeForFloat
  end.

(** [r[1] * r[5]] for each result row, in order. *)
Fixpoint weighted (results : list StatRow) : outcome (list float) :=
  match results with
  | [] => inr []
  | r :: rest =>
      match r1 r with
      | None => inl NoneTimesInt
      | Some a =>
          n <- to_float (r5 r) ;;
          ws <- weighted rest ;;
          inr (PrimFloat.mul a n :: ws)
      end
  end.

(** [timedelta(days=d)], in microseconds. *)
Definition timedelta_days (d : Z) : outcome Z :=
  if (Z.abs d <=? 999999999)%Z then inr (d * 86400000000)%Z else inl TimedeltaOverflow.

(** [now - delta] *)
Definition datetime_sub (now : datetime) (delta : Z) : outcome datetime :=
  let r := (now - delta)%Z in
  if (0 <=? r)%Z && (r <? DATETIME_END)%Z then inr r else inl DateOutOfRange.

(** [EmailDatabase.get_performance_stats]; [now] is the value of
    [datetime.now()]. *)
Definition get_performance_stats `{PyRuntime} `{SqliteEngine} (db : t) (now : datetime)
  (days_back : Z) : outcome Stats :=
  delta <- timedelta_days days_back ;;
  since_date <- datetime_sub now delta ;;
  let results := stats_query db since_date in
  avg <- match results with
         | [] => inr (PInt 0)
         | _ =>
             ws <- weighted results ;;
             den <- to_float (int_sum (List.map r5 results)) ;;
             if PrimFloat.eqb den 0 then inl DivisionByZero
             else inr (PFloat (PrimFloat.div (float_sum ws) den))
         end ;;
  inr (mkStats (int_sum (List.map r5 results)) avg
         (int_sum (List.map r2 results)) (int_sum (List.map r3 results))
         (List.map (fun r => (r4 r, r5 r)) results)).

End EmailDatabase.

(** ** Reading the mailbox *)

Module GmailReader.

Definition LT : char := 60%N.
Definition GT : char := 62%N.
Definition NEWLINE : char := 10%N.
Definition SPACE : char := 32%N.

(** The pattern of [_strip_html] after its opening angle bracket: the
    shortest run of characters other than a line feed that ends with a
    closing bracket. The result is the number of characters consumed,
    closing bracket included. *)
Fixpoint tag_end (s : pystr) : option nat :=
  match s with
  | [] => None
  | c :: s' =>
      if N.eqb c GT then Some 1%nat
      else if N.eqb c NEWLINE then None
      else option_map S (tag_end s')
  end.

(** [re.sub(clean, '', s)]: every match is left out; [skip] counts the
    characters of [s] that still belong to the match found last. *)
Fixpoint strip_tags (skip : nat) (s : pystr) : pystr :=
  match s with
  | [] => []
  | c :: s' =>
      match skip with
      | S k => strip_tags k s'
      | O =>
          if N.eqb c LT then
            match tag_end s' with
            | Some n => strip_tags n s'
            | None => c :: strip_tags 0 s'
            end
          else c :: strip_tags 0 s'
      end
  end.

(** [GmailManager._strip_html] *)
Definition _strip_html (html_text : pystr) : pystr := strip_tags 0 html_text.

(** [re.sub(r'\s+', ' ', text)]: every maximal run of whitespace becomes one
    space; [in_run] tells that the previous character was whitespace. *)
Fixpoint collapse (in_run : bool) (s : pystr) : pystr :=
  match s with
  | [] => []
  | c :: s' =>
      if isspace c then
        if in_run then collapse true s' else SPACE :: collapse true s'
      else c :: collapse false s'
  end.

(** The characters of [s] before its first line feed. *)
Fixpoint line_of (s : pystr) : pystr :=
  match s with
  | [] => []
  | c :: s' => if N.eqb c NEWLINE then [] else c :: line_of s'
  end.

Definition ON : pystr := lit "On ".
Definition WROTE : pystr := lit " wrote:".
Definition FROM : pystr := lit "From: ".

(** [re.sub(r'On .* wrote:', '', s)]: a match starts at the text [On ] and,
    the star being greedy and stopping at a line feed, ends with the last
    [ wrote:] of the line. *)
Fixpoint remove_on_wrote (skip : nat) (s : pystr) : pystr :=
  match s with
  | [] => []
  | c :: s' =>
      match skip with
      | S k => remove_on_wrote k s'
      | O =>
          if startswith ON s then
            match rindex_of WROTE (line_of (skipn 3 s)) with
            | Some j => remove_on_wrote (2 + j + 7) s'
            | None => c :: remove_on_wrote 0 s'
            end
          else c :: remove_on_wrote 0 s'
      end
  end.

(** [re.sub(r'From: .*\n', '', s)]: a match starts at the text [From: ] and
    runs through the line feed that ends the line; there is none on a last
    line without a line feed. *)
Fixpoint remove_from_lines (skip : nat) (s : pystr) : pystr :=
  match s with
  | [] => []
  | c :: s' =>
      match skip with
      | S k => remove_from_lines k s'
      | O =>
          if startswith FROM s then
            let rest := skipn 6 s in
            let n := length (line_of rest) in
            if (n <? length rest)%nat then remove_from_lines (5 + n + 1) s'
            else c :: remove_from_lines 0 s'
          else c :: remove_from_lines 0 s'
      end
  end.

(** [GmailManager._clean_text] *)
Definition _clean_text (text : pystr) : pystr :=
  let text := collapse false text in
  let text := remove_on_wrote 0 text in
  let text := remove_from_lines 0 text in
  strip text.

(** A message part of the Gmail API: its MIME type, the [data] of its
    [body] when the key is there, and its [parts] when the key is there. *)
#[local] Unset Elimination Schemes.
Inductive Part : Type :=
| mkPart (mimeType : pystr) (data : option pystr) (parts : option (list Part)).
#[local] Set Elimination Schemes.

Definition mimeType (p : Part) : pystr := let '(mkPart m _ _) := p in m.
Definition parts (p : Part) : option (list Part) := let '(mkPart _ _ ps) := p in ps.

(** [part['body'].get('data', '')] *)
Definition body_data (p : Part) : pystr :=
  let '(mkPart _ d _) := p in
  match d with
  | Some s => s
  | None => []
  end.

(** What the interpreter provides to the reader. *)
Class MailRuntime : Type := {
  (** [base64.urlsafe_b64decode(data).decode('utf-8')] *)
  decode_body : pystr -> result pystr;
  (** [s.lower()] *)
  str_lower : pystr -> pystr;
  (** [d.strftime('%Y/%m/%d')] *)
  strftime_ymd : EmailDatabase.datetime -> pystr
}.

Definition TEXT_PLAIN : pystr := lit "text/plain".
Definition TEXT_HTML : pystr := lit "text/html".

Local Open Scope py_scope.

(** The loop of [_extract_body] over [payload['parts']], from the value
    [body] has so far. A plain-text part with data ends the loop. *)
Fixpoint scan_parts `{MailRuntime} (ps : list Part) (body : pystr) : result pystr :=
  match ps with
  | [] => ret body
  | part :: rest =>
      if PyStr.eqb (mimeType part) TEXT_PLAIN then
        match body_data part with
        | [] => scan_parts rest body
        | data => decode_body data
        end
      else if PyStr.eqb (mimeType part) TEXT_HTML then
        match body_data part, body with
        | (_ :: _) as data, [] =>
            html_body <- decode_body data ;;
            scan_parts rest (_strip_html html_body)
        | _, _ => scan_parts rest body
        end
      else scan_parts rest body
  end.

(** [GmailManager._extract_body] *)
Definition _extract_body `{MailRuntime} (payload : Part) : result pystr :=
  match parts payload with
  | Some ps => scan_parts ps []
  | None =>
      if PyStr.eqb (mimeType payload) TEXT_PLAIN then
        match body_data payload with
        | [] => ret []
        | data => decode_body data
        end
      else ret []
  end.

(** [d[key] = value] on a dict of strings given by its items: the value of
    a key that is there is replaced in place, a new key goes last. *)
Fixpoint dict_set (d : list (pystr * pystr)) (key value : pystr) : list (pystr * pystr) :=
  match d with
  | [] => [(key, value)]
  | (k, v) :: rest =>
      if PyStr.eqb k key then (k, value) :: rest else (k, v) :: dict_set rest key value
  end.

(** [d.get(key, '')] *)
Definition dict_get_str (d : list (pystr * pystr)) (key : pystr) : pystr :=
  match GmailManager.label_id d key with
  | Some v => v
  | None => []
  end.

(** The message resource [messages().get(..., format='full')] returns: its
    payload, the headers of the payload, and the optional keys
    [labelIds], [threadId] and [snippet]. *)
Record Message : Type := mkMessage {
  payload : Part;
  headers : option (list (pystr * pystr));   (* name, value *)
  labelIds : option (list pystr);
  threadId : option pystr;
  snippet : option pystr
}.

(** [{h['name'].lower(): h['value'] for h in headers}] *)
Definition header_dict `{MailRuntime} (hs : list (pystr * pystr)) : list (pystr * pystr) :=
  fold_left (fun d h => dict_set d (str_lower (fst h)) (snd h)) hs [].

Definition or_default {A : Type} (o : option A) (default : A) : A :=
  match o with
  | Some a => a
  | None => default
  end.

(** The [try] block of [_get_email_details], from the outcome of the
    [get] request. *)
Definition email_details_try `{MailRuntime} (got : result Message) (message_id : pystr)
  : result Email.t :=
  msg <- got ;;
  let hd := header_dict (or_default (headers msg) []) in
  body <- _extract_body (payload msg) ;;
  let body_text := match body with
                   | [] => []
                   | _ => _clean_text body
                   end in
  ret (Email.mk message_id (dict_get_str hd (lit "from")) (dict_get_str hd (lit "subject"))
         (dict_get_str hd (lit "date")) body_text (or_default (labelIds msg) [])
         (or_default (threadId msg) []) (or_default (snippet msg) [])).

(** [GmailManager._get_email_details]: [None] on any exception. *)
Definition _get_email_details `{MailRuntime} (got : result Message) (message_id : pystr)
  : option Email.t :=
  match email_details_try got message_id with
  | inr email => Some email
  | inl _ => None
  end.

(** The reading side of the service: the identifiers a [messages().list]
    request returns for a query and a limit (none when the key [messages]
    is absent), and the resource a [messages().get] request returns; either
    may raise. *)
Record ReadService : Type := mkReadService {
  list_messages : pystr -> Z -> result (list pystr);
  get_message : pystr -> result Message
}.

(** [timedelta(hours=h)], in microseconds. *)
Definition timedelta_hours (h : Z) : EmailDatabase.outcome Z :=
  if (Z.abs (h / 24) <=? 999999999)%Z then inr (h * 3600000000)%Z
  else inl EmailDatabase.TimedeltaOverflow.

(** The loop of [get_recent_emails] over the listed messages. *)
Fixpoint collect_emails `{MailRuntime} (service : ReadService) (ids : list pystr)
  : list Email.t :=
  match ids with
  | [] => []
  | message_id :: rest =>
      match _get_email_details (get_message service message_id) message_id with
      | Some email_data => email_data :: collect_emails service rest
      | None => collect_emails service rest
      end
  end.

(** [GmailManager.get_recent_emails]; [now] is the value of
    [datetime.now()]. The date arithmetic is outside the [try] block. *)
Definition get_recent_emails `{MailRuntime} (service : ReadService)
  (now : EmailDatabase.datetime) (hours_back max_results : Z)
  : EmailDatabase.outcome (list Email.t) :=
  EmailDatabase.and_then (timedelta_hours hours_back) (fun delta =>
  EmailDatabase.and_then (EmailDatabase.datetime_sub now delta) (fun since_date =>
    let query := lit "after:" ++ strftime_ymd since_date ++ lit " -in:chats" in
    match list_messages service query max_results with
    | inr ids => inr (collect_emails service ids)
    | inl _ => inr []
    end)).

End GmailReader.

(** ** Creating the labels *)

Module GmailSetup.
Import GmailReader.

(** The body of a [labels().create] request. *)
Record CreateRequest : Type := mkCreate {
  create_name : pystr;
  messageListVisibility : pystr;
  labelListVisibility : pystr;
  textColor : pystr;
  backgroundColor : pystr
}.

(** The label side of the service: the outcome of [labels().list] (name
    and id of each label; none when the key [labels] is absent), the create
    requests executed so far, and the id the service answers to the next
    one, or the exception it raises. *)
Record LabelService : Type := mkLabelService {
  listed : result (list (pystr * pystr));
  created : list CreateRequest;
  create_answers : list CreateRequest -> CreateRequest -> result pystr
}.

(** The dict [required_labels]: label name and colour, in the order
    written. *)
Definition required_labels : list (pystr * pystr) :=
  [(lit "EmailScorer/High-Importance", lit "#cc3a21");
   (lit "EmailScorer/Medium-Importance", lit "#f2c960");
   (lit "EmailScorer/Low-Importance", lit "#cccccc");
   (lit "EmailScorer/Orders-Shipping", lit "#4a86e8");
   (lit "EmailScorer/Likely-Spam", lit "#ffad47");
   (lit "EmailScorer/Needs-Review", lit "#8e63ce");
   (lit "EmailScorer/Training-Data/Correct", lit "#16a766");
   (lit "EmailScorer/Training-Data/Incorrect", lit "#e66550")].

Definition label_body (label_name color : pystr) : CreateRequest :=
  mkCreate label_name (lit "show") (lit "labelShow") (lit "#000000") color.

(** [{label['name']: label['id'] for label in labels}] *)
Definition existing_of (listing : list (pystr * pystr)) : list (pystr * pystr) :=
  fold_left (fun d l => dict_set d (fst l) (snd l)) listing [].

(** The loop of [_setup_labels] over the labels still to visit: a label
    missing from the dict is created; a creation that raises is logged and
    the loop goes on. *)
Fixpoint create_missing (required : list (pystr * pystr))
  (existing_labels : list (pystr * pystr)) (done : list CreateRequest)
  (answers : list CreateRequest -> CreateRequest -> result pystr)
  : list (pystr * pystr) * list CreateRequest :=
  match required with
  | [] => (existing_labels, done)
  | (label_name, color) :: rest =>
      match GmailManager.label_id existing_labels label_name with
      | Some _ => create_missing rest existing_labels done answers
      | None =>
          let request := label_body label_name color in
          match answers done request with
          | inr new_id =>
              create_missing rest (dict_set existing_labels label_name new_id)
                (done ++ [request]) answers
          | inl _ => create_missing rest existing_labels (done ++ [request]) answers
          end
      end
  end.

(** [GmailManager._setup_labels]: the dict stored in [self.labels] and the
    service after the requests; the exception of the list request is not
    caught. *)
Definition _setup_labels (service : LabelService)
  : result (list (pystr * pystr) * LabelService) :=
  bind (listed service) (fun listing =>
    let (labels, done) :=
      create_missing required_labels (existing_of listing) (created service)
        (create_answers service) in
    ret (labels, mkLabelService (listed service) done (create_answers service))).

End GmailSetup.

(** ** The processing state and the main loop *)

Module ProcessingState.
Import EmailDatabase.

(** The text forms of a [datetime]. *)
Class DatetimeText : Type := {
  (** [t.isoformat()] *)
  isoformat : datetime -> pystr;
  (** [datetime.fromisoformat(s)] *)
  fromisoformat : pystr -> result datetime
}.

(** The table [processing_state]: key and value of each row. *)
Definition t : Type := list (option pystr * option pystr).

Definition LAST_PROCESSED : pystr := lit "last_processed".

(** [EmailDatabase.update_last_processed_time]: INSERT OR REPLACE on the
    primary key [key]. *)
Definition update_last_processed_time `{DatetimeText} (table : t) (timestamp : datetime) : t :=
  filter (fun row => negb (text_is LAST_PROCESSED (fst row))) table
  ++ [(Some LAST_PROCESSED, Some (isoformat timestamp))].

(** [EmailDatabase.get_last_processed_time]: the first row of the key, if
    any; a NULL value is not a string [fromisoformat] accepts. *)
Definition get_last_processed_time `{DatetimeText} (table : t) : result (option datetime) :=
  match filter (fun row => text_is LAST_PROCESSED (fst row)) table with
  | [] => ret None
  | (_, Some value) :: _ => bind (fromisoformat value) (fun d => ret (Some d))
  | (_, None) :: _ =>
      raise (TypeError (lit "fromisoformat: argument must be str"))
  end.

End ProcessingState.

Module Orchestrator.
Import EmailDatabase.

(** [EmailScoringSystem] with what its methods read and change: the
    scorer, the mailbox for labels and for reading, the two tables, the
    flag, and the clock, given by the values [datetime.now()] returns on
    its successive calls. *)
Record t : Type := mk {
  scorer : EmailScorer.t;
  gmail : GmailManager.t;
  reader : GmailReader.ReadService;
  db : EmailDatabase.t;
  processing_state : ProcessingState.t;
  skip_processed_emails : bool;
  clock : nat -> datetime;
  ticks : nat
}.

(** The counters of [process_emails]. *)
Record Counts : Type := mkCounts {
  processed_count : Z;
  skipped_count : Z
}.

(** [self.skip_processed_emails and self.db.is_email_processed(id)] *)
Definition already_processed (self : t) (email : Email.t) : outcome bool :=
  if skip_processed_emails self then is_email_processed (db self) (Email.id email)
  else inr false.

(** One turn of the loop of [process_emails]. An exception of the
    processed-check or of the save is logged and the loop goes on; the
    labels of a message whose save raises have been applied by then. *)
Definition process_one `{PyRuntime} `{SqliteEngine} (state : t * Counts) (email : Email.t)
  : t * Counts :=
  let (self, counts) := state in
  match already_processed self email with
  | inl _ => state
  | inr true =>
      (self, mkCounts (processed_count counts) (skipped_count counts + 1))
  | inr false =>
      let score := EmailScorer.score_email (scorer self) (Email.sender email)
                     (Email.subject email) (Email.body email) (Email.date email) in
      let (labels_applied, gmail') :=
        EmailScoringSystem._apply_scoring_labels (gmail self) email score in
      let now := clock self (ticks self) in
      match save_score (db self) email score labels_applied now with
      | inr db' =>
          (mk (scorer self) gmail' (reader self) db' (processing_state self)
             (skip_processed_emails self) (clock self) (S (ticks self)),
           mkCounts (processed_count counts + 1) (skipped_count counts))
      | inl _ =>
          (mk (scorer self) gmail' (reader self) (db self) (processing_state self)
             (skip_processed_emails self) (clock self) (S (ticks self)),
           counts)
      end
  end.

(** The loop of [process_emails] and the update that follows it. *)
Definition process_batch `{PyRuntime} `{SqliteEngine} `{ProcessingState.DatetimeText}
  (self : t) (emails : list Email.t) : t * Counts :=
  match emails with
  | [] => (self, mkCounts 0 0)
  | _ =>
      let (self', counts) := fold_left process_one emails (self, mkCounts 0 0) in
      (mk (scorer self') (gmail self') (reader self') (db self')
         (ProcessingState.update_last_processed_time (processing_state self')
            (clock self' (ticks self')))
         (skip_processed_emails self') (clock self') (S (ticks self')),
       counts)
  end.

(** [EmailScoringSystem.process_emails]: the recent messages are read with
    the default limit of 1000, then processed. *)
Definition process_emails `{PyRuntime} `{SqliteEngine} `{ProcessingState.DatetimeText}
  `{GmailReader.MailRuntime} (self : t) (hours_back : Z) : outcome (t * Counts) :=
  let now := clock self (ticks self) in
  let self := mk (scorer self) (gmail self) (reader self) (db self) (processing_state self)
                (skip_processed_emails self) (clock self) (S (ticks self)) in
  and_then (GmailReader.get_recent_emails (reader self) now hours_back 1000)
    (fun emails => inr (process_batch self emails)).

End Orchestrator.

(** ** A runtime for the examples *)

Module Sample.

(** The JSON object of the scenario in section 8 of the specification. *)
Definition finance_json : pystr :=
  lit "{" ++ dq ++ lit "importance_score" ++ dq ++ lit ": 9, "
  ++ dq ++ lit "spam_score" ++ dq ++ lit ": 1, "
  ++ dq ++ lit "category" ++ dq ++ lit ": " ++ dq ++ lit "finance" ++ dq ++ lit ", "
  ++ dq ++ lit "confidence" ++ dq ++ lit ": 0.92}".

Definition finance_dict : list (pystr * pyval) :=
  [(lit "importance_score", PInt 9); (lit "spam_score", PInt 1);
   (lit "category", PStr (lit "finance")); (lit "confidence", PFloat 0.92)].

(** An object whose importance is the JSON literal [true]. *)
Definition true_json : pystr :=
  lit "{" ++ dq ++ lit "importance_score" ++ dq ++ lit ": true}".

Definition true_dict : list (pystr * pyval) := [(lit "importance_score", PBool true)].

(** An object whose confidence is the JSON literal [null]. *)
Definition null_json : pystr :=
  lit "{" ++ dq ++ lit "confidence" ++ dq ++ lit ": null}".

Definition null_dict : list (pystr * pyval) := [(lit "confidence", PNone)].

Definition JSONDecodeError (msg : pystr) : exc := Raise (lit "JSONDecodeError") msg.

(** [json.loads] on the texts above and on the empty object; any other
    text is taken to be malformed. [float] on a string accepts the text [7]
    only; [sum] adds from the left. *)
#[global] Instance runtime : PyRuntime := {
  json_loads text :=
    if PyStr.eqb text finance_json then ret (PDict finance_dict)
    else if PyStr.eqb text true_json then ret (PDict true_dict)
    else if PyStr.eqb text null_json then ret (PDict null_dict)
    else if PyStr.eqb text (lit "{}") then ret (PDict [])
    else raise (JSONDecodeError (lit "Expecting value: line 1 column 1 (char 0)"));
  float_of_str text :=
    if PyStr.eqb text (lit "7") then ret 7%float
    else raise (ValueError (lit "could not convert string to float"));
  float_sum xs := fold_left PrimFloat.add xs 0%float
}.

(** An engine that averages by adding from the left. *)
#[global] Instance engine : EmailDatabase.SqliteEngine := {
  sqlite_real_text f := lit "0.0";
  sqlite_avg xs :=
    PrimFloat.div (fold_left PrimFloat.add xs 0%float)
      (SF2Prim (binary_normalize prec emax (Z.of_nat (length xs)) 0 false))
}.

(** The completion of the scenario in section 8: reasoning text, a thinking
    block, and the object in a fence tagged as JSON. *)
Definition finance_reply_tail : pystr :=
  lit " " ++ EmailScorer.json_fence ++ nl ++ finance_json ++ nl ++ EmailScorer.fence.

Definition finance_reply : pystr :=
  lit "I think... <think>blah" ++ EmailScorer.think_close ++ finance_reply_tail.

(** A tagged block followed by a second fence. *)
Definition two_fences : pystr :=
  EmailScorer.json_fence ++ lit "{}" ++ EmailScorer.fence ++ lit " " ++ EmailScorer.fence.

(** A scorer whose model answers every request with [content]. *)
Definition scorer_answering (content : pystr) : EmailScorer.t :=
  EmailScorer.mk (lit "http://localhost:1234/v1") (lit "qwen3-32b")
    (fun _ => ret [Some content]).

(** A scorer whose model call raises [e]. *)
Definition scorer_raising (e : exc) : EmailScorer.t :=
  EmailScorer.mk (lit "http://localhost:1234/v1") (lit "qwen3-32b")
    (fun _ => raise e).

(** The label dict after [_setup_labels] found or created every label. *)
Definition label_ids : list (pystr * pystr) :=
  [(EmailScoringSystem.HIGH_IMPORTANCE, lit "Label_1");
   (EmailScoringSystem.MEDIUM_IMPORTANCE, lit "Label_2");
   (EmailScoringSystem.LOW_IMPORTANCE, lit "Label_3");
   (EmailScoringSystem.ORDERS_SHIPPING, lit "Label_4");
   (EmailScoringSystem.LIKELY_SPAM, lit "Label_5");
   (EmailScoringSystem.NEEDS_REVIEW, lit "Label_6")].

(** A mailbox whose service executes every request. *)
Definition mailbox : GmailManager.t :=
  GmailManager.mk label_ids (GmailManager.mkService [] (fun _ _ => true)).

(** A mailbox whose service fails its first request and executes the
    others. *)
Definition flaky_mailbox : GmailManager.t :=
  GmailManager.mk label_ids
    (GmailManager.mkService [] (fun done _ => match done with [] => false | _ => true end)).

(** The score of the labelling scenario in section 8. *)
Definition orders_score : EmailScore :=
  mkEmailScore 6.5 0 (PStr (lit "orders")) (PStr (lit "Order shipped")) 0.8.

(** A spam-like score of low confidence. *)
Definition doubtful_score : EmailScore :=
  mkEmailScore 2 9 (PStr (lit "orders")) (PStr (lit "Looks like spam")) 0.3.

Definition message : Email.t :=
  Email.mk (lit "18c2f0a1") (lit "orders@shop.example") (lit "Your order has shipped")
    (lit "Mon, 1 Jan 2024 12:00:00 +0000") (lit "Your parcel is on its way.")
    [lit "INBOX"] (lit "18c2f0a0") (lit "Your parcel").

(** Noon of 2024-01-01 and of 2024-03-01, in microseconds. *)
Definition noon_jan_1 : EmailDatabase.datetime := (738885 * 86400000000 + 43200000000)%Z.
Definition noon_mar_1 : EmailDatabase.datetime := (738945 * 86400000000 + 43200000000)%Z.

(** A ledger that holds one row for [message], processed on 2024-01-01 and
    since marked by the user. *)
Definition ledger : EmailDatabase.t :=
  EmailDatabase.mk
    [EmailDatabase.mkRow 1 (Some (lit "18c2f0a1")) (Some (lit "orders@shop.example"))
       (Some (lit "Your order has shipped")) (Some noon_jan_1) (Some 6.5%float)
       (Some 0%float) (Some (lit "orders")) (Some (lit "Order shipped")) (Some 0.8%float)
       (Some (lit "v1.0"))
       (Some (lit "EmailScorer/Orders-Shipping,EmailScorer/Medium-Importance"))
       (Some (lit "correct"))]
    1.

End Sample.

(** ** Fixtures for the examples of the reader and of the main loop *)

Module Fixtures.
Import GmailReader.

(** The letters A to Z in lower case; other characters unchanged. *)
Definition ascii_lower (s : pystr) : pystr :=
  List.map (fun c => if ((65 <=? c) && (c <=? 90))%N then (c + 32)%N else c) s.

(** A reader runtime for the examples: the [data] of a part is taken to
    decode to itself, except the text [%%%], which is taken to be malformed;
    lower case is that of ASCII; every date prints as [2024/01/01]. *)
#[global] Instance mail_runtime : MailRuntime := {
  decode_body data :=
    if PyStr.eqb data (lit "%%%")
    then raise (Raise (lit "binascii.Error") (lit "Incorrect padding"))
    else ret data;
  str_lower := ascii_lower;
  strftime_ymd d := lit "2024/01/01"
}.

(** A text form of datetimes for the examples: the number of
    microseconds, in decimal. *)
#[global] Instance datetime_text : ProcessingState.DatetimeText := {
  isoformat d := str_of_int d;
  fromisoformat text := raise (ValueError (lit "Invalid isoformat string"))
}.

(** A multipart message: an HTML part, then a plain-text part. *)
Definition html_then_plain : Part :=
  mkPart (lit "multipart/alternative") None
    (Some [mkPart TEXT_HTML (Some (lit "<p>Hello <b>you</b></p>")) None;
           mkPart TEXT_PLAIN (Some (lit "Hello you")) None]).

(** A multipart message whose text parts are one level down. *)
Definition nested : Part :=
  mkPart (lit "multipart/mixed") None
    (Some [mkPart (lit "multipart/alternative") None
             (Some [mkPart TEXT_PLAIN (Some (lit "Hello you")) None])]).

(** A reply that quotes two earlier messages. *)
Definition reply : pystr :=
  lit "Thanks. On Mon, Alice wrote: see you On Tue, Bob wrote: bye".

(** A label service that lists one of the required labels and refuses to
    create the spam label. *)
Definition label_service : GmailSetup.LabelService :=
  GmailSetup.mkLabelService
    (ret [(lit "INBOX", lit "INBOX"); (lit "EmailScorer/High-Importance", lit "Label_1")])
    []
    (fun done request =>
       if PyStr.eqb (GmailSetup.create_name request) (lit "EmailScorer/Likely-Spam")
       then raise (Raise (lit "HttpError") (lit "Invalid label name"))
       else ret (lit "Label_" ++ str_of_int (Z.of_nat (length done) + 2))).

(** A reading service with two messages, the second of which cannot be
    fetched. *)
Definition read_service : ReadService :=
  mkReadService
    (fun _ _ => ret [lit "18c2f0a1"; lit "18c2f0a2"])
    (fun message_id =>
       if PyStr.eqb message_id (lit "18c2f0a1") then
         ret (mkMessage html_then_plain
                (Some [(lit "From", lit "old@shop.example");
                       (lit "Subject", lit "Your order has shipped");
                       (lit "FROM", lit "orders@shop.example")])
                (Some [lit "INBOX"]) (Some (lit "18c2f0a0")) None)
       else raise (Raise (lit "HttpError") (lit "Not Found"))).

(** A model answer whose category is a JSON array. *)
Definition list_category_score : EmailScore :=
  mkEmailScore 9 0 (PList [PStr (lit "orders")]) (PStr (lit "Two categories")) 0.9.

(** A score whose confidence is not a number, and one whose importance
    lies between the two thresholds. *)
Definition nan_score : EmailScore :=
  mkEmailScore 5 0 (PStr (lit "odd")) (PStr (lit "No confidence")) PrimFloat.nan.

Definition seven_score : EmailScore :=
  mkEmailScore 7.5 0 (PStr (lit "work")) (PStr (lit "From a colleague")) 0.9.

(** A second message. *)
Definition other_message : Email.t :=
  Email.mk (lit "18c2f0a2") (lit "bob@example.com") (lit "Minutes") (lit "Tue, 2 Jan 2024")
    (lit "See attached.") [lit "INBOX"] (lit "18c2f0a2") (lit "See attached").

(** A runtime whose [json.loads] returns, for every text, an object whose
    category is a JSON array. *)
Definition list_runtime : PyRuntime := {|
  json_loads text := ret (PDict [(lit "category", PList [PStr (lit "orders")])]);
  float_of_str text := raise (ValueError (lit "could not convert string to float"));
  float_sum xs := fold_left PrimFloat.add xs 0%float
|}.

(** The system over the sample mailbox and ledger, with the skip flag
    set and a clock that counts days from noon of 2024-03-01. *)
Definition system (scorer : EmailScorer.t) : Orchestrator.t :=
  Orchestrator.mk scorer Sample.mailbox read_service Sample.ledger [] true
    (fun n => (Sample.noon_mar_1 + Z.of_nat n * 86400000000)%Z) 0.

End Fixtures.

(* ================================================================== *)
(** * Part II: properties *)
(* ================================================================== *)

Unset Implicit Arguments.

(** ** Occurrences of a substring *)

Module Occurrence.

(** [sub] occurs in [s] at index [i]. *)
Definition occurs_at (sub s : pystr) (i : nat) : Prop :=
  exists a b, s = a ++ sub ++ b /\ length a = i.

(** [i] is the index of the first occurrence of [sub] in [s]. *)
Definition first_at (sub s : pystr) (i : nat) : Prop :=
  occurs_at sub s i /\ forall j, occurs_at sub s j -> (i <= j)%nat.

(** [i] is the index of the last occurrence of [sub] in [s]. *)
Definition last_at (sub s : pystr) (i : nat) : Prop :=
  occurs_at sub s i /\ forall j, occurs_at sub s j -> (j <= i)%nat.

Lemma eqb_eq (s t : pystr) : PyStr.eqb s t = true <-> s = t.
Proof.
  revert t; induction s as [|c s IH]; intros [|d t]; simpl; split; intro E;
    try reflexivity; try discriminate.
  - apply andb_true_iff in E as [E1 E2]. apply N.eqb_eq in E1. apply IH in E2.
    now subst.
  - injection E as -> ->. rewrite N.eqb_refl. now apply IH.
Qed.

Lemma eqb_refl (s : pystr) : PyStr.eqb s s = true.
Proof. now apply eqb_eq. Qed.

Lemma startswith_iff (sub s : pystr) :
  startswith sub s = true <-> exists r, s = sub ++ r.
Proof.
  revert s; induction sub as [|c sub IH]; intros s; simpl.
  - split; [intros _; now exists s | reflexivity].
  - destruct s as [|d s]; split.
    + discriminate.
    + intros [r E]; discriminate.
    + intro E. apply andb_true_iff in E as [E1 E2]. apply N.eqb_eq in E1.
      apply IH in E2 as [r ->]. subst. now exists r.
    + intros [r E]. injection E as -> ->. rewrite N.eqb_refl. apply IH. now exists r.
Qed.

Lemma startswith_app (sub r : pystr) : startswith sub (sub ++ r) = true.
Proof. apply startswith_iff. now exists r. Qed.

Lemma occurs_at_0 (sub s : pystr) : occurs_at sub s 0 <-> startswith sub s = true.
Proof.
  rewrite startswith_iff. split.
  - intros (a & b & E & L). destruct a; [|discriminate]. now exists b.
  - intros [r E]. now exists [], r.
Qed.

Lemma occurs_at_S (sub : pystr) (c : char) (s : pystr) (j : nat) :
  occurs_at sub (c :: s) (S j) <-> occurs_at sub s j.
Proof.
  split.
  - intros (a & b & E & L). destruct a as [|d a]; [discriminate|].
    injection E as -> E. injection L as L. now exists a, b.
  - intros (a & b & E & L). exists (c :: a), b. simpl. now subst.
Qed.

Lemma occurs_at_nil (sub : pystr) (j : nat) : occurs_at sub [] j -> j = 0%nat /\ sub = [].
Proof.
  intros (a & b & E & L). symmetry in E. apply app_eq_nil in E as [-> E].
  apply app_eq_nil in E as [-> _]. now subst.
Qed.

Lemma index_of_unfold (sub s : pystr) :
  index_of sub s =
  if startswith sub s then Some 0%nat
  else match s with
       | [] => None
       | _ :: s' => option_map S (index_of sub s')
       end.
Proof. now destruct s. Qed.

Lemma index_of_None (sub s : pystr) :
  index_of sub s = None -> forall j, ~ occurs_at sub s j.
Proof.
  induction s as [|c s IH]; rewrite index_of_unfold;
    destruct (startswith sub _) eqn:P; try discriminate; intros E j O.
  - apply occurs_at_nil in O as [-> ->]. discriminate.
  - destruct (index_of sub s); [discriminate|].
    destruct j as [|j].
    + apply occurs_at_0 in O. congruence.
    + apply occurs_at_S in O. now apply (IH eq_refl j).
Qed.

Lemma index_of_Some (sub s : pystr) (i : nat) :
  index_of sub s = Some i -> first_at sub s i.
Proof.
  revert i; induction s as [|c s IH]; intros i; rewrite index_of_unfold;
    destruct (startswith sub _) eqn:P; try discriminate; intros E.
  - injection E as <-. split; [now apply occurs_at_0 | intros; lia].
  - injection E as <-. split; [now apply occurs_at_0 | intros; lia].
  - destruct (index_of sub s) as [i'|]; [|discriminate]. injection E as <-.
    destruct (IH i' eq_refl) as [O M]. split.
    + now apply occurs_at_S.
    + intros [|j] Oj.
      * apply occurs_at_0 in Oj. congruence.
      * apply occurs_at_S in Oj. apply M in Oj. lia.
Qed.

(** [index_of] computes the first occurrence. *)
Lemma index_of_first (sub s : pystr) (i : nat) :
  index_of sub s = Some i <-> first_at sub s i.
Proof.
  split; [apply index_of_Some|].
  intros [O M]. destruct (index_of sub s) as [i0|] eqn:E.
  - apply index_of_Some in E as [O0 M0]. f_equal.
    apply M in O0. apply M0 in O. lia.
  - now apply index_of_None with (j := i) in E.
Qed.

Lemma rindex_of_None (sub s : pystr) :
  rindex_of sub s = None -> forall j, ~ occurs_at sub s j.
Proof.
  induction s as [|c s IH]; simpl.
  - destruct sub; [discriminate|]. intros _ j O.
    apply occurs_at_nil in O as [_ ?]. discriminate.
  - destruct (rindex_of sub s); [discriminate|].
    destruct (startswith sub (c :: s)) eqn:P; [discriminate|].
    intros _ [|j] O.
    + apply occurs_at_0 in O. congruence.
    + apply occurs_at_S in O. now apply (IH eq_refl j).
Qed.

Lemma rindex_of_Some (sub s : pystr) (i : nat) :
  rindex_of sub s = Some i -> last_at sub s i.
Proof.
  revert i; induction s as [|c s IH]; intros i; simpl.
  - destruct sub; [|discriminate]. intros E. injection E as <-. split.
    + now exists [], [].
    + intros j O. apply occurs_at_nil in O as [-> _]. lia.
  - destruct (rindex_of sub s) as [j|] eqn:R.
    + intros E. injection E as <-. destruct (IH j eq_refl) as [O M]. split.
      * now apply occurs_at_S.
      * intros [|k] Ok; [lia|]. apply occurs_at_S in Ok. apply M in Ok. lia.
    + destruct (startswith sub (c :: s)) eqn:P; [|discriminate].
      intros E. injection E as <-. split.
      * now apply occurs_at_0.
      * intros [|k] Ok; [lia|]. apply occurs_at_S in Ok.
        now apply (rindex_of_None _ _ R) in Ok.
Qed.

(** [rindex_of] computes the last occurrence. *)
Lemma rindex_of_last (sub s : pystr) (i : nat) :
  rindex_of sub s = Some i <-> last_at sub s i.
Proof.
  split; [apply rindex_of_Some|].
  intros [O M]. destruct (rindex_of sub s) as [i0|] eqn:E.
  - apply rindex_of_Some in E as [O0 M0]. f_equal.
    apply M in O0. apply M0 in O. lia.
  - now apply rindex_of_None with (j := i) in E.
Qed.

Lemma contains_iff (sub s : pystr) :
  contains sub s = true <-> exists a b, s = a ++ sub ++ b.
Proof.
  unfold contains. destruct (index_of sub s) as [i|] eqn:E; split; try easy.
  - intros _. apply index_of_Some in E as [(a & b & E & _) _]. now exists a, b.
  - intros (a & b & Es). exfalso. apply (index_of_None _ _ E (length a)).
    now exists a, b.
Qed.

End Occurrence.

(** ** Stripping *)

Module Strip.
Import Occurrence.

(** A string that neither starts nor ends with whitespace. *)
Definition solid (sub : pystr) : Prop :=
  exists c1 r1 r2 c2, sub = c1 :: r1 /\ sub = r2 ++ [c2]
    /\ isspace c1 = false /\ isspace c2 = false.

Lemma lstrip_app_nonspace (a b : pystr) (c : char) :
  isspace c = false -> lstrip (a ++ c :: b) = lstrip a ++ c :: b.
Proof.
  intros Hc. induction a as [|d a IH]; simpl.
  - now rewrite Hc.
  - destruct (isspace d); [exact IH | reflexivity].
Qed.

Lemma rstrip_cons_nonspace (c : char) (y : pystr) :
  isspace c = false -> rstrip (c :: y) = c :: rstrip y.
Proof. intros Hc. simpl. rewrite Hc. now destruct (rstrip y). Qed.

Lemma rstrip_app_nonspace (a y : pystr) (c : char) :
  isspace c = false -> rstrip (a ++ c :: y) = a ++ c :: rstrip y.
Proof.
  intros Hc. induction a as [|d a IH].
  - now apply rstrip_cons_nonspace.
  - cbn [app rstrip]. rewrite IH. now destruct a.
Qed.

Lemma rstrip_cons (c : char) (s : pystr) :
  rstrip (c :: s) = match rstrip s with
                    | [] => if isspace c then [] else [c]
                    | r => c :: r
                    end.
Proof. reflexivity. Qed.

Lemma rstrip_idem (s : pystr) : rstrip (rstrip s) = rstrip s.
Proof.
  induction s as [|c s IH]; [reflexivity|].
  rewrite rstrip_cons. destruct (rstrip s) as [|d r] eqn:E.
  - destruct (isspace c) eqn:Hc; [reflexivity|]. simpl. now rewrite Hc.
  - rewrite rstrip_cons, IH. reflexivity.
Qed.

Lemma lstrip_suffix (s : pystr) : exists ws, s = ws ++ lstrip s.
Proof.
  induction s as [|c s [ws IH]]; simpl.
  - now exists [].
  - destruct (isspace c).
    + exists (c :: ws). simpl. now f_equal.
    + now exists [].
Qed.

Lemma strip_rstrip (s : pystr) : strip (rstrip s) = strip s.
Proof. unfold strip. now rewrite rstrip_idem. Qed.

(** Stripping reaches no further than a solid substring. *)
Lemma strip_around (sub a b : pystr) :
  solid sub -> strip (a ++ sub ++ b) = lstrip a ++ sub ++ rstrip b.
Proof.
  intros (c1 & r1 & r2 & c2 & E1 & E2 & H1 & H2). unfold strip.
  assert (R : rstrip (a ++ sub ++ b) = a ++ sub ++ rstrip b).
  { rewrite E2, <- !app_assoc. cbn [app]. rewrite app_assoc.
    rewrite rstrip_app_nonspace by assumption. now rewrite <- app_assoc. }
  rewrite R, E1. cbn [app]. now apply lstrip_app_nonspace.
Qed.

Lemma contains_strip (sub s : pystr) :
  solid sub -> contains sub s = true -> contains sub (strip s) = true.
Proof.
  intros S C. apply contains_iff in C as (a & b & ->).
  rewrite (strip_around _ a b S). apply contains_iff. now eexists _, _.
Qed.

(** The first occurrence of [sub] does not depend on what follows it. *)
Lemma first_at_change_suffix (sub p x y : pystr) :
  first_at sub (p ++ sub ++ x) (length p) -> first_at sub (p ++ sub ++ y) (length p).
Proof.
  intros [_ M]. split; [now exists p, y|].
  intros j (a & b & E & L).
  destruct (Nat.le_gt_cases (length p) j) as [|Lt]; [assumption|].
  exfalso. rewrite !app_assoc in E. apply app_eq_app in E as [l [[E1 E2]|[E1 E2]]].
  - assert (length (p ++ sub) = length ((a ++ sub) ++ l)) as Len by now rewrite E1.
    rewrite !length_app in Len.
    assert (O : occurs_at sub (p ++ sub ++ x) j).
    { exists a, (l ++ x). split; [|assumption].
      rewrite app_assoc, E1, <- !app_assoc. reflexivity. }
    apply M in O. lia.
  - assert (length (a ++ sub) = length ((p ++ sub) ++ l)) as Len by now rewrite E1.
    rewrite !length_app in Len. lia.
Qed.

(** Nor on a prefix that is dropped. *)
Lemma first_at_drop_prefix (sub w p x : pystr) :
  first_at sub ((w ++ p) ++ sub ++ x) (length (w ++ p)) ->
  first_at sub (p ++ sub ++ x) (length p).
Proof.
  intros [_ M]. split; [now exists p, x|].
  intros j (a & b & E & L).
  assert (O : occurs_at sub ((w ++ p) ++ sub ++ x) (length w + j)).
  { exists (w ++ a), b. rewrite length_app, <- !app_assoc, L. split; [|reflexivity].
    f_equal. exact E. }
  apply M in O. rewrite length_app in O. lia.
Qed.

Lemma first_at_strip (sub pre rest : pystr) :
  first_at sub (pre ++ sub ++ rest) (length pre) ->
  first_at sub (lstrip pre ++ sub ++ rstrip rest) (length (lstrip pre)).
Proof.
  intros F. apply first_at_change_suffix with (x := rest).
  destruct (lstrip_suffix pre) as [ws E].
  apply first_at_drop_prefix with (w := ws). now rewrite <- E.
Qed.

Lemma slice_from_app (a b : pystr) :
  slice_from (a ++ b) (Z.of_nat (length a)) = b.
Proof.
  unfold slice_from, clamp. rewrite length_app.
  destruct (Z.ltb_spec (Z.of_nat (length a)) 0); [lia|].
  rewrite Z.min_l by lia. rewrite Nat2Z.id.
  rewrite skipn_app, skipn_all, Nat.sub_diag. reflexivity.
Qed.

Lemma slice_app (a m b : pystr) :
  slice (a ++ m ++ b) (Z.of_nat (length a)) (Z.of_nat (length a + length m)) = m.
Proof.
  unfold slice, clamp. rewrite !length_app.
  destruct (Z.ltb_spec (Z.of_nat (length a)) 0); [lia|].
  destruct (Z.ltb_spec (Z.of_nat (length a + length m)) 0); [lia|].
  rewrite !Z.min_l by lia. rewrite Nat2Z.id.
  replace (Z.to_nat (Z.of_nat (length a + length m) - Z.of_nat (length a)))
    with (length m) by lia.
  rewrite skipn_app, skipn_all, Nat.sub_diag. cbn [skipn app].
  rewrite firstn_app, firstn_all, Nat.sub_diag. cbn [firstn]. now rewrite app_nil_r.
Qed.

End Strip.

(** ** The interpreter *)

Module Interpreter.
Import Occurrence Strip EmailScorer.

Lemma think_open_solid : solid think_open.
Proof. exists 60%N, (lit "think>"), (lit "<think"), 62%N. now vm_compute. Qed.

Lemma think_close_solid : solid think_close.
Proof. exists 60%N, (lit "/think>"), (lit "</think"), 62%N. now vm_compute. Qed.

(** On a text with both markers, the removal of the thinking tags leaves
    the stripped text that follows the first closing marker. *)
Lemma remove_thinking_remainder (pre rest : pystr) :
  first_at think_close (pre ++ think_close ++ rest) (length pre) ->
  contains think_open (pre ++ think_close ++ rest) = true ->
  strip (pre ++ think_close ++ rest) = lstrip pre ++ think_close ++ rstrip rest /\
  remove_thinking (strip (pre ++ think_close ++ rest)) = strip rest.
Proof.
  intros F C. pose proof (strip_around _ pre rest think_close_solid) as E.
  split; [exact E|].
  apply (contains_strip _ _ think_open_solid) in C. rewrite E in *.
  unfold remove_thinking. rewrite C.
  assert (C' : contains think_close (lstrip pre ++ think_close ++ rstrip rest) = true).
  { apply contains_iff. now eexists _, _. }
  rewrite C'. cbn [andb].
  apply first_at_strip, index_of_first in F. unfold find. rewrite F. cbn [index_result].
  replace (Z.of_nat (length (lstrip pre)) + 8)%Z
    with (Z.of_nat (length (lstrip pre ++ think_close)))
    by (rewrite length_app; change (length think_close) with 8%nat; lia).
  rewrite app_assoc, slice_from_app. apply strip_rstrip.
Qed.

Lemma interpret_remainder `{PyRuntime} (pre rest : pystr) :
  first_at think_close (pre ++ think_close ++ rest) (length pre) ->
  contains think_open (pre ++ think_close ++ rest) = true ->
  interpret (pre ++ think_close ++ rest) = extract_and_build (strip rest).
Proof.
  intros F C. destruct (remove_thinking_remainder _ _ F C) as [E R].
  unfold interpret. rewrite R. rewrite E.
  destruct (lstrip pre ++ think_close ++ rstrip rest) eqn:N; [|reflexivity].
  apply app_eq_nil in N as [_ N]. discriminate.
Qed.

(** C5. For a raw completion [pre ++ "</think>" ++ rest] that contains the
    opening marker and whose first closing marker is the one shown, the
    interpreter continues with [rest] alone: the text handed to the later
    steps is [rest] stripped, and two completions that differ only before
    the first closing marker are interpreted alike. *)
Theorem thinking_prefix_is_discarded `{PyRuntime} (pre1 pre2 rest : pystr) :
  first_at think_close (pre1 ++ think_close ++ rest) (length pre1) ->
  first_at think_close (pre2 ++ think_close ++ rest) (length pre2) ->
  contains think_open (pre1 ++ think_close ++ rest) = true ->
  contains think_open (pre2 ++ think_close ++ rest) = true ->
  remove_thinking (strip (pre1 ++ think_close ++ rest)) = strip rest /\
  interpret (pre1 ++ think_close ++ rest) = extract_and_build (strip rest) /\
  interpret (pre1 ++ think_close ++ rest) = interpret (pre2 ++ think_close ++ rest).
Proof.
  intros F1 F2 C1 C2. split; [|split].
  - now apply remove_thinking_remainder.
  - now apply interpret_remainder.
  - now rewrite !interpret_remainder.
Qed.

Lemma thinking_prefix_is_discarded_witness :
  interpret Sample.finance_reply
  = extract_and_build (strip Sample.finance_reply_tail) /\
  interpret Sample.finance_reply
  = interpret (lit "<think>" ++ think_close ++ Sample.finance_reply_tail).
Proof.
  apply (thinking_prefix_is_discarded (lit "I think... <think>blah") (lit "<think>")
           Sample.finance_reply_tail).
  - apply index_of_first. vm_compute. reflexivity.
  - apply index_of_first. vm_compute. reflexivity.
  - vm_compute. reflexivity.
  - vm_compute. reflexivity.
Defined.

End Interpreter.

(** ** Code fences *)

Module Fences.
Import Occurrence Strip EmailScorer.

Lemma find_first (t sub : pystr) (i : nat) :
  first_at sub t i -> find t sub = Z.of_nat i /\ contains sub t = true.
Proof.
  intros F. apply index_of_first in F. unfold find, contains. now rewrite F.
Qed.

Lemma rfind_last (t sub : pystr) (e : nat) :
  last_at sub t e -> rfind t sub = Z.of_nat e.
Proof. intros L. apply rindex_of_last in L. unfold rfind. now rewrite L. Qed.

(** Both branches of [remove_code_blocks] cut at the last fence. *)
Lemma cut_at_last_fence (tag a body b : pystr) :
  body <> [] ->
  let t := a ++ tag ++ body ++ fence ++ b in
  let start := (Z.of_nat (length a) + Z.of_nat (length tag))%Z in
  let end_ := Z.of_nat (length a + length tag + length body) in
  (if (end_ >? start)%Z then strip (slice t start end_) else t) = strip body.
Proof.
  intros N t start end_. subst t start end_.
  destruct body as [|c body]; [contradiction|].
  destruct (Z.gtb_spec (Z.of_nat (length a + length tag + length (c :: body)))
              (Z.of_nat (length a) + Z.of_nat (length tag))) as [_|Le];
    [|cbn [length] in Le; lia].
  f_equal. rewrite (app_assoc a tag), <- Nat2Z.inj_add, <- length_app.
  replace (length a + length tag + length (c :: body))%nat
    with (length (a ++ tag) + length (c :: body))%nat
    by (rewrite length_app; reflexivity).
  apply slice_app.
Qed.

(** The claim as the specification words it: the content of a block tagged
    as JSON ends at the next fence. *)
Definition ends_at_next_fence : Prop :=
  forall a body b : pystr,
    first_at json_fence (a ++ json_fence ++ body ++ fence ++ b) (length a) ->
    first_at fence (body ++ fence ++ b) (length body) ->
    remove_code_blocks (a ++ json_fence ++ body ++ fence ++ b) = strip body.




(** Where no fence starts after the first character that follows the
    opening fence, and where the text has no fence, the text is kept
    whole. *)
Lemma code_fence_unclosed (t : pystr) :
  (forall i e, first_at json_fence t i -> last_at fence t e ->
               (e <= i + 7)%nat -> remove_code_blocks t = t)
  /\ (forall i e, contains json_fence t = false -> first_at fence t i ->
                  last_at fence t e -> (e <= i + 3)%nat -> remove_code_blocks t = t)
  /\ (contains fence t = false -> contains json_fence t = false ->
      remove_code_blocks t = t).
Proof.
  unfold remove_code_blocks. repeat split.
  - intros i e F L Le. apply find_first in F as [F C]. apply rfind_last in L.
    rewrite C, F, L. destruct (Z.gtb_spec (Z.of_nat e) (Z.of_nat i + 7)); [lia|reflexivity].
  - intros i e NoTag F L Le. apply find_first in F as [F C]. apply rfind_last in L.
    rewrite NoTag, C, F, L.
    destruct (Z.gtb_spec (Z.of_nat e) (Z.of_nat i + 3)); [lia|reflexivity].
  - intros C1 C2. now rewrite C2, C1.
Qed.

End Fences.

(** ** The scoring operation *)

Module Scoring.
Import Occurrence EmailScorer.

Local Open Scope py_scope.

(** What the [try] block does with a response. *)
Definition interpret_response `{PyRuntime} (response : Response) : result EmailScore :=
  content <- first_content response ;;
  interpret content.

(** C1. [score_email] is a total function into [EmailScore]: whatever the
    completion call does, it returns a score. When the call raises [e], and
    when the call returns and the interpretation of its response raises
    [e], the score is exactly (5.0, 0.0, "unknown", 0.1) and its reasoning is
    "Error during scoring: " followed by [str(e)]; otherwise it is the score
    interpreted from the response. *)
Theorem score_email_never_raises `{PyRuntime} (self : EmailScorer.t)
  (sender subject body email_date : pystr) :
  let call := client_create self (request self (prompt sender subject body email_date)) in
  let score := score_email self sender subject body email_date in
  let fallback (e : exc) :=
    mkEmailScore 5.0 0.0 (PStr (lit "unknown"))
      (PStr (lit "Error during scoring: " ++ exc_str e)) 0.1 in
  (exists e, call = inl e /\ score = fallback e)
  \/ (exists response e,
        call = inr response /\ interpret_response response = inl e /\ score = fallback e)
  \/ (exists response s,
        call = inr response /\ interpret_response response = inr s /\ score = s).
Proof.
  cbv zeta. unfold score_email, score_email_try.
  destruct (client_create self _) as [e|response]; cbn [bind].
  - left. now exists e.
  - right. fold (interpret_response response).
    destruct (interpret_response response) as [e|s] eqn:E.
    + left. now exists response, e.
    + right. now exists response, s.
Qed.

(** The causes of a failed interpretation. *)
Lemma interpretation_failures `{PyRuntime} :
  interpret_response [] = inl (IndexError (lit "list index out of range"))
  /\ (forall rest, interpret_response (None :: rest)
                   = inl (AttributeError (lit "'NoneType' object has no attribute 'strip'")))
  /\ (forall content rest, strip content = [] ->
        interpret_response (Some content :: rest)
        = inl (ValueError (lit "Empty response from model")))
  /\ (forall json_text, JsonPattern.findall (remove_code_blocks json_text) = [] ->
        extract_and_build json_text = inl (ValueError (lit "No JSON found in model response")))
  /\ (forall json_text m ms e,
        JsonPattern.findall (remove_code_blocks json_text) = m :: ms ->
        json_loads (strip m) = inl e -> extract_and_build json_text = inl e).
Proof.
  repeat split; try reflexivity.
  - intros content rest E. unfold interpret_response.
    change (first_content (Some content :: rest)) with (ret (A := pystr) content).
    unfold ret, bind, interpret. now rewrite E.
  - intros json_text E. unfold extract_and_build, find_json. now rewrite E.
  - intros json_text m ms e E L. unfold extract_and_build, find_json. rewrite E.
    cbn [bind ret]. now rewrite L.
Qed.

(** The response was read, a JSON object was found in it, and [json.loads]
    returned [parsed]. *)
Definition parsed_as `{PyRuntime} (self : EmailScorer.t)
  (sender subject body email_date : pystr) (parsed : pyval) : Prop :=
  exists response content json_text,
    client_create self (request self (prompt sender subject body email_date)) = inr response
    /\ first_content response = inr content
    /\ strip content <> []
    /\ find_json (remove_code_blocks (remove_thinking (strip content))) = inr json_text
    /\ json_loads json_text = inr parsed.

Lemma score_email_try_parsed `{PyRuntime} (self : EmailScorer.t)
  (sender subject body email_date : pystr) (parsed : pyval) :
  parsed_as self sender subject body email_date parsed ->
  score_email_try self sender subject body email_date = build_score parsed.
Proof.
  intros (response & content & json_text & E1 & E2 & N & E3 & E4).
  unfold score_email_try. rewrite E1. cbn [bind]. rewrite E2. cbn [bind].
  unfold interpret. destruct (strip content) eqn:S; [contradiction|].
  unfold extract_and_build. rewrite E3. cbn [bind]. now rewrite E4.
Qed.

Definition IMPORTANCE : pystr := lit "importance_score".
Definition SPAM : pystr := lit "spam_score".
Definition CATEGORY : pystr := lit "category".
Definition REASONING : pystr := lit "reasoning".
Definition CONFIDENCE : pystr := lit "confidence".

(** [build_score] on a dict: the three coercions in order, then the score. *)
Lemma build_score_dict `{PyRuntime} (d : list (pystr * pyval)) :
  build_score (PDict d) =
  (imp <- py_float (dict_get d IMPORTANCE (PInt 5)) ;;
   spam <- py_float (dict_get d SPAM (PInt 0)) ;;
   conf <- py_float (dict_get d CONFIDENCE (PFloat 0.5)) ;;
   ret (mkEmailScore imp spam (dict_get d CATEGORY (PStr (lit "unknown")))
          (dict_get d REASONING (PStr (lit "No reasoning provided"))) conf)).
Proof.
  unfold build_score, py_get. cbn [bind ret].
  destruct (py_float (dict_get d _ (PInt 5))); cbn [bind]; [reflexivity|].
  destruct (py_float (dict_get d _ (PInt 0))); cbn [bind]; reflexivity.
Qed.

Lemma dict_get_absent (d : list (pystr * pyval)) (key : pystr) (default : pyval) :
  dict_has d key = false -> dict_get d key default = default.
Proof.
  induction d as [|[k v] d IH]; simpl; [reflexivity|].
  destruct (PyStr.eqb k key); [discriminate|exact IH].
Qed.

Lemma dict_get_present (d : list (pystr * pyval)) (key : pystr) (d1 d2 : pyval) :
  dict_has d key = true -> dict_get d key d1 = dict_get d key d2.
Proof.
  induction d as [|[k v] d IH]; simpl; [discriminate|].
  destruct (PyStr.eqb k key); [reflexivity|exact IH].
Qed.

(** A JSON number. *)
Definition numeric (v : pyval) : bool :=
  match v with
  | PInt _ | PFloat _ => true
  | _ => false
  end.

(** The claim as the specification words it: a value that is present under
    one of the three numeric keys and is not a number makes the whole
    response fail. *)
Definition non_numeric_fails : Prop :=
  forall (R : PyRuntime) (d : list (pystr * pyval)) (key : pystr),
    In key [IMPORTANCE; SPAM; CONFIDENCE] ->
    dict_has d key = true ->
    numeric (dict_get d key PNone) = false ->
    exists e, build_score (PDict d) = inl e.


Lemma failing_value_is_present `{PyRuntime} (d : list (pystr * pyval)) (key : pystr)
  (default : pyval) (f : float) (e : exc) :
  py_float default = inr f ->
  py_float (dict_get d key default) = inl e ->
  dict_has d key = true /\ py_float (dict_get d key PNone) = inl e.
Proof.
  intros D E. destruct (dict_has d key) eqn:P.
  - split; [reflexivity|]. now rewrite (dict_get_present d key PNone default P).
  - rewrite (dict_get_absent d key default P) in E. congruence.
Qed.

Lemma default_coercions `{PyRuntime} :
  py_float (PInt 5) = inr 5%float /\ py_float (PInt 0) = inr 0%float
  /\ py_float (PFloat 0.5) = inr 0.5%float.
Proof. repeat split; vm_compute; reflexivity. Qed.



(** The scenarios of section 8: the fenced object after a thinking block,
    the empty completion, and a completion call that raises. *)
Example scenario_finance :
  score_email (Sample.scorer_answering Sample.finance_reply)
    (Email.sender Sample.message) (Email.subject Sample.message)
    (Email.body Sample.message) (Email.date Sample.message)
  = mkEmailScore 9 1 (PStr (lit "finance")) (PStr (lit "No reasoning provided")) 0.92.
Proof. vm_compute. reflexivity. Qed.

Example scenario_empty :
  score_email (Sample.scorer_answering (lit "  ")) [] [] [] []
  = mkEmailScore 5 0 (PStr (lit "unknown"))
      (PStr (lit "Error during scoring: Empty response from model")) 0.1.
Proof. vm_compute. reflexivity. Qed.

Example scenario_timeout :
  score_email (Sample.scorer_raising (Raise (lit "APITimeoutError") (lit "Request timed out.")))
    [] [] [] []
  = mkEmailScore 5 0 (PStr (lit "unknown"))
      (PStr (lit "Error during scoring: Request timed out.")) 0.1.
Proof. vm_compute. reflexivity. Qed.

End Scoring.

(** ** Label decision and application *)

Module Labels.
Import GmailManager EmailScoringSystem.

(** The importance tier of a score: thresholds by descending order, first
    match wins. *)
Definition importance_tier (score : EmailScore) : pystr :=
  if ge (importance_score score) 8 then HIGH_IMPORTANCE
  else if ge (importance_score score) 5 then MEDIUM_IMPORTANCE
  else LOW_IMPORTANCE.

(** The decision of section 4.3 of the specification, as a list: the
    orders label, one importance tier, the spam label, the review label. *)
Definition decide (score : EmailScore) : list pystr :=
  (if py_eq_str (category score) (lit "orders") then [ORDERS_SHIPPING] else [])
  ++ [importance_tier score]
  ++ (if ge (spam_score score) 7 then [LIKELY_SPAM] else [])
  ++ (if lt (confidence score) 0.6 then [NEEDS_REVIEW] else []).

(** Attempting every label of a list in order, whatever the earlier
    outcomes: each label with the result of its [apply_label] call, made on
    the mailbox as the earlier calls left it. *)
Fixpoint attempt_all (gmail : GmailManager.t) (email : Email.t) (labels : list pystr)
  : list (pystr * bool) * GmailManager.t :=
  match labels with
  | [] => ([], gmail)
  | l :: rest =>
      let (ok, gmail1) := apply_label gmail (Email.id email) l in
      let (outcomes, gmail2) := attempt_all gmail1 email rest in
      ((l, ok) :: outcomes, gmail2)
  end.

(** The labels whose attempt succeeded. *)
Definition succeeded (outcomes : list (pystr * bool)) : list pystr :=
  List.map fst (filter snd outcomes).

(** The request [apply_label] sends for a label the manager knows; none for
    a label it does not know. *)
Definition request_for (gmail : GmailManager.t) (email : Email.t) (l : pystr)
  : list ModifyRequest :=
  match label_id (labels gmail) l with
  | Some lid => [mkModify (Email.id email) [lid]]
  | None => []
  end.

Lemma py_eq_str_iff (v : pyval) (s : pystr) : py_eq_str v s = true <-> v = PStr s.
Proof.
  destruct v; simpl; split; try discriminate.
  - intros E. apply Occurrence.eqb_eq in E. now subst.
  - intros E. injection E as ->. apply Occurrence.eqb_refl.
Qed.

Lemma attempt_all_labels (gmail : GmailManager.t) (email : Email.t) (ls : list pystr) :
  List.map fst (fst (attempt_all gmail email ls)) = ls.
Proof.
  revert gmail; induction ls as [|l ls IH]; intros gmail; cbn [attempt_all]; [reflexivity|].
  destruct (apply_label gmail (Email.id email) l) as [ok g1].
  specialize (IH g1). destruct (attempt_all g1 email ls) as [outs g2].
  cbn [fst map] in *. now rewrite IH.
Qed.

Lemma apply_label_effect (gmail : GmailManager.t) (email_id l : pystr) :
  labels (snd (apply_label gmail email_id l)) = labels gmail
  /\ answers (service (snd (apply_label gmail email_id l))) = answers (service gmail)
  /\ executed (service (snd (apply_label gmail email_id l)))
     = executed (service gmail)
       ++ match label_id (labels gmail) l with
          | Some lid => [mkModify email_id [lid]]
          | None => []
          end.
Proof.
  unfold apply_label, execute. destruct (label_id (labels gmail) l); cbn.
  - now repeat split.
  - now rewrite app_nil_r.
Qed.

(** Every label of the list that the manager knows is requested, in
    order, whatever the outcomes. *)
Lemma attempt_all_requests (gmail : GmailManager.t) (email : Email.t) (ls : list pystr) :
  labels (snd (attempt_all gmail email ls)) = labels gmail
  /\ answers (service (snd (attempt_all gmail email ls))) = answers (service gmail)
  /\ executed (service (snd (attempt_all gmail email ls)))
     = executed (service gmail) ++ flat_map (request_for gmail email) ls.
Proof.
  revert gmail; induction ls as [|l ls IH]; intros gmail; cbn [attempt_all flat_map].
  - now rewrite app_nil_r.
  - destruct (apply_label_effect gmail (Email.id email) l) as (L & A & X).
    destruct (apply_label gmail (Email.id email) l) as [ok g1]. cbn [snd] in *.
    destruct (IH g1) as (L' & A' & X'). destruct (attempt_all g1 email ls) as [outs g2].
    cbn [snd] in *. split; [congruence|]. split; [congruence|].
    rewrite X', X, <- app_assoc. f_equal. f_equal.
    apply flat_map_ext. intros l'. unfold request_for. now rewrite L.
Qed.

(** When the manager knows every label of the list and the service
    executes every request, every attempt succeeds. *)
Lemma attempt_all_succeed (gmail : GmailManager.t) (email : Email.t) (ls : list pystr) :
  (forall l, In l ls -> label_id (labels gmail) l <> None) ->
  (forall done r, answers (service gmail) done r = true) ->
  succeeded (fst (attempt_all gmail email ls)) = ls.
Proof.
  revert gmail; induction ls as [|l ls IH]; intros gmail K A; cbn [attempt_all];
    [reflexivity|].
  destruct (apply_label_effect gmail (Email.id email) l) as (L1 & A1 & _).
  assert (Ok : fst (apply_label gmail (Email.id email) l) = true).
  { unfold apply_label, execute. destruct (label_id (labels gmail) l) eqn:E.
    - cbn. apply A.
    - exfalso. apply (K l); [now left|assumption]. }
  destruct (apply_label gmail (Email.id email) l) as [ok g1]. cbn [fst snd] in *. subst ok.
  specialize (IH g1). destruct (attempt_all g1 email ls) as [outs g2].
  unfold succeeded in *. cbn [fst filter snd map] in *. f_equal. apply IH.
  - intros l' I. rewrite L1. apply K. now right.
  - intros done r. rewrite A1. apply A.
Qed.

(** The code attempts the decided labels one after the other. *)
Lemma apply_scoring_labels_attempts (gmail : GmailManager.t) (email : Email.t)
  (score : EmailScore) :
  _apply_scoring_labels gmail email score
  = (succeeded (fst (attempt_all gmail email (decide score))),
     snd (attempt_all gmail email (decide score))).
Proof.
  unfold _apply_scoring_labels, decide, importance_tier, apply_and_record, succeeded.
  destruct (py_eq_str (category score) (lit "orders"));
    destruct (ge (importance_score score) 8);
    destruct (ge (importance_score score) 5);
    destruct (ge (spam_score score) 7);
    destruct (lt (confidence score) 0.6);
    cbn [app attempt_all];
    repeat match goal with
      | |- context [apply_label ?g ?i ?l] =>
          destruct (apply_label g i l) as [[|] ?]
      end;
    reflexivity.
Qed.

Definition ALL_LABELS : list pystr :=
  [ORDERS_SHIPPING; HIGH_IMPORTANCE; MEDIUM_IMPORTANCE; LOW_IMPORTANCE; LIKELY_SPAM;
   NEEDS_REVIEW].

Lemma decide_in_all_labels (score : EmailScore) (l : pystr) :
  In l (decide score) -> In l ALL_LABELS.
Proof.
  unfold decide, importance_tier, ALL_LABELS.
  destruct (py_eq_str _ _), (ge (importance_score score) 8),
    (ge (importance_score score) 5), (ge (spam_score score) 7),
    (lt (confidence score) 0.6); cbn [app In]; intuition.
Qed.



(** C7. Whatever the manager knows and whatever the service answers, every
    decided label is attempted, in the order of the decision, on the
    mailbox as the earlier attempts left it; the list returned holds the
    decided labels whose attempt reported success, in that order; and the
    service receives a request for every decided label the manager knows,
    whether or not earlier requests failed. *)
Theorem failed_label_does_not_block (gmail : GmailManager.t) (email : Email.t)
  (score : EmailScore) :
  let outcomes := fst (attempt_all gmail email (decide score)) in
  let result := _apply_scoring_labels gmail email score in
  List.map fst outcomes = decide score
  /\ fst result = List.map fst (filter snd outcomes)
  /\ snd result = snd (attempt_all gmail email (decide score))
  /\ executed (service (snd result))
     = executed (service gmail) ++ flat_map (request_for gmail email) (decide score).
Proof.
  cbv zeta. rewrite apply_scoring_labels_attempts. cbn [fst snd]. repeat split.
  - apply attempt_all_labels.
  - apply attempt_all_requests.
Qed.

(** A first request that fails: the orders label is not recorded, the
    three labels after it are, and four requests were made. *)
Example first_request_fails :
  Labels.decide Sample.doubtful_score
  = [ORDERS_SHIPPING; LOW_IMPORTANCE; LIKELY_SPAM; NEEDS_REVIEW]
  /\ fst (_apply_scoring_labels Sample.flaky_mailbox Sample.message Sample.doubtful_score)
     = [LOW_IMPORTANCE; LIKELY_SPAM; NEEDS_REVIEW]
  /\ length (executed (service (snd (_apply_scoring_labels Sample.flaky_mailbox
                                        Sample.message Sample.doubtful_score)))) = 4%nat.
Proof. repeat split; vm_compute; reflexivity. Qed.

End Labels.

(** ** The prompt *)

Module Prompt.
Import EmailScorer.

Lemma firstn_min_length {A : Type} (n : nat) (l : list A) :
  firstn (Nat.min n (length l)) l = firstn n l.
Proof.
  destruct (Nat.le_ge_cases n (length l)).
  - now rewrite Nat.min_l.
  - rewrite Nat.min_r by assumption. now rewrite firstn_all, firstn_all2.
Qed.

(** The preview is the hard cut of the body at 1500 characters. *)
Lemma body_preview_cut (body : pystr) : body_preview body = firstn 1500 body.
Proof.
  destruct body as [|c body]; [reflexivity|].
  unfold body_preview, slice_to, clamp.
  change (1500 <? 0)%Z with false. cbv iota.
  replace (Z.to_nat (Z.min 1500 (Z.of_nat (length (c :: body)))))
    with (Nat.min 1500 (length (c :: body))) by lia.
  apply firstn_min_length.
Qed.

(** The prompt embeds the sender, the subject and the preview; a body of
    more than 1500 characters contributes exactly its first 1500. *)
Lemma prompt_embeds (sender subject body email_date : pystr) :
  prompt sender subject body email_date
  = prompt_head ++ sender ++ nl ++ lit "SUBJECT: " ++ subject ++ nl
    ++ lit "CONTENT: " ++ firstn 1500 body ++ prompt_rules
  /\ ((1500 < length body)%nat -> length (firstn 1500 body) = 1500%nat).
Proof.
  split.
  - unfold prompt. now rewrite body_preview_cut.
  - intros L. apply firstn_length_le. lia.
Qed.

(** C6, the part the code misses. [score_email] receives the date of the
    message and embeds it nowhere: the prompt, the request and the score
    are the same for every date, and the prompt built for the sample
    message does not contain its date. *)
Theorem prompt_omits_date :
  (forall sender subject body d1 d2 : pystr,
     prompt sender subject body d1 = prompt sender subject body d2)
  /\ (forall (R : PyRuntime) (self : EmailScorer.t) (sender subject body d1 d2 : pystr),
        score_email self sender subject body d1 = score_email self sender subject body d2)
  /\ Email.date Sample.message = lit "Mon, 1 Jan 2024 12:00:00 +0000"
  /\ contains (Email.date Sample.message)
       (prompt (Email.sender Sample.message) (Email.subject Sample.message)
          (Email.body Sample.message) (Email.date Sample.message)) = false.
Proof.
  repeat split; vm_compute; reflexivity.
Qed.

End Prompt.

(** ** The ledger *)

Module Ledger.
Import EmailDatabase.

(** The rows of the ledger for one message identifier. *)
Definition entries_for (email_id : pystr) (db : EmailDatabase.t) : list Row :=
  filter (fun r => text_is email_id (col_email_id r)) (email_scores db).

(** The rows of the ledger for every other identifier. *)
Definition other_entries (email_id : pystr) (db : EmailDatabase.t) : list Row :=
  filter (fun r => negb (text_is email_id (col_email_id r))) (email_scores db).

Lemma bind_text_inv (param : nat) (s : pystr) (v : option pystr) :
  bind_text param s = inr v -> v = Some s /\ existsb is_surrogate s = false.
Proof.
  unfold bind_text. destruct (existsb is_surrogate s); [discriminate|].
  intros E. injection E as <-. now split.
Qed.

(** What a save that returns has done: the new row holds the bound values,
    the next row id and no feedback; it replaces the rows of its
    identifier and comes after the rows of the others. *)
Lemma save_score_inv `{SqliteEngine} (db db' : EmailDatabase.t) (email : Email.t)
  (score : EmailScore) (labels_applied : list pystr) (now : datetime) :
  save_score db email score labels_applied now = inr db' ->
  exists p7 p8,
    bind_to_text 7 (category score) = inr p7
    /\ bind_to_text 8 (reasoning score) = inr p8
    /\ existsb is_surrogate (Email.id email) = false
    /\ db' = EmailDatabase.mk
               (other_entries (Email.id email) db
                ++ [mkRow (largest_rowid db + 1) (Some (Email.id email))
                      (Some (Email.sender email)) (Some (Email.subject email)) (Some now)
                      (bind_real (importance_score score)) (bind_real (spam_score score))
                      p7 p8 (bind_real (confidence score)) (Some (lit "v1.0"))
                      (Some (join (lit ",") labels_applied)) None])
               (largest_rowid db + 1).
Proof.
  unfold save_score, and_then.
  destruct (bind_text 1 _) as [|p1] eqn:E1; [discriminate|].
  destruct (bind_text 2 _) as [|p2] eqn:E2; [discriminate|].
  destruct (bind_text 3 _) as [|p3] eqn:E3; [discriminate|].
  destruct (bind_to_text 7 _) as [|p7] eqn:E7; [discriminate|].
  destruct (bind_to_text 8 _) as [|p8] eqn:E8; [discriminate|].
  destruct (bind_text 10 _) as [|p10] eqn:E10; [discriminate|].
  destruct (bind_text 11 _) as [|p11] eqn:E11; [discriminate|].
  destruct (largest_rowid db + 1 >? INT64_MAX)%Z; [discriminate|].
  apply bind_text_inv in E1 as [-> S1], E2 as [-> _], E3 as [-> _], E10 as [-> _],
    E11 as [-> _].
  intros E. injection E as <-. exists p7, p8. now repeat split.
Qed.

Lemma text_is_refl (k : pystr) : text_is k (Some k) = true.
Proof. apply Occurrence.eqb_refl. Qed.

Lemma filter_negb_filter {A : Type} (p : A -> bool) (l : list A) :
  filter p (filter (fun x => negb (p x)) l) = [].
Proof.
  induction l as [|a l IH]; [reflexivity|]. cbn [filter].
  destruct (p a) eqn:P; cbn [negb filter]; [exact IH|]. now rewrite P.
Qed.

Lemma filter_idem {A : Type} (p : A -> bool) (l : list A) :
  filter p (filter p l) = filter p l.
Proof.
  induction l as [|a l IH]; [reflexivity|]. cbn [filter].
  destruct (p a) eqn:P; cbn [filter]; [rewrite P; now f_equal|exact IH].
Qed.

(** After a save the ledger holds exactly one row for the identifier, the
    new one. *)
Lemma entries_after_save `{SqliteEngine} (db db' : EmailDatabase.t) (email : Email.t)
  (score : EmailScore) (labels_applied : list pystr) (now : datetime) :
  save_score db email score labels_applied now = inr db' ->
  exists p7 p8,
    bind_to_text 7 (category score) = inr p7
    /\ bind_to_text 8 (reasoning score) = inr p8
    /\ entries_for (Email.id email) db'
       = [mkRow (largest_rowid db + 1) (Some (Email.id email))
            (Some (Email.sender email)) (Some (Email.subject email)) (Some now)
            (bind_real (importance_score score)) (bind_real (spam_score score))
            p7 p8 (bind_real (confidence score)) (Some (lit "v1.0"))
            (Some (join (lit ",") labels_applied)) None]
    /\ other_entries (Email.id email) db' = other_entries (Email.id email) db
    /\ is_email_processed db' (Email.id email) = inr true.
Proof.
  intros S. apply save_score_inv in S as (p7 & p8 & E7 & E8 & NS & ->).
  exists p7, p8. repeat split; try assumption.
  - unfold entries_for, other_entries. cbn [email_scores]. rewrite filter_app.
    rewrite (filter_negb_filter (fun r => text_is (Email.id email) (col_email_id r))).
    cbn [filter col_email_id app]. now rewrite text_is_refl.
  - unfold other_entries. cbn [email_scores]. rewrite filter_app, filter_idem.
    cbn [filter col_email_id]. rewrite text_is_refl. cbn [negb]. apply app_nil_r.
  - unfold is_email_processed, bind_text, and_then. rewrite NS. f_equal.
    cbn [email_scores]. rewrite existsb_app. cbn [existsb col_email_id].
    rewrite text_is_refl. now rewrite orb_true_r.
Qed.

(** C8. Two saves for the same message identifier leave exactly one row for
    it, and the row holds the values of the second save: its sender and
    subject, its scores, its labels and its timestamp. After each save the
    processed-check of the identifier returns true. *)
Theorem save_score_replaces `{SqliteEngine} (db db1 db2 : EmailDatabase.t)
  (email1 email2 : Email.t) (score1 score2 : EmailScore)
  (labels1 labels2 : list pystr) (now1 now2 : datetime) :
  Email.id email1 = Email.id email2 ->
  save_score db email1 score1 labels1 now1 = inr db1 ->
  save_score db1 email2 score2 labels2 now2 = inr db2 ->
  (exists row,
     entries_for (Email.id email2) db2 = [row]
     /\ col_email_id row = Some (Email.id email2)
     /\ col_sender row = Some (Email.sender email2)
     /\ col_subject row = Some (Email.subject email2)
     /\ col_date_processed row = Some now2
     /\ col_importance_score row = bind_real (importance_score score2)
     /\ col_spam_score row = bind_real (spam_score score2)
     /\ bind_to_text 7 (category score2) = inr (col_category row)
     /\ bind_to_text 8 (reasoning score2) = inr (col_reasoning row)
     /\ col_confidence row = bind_real (confidence score2)
     /\ col_labels_applied row = Some (join (lit ",") labels2))
  /\ is_email_processed db1 (Email.id email1) = inr true
  /\ is_email_processed db2 (Email.id email2) = inr true.
Proof.
  intros Same S1 S2.
  apply entries_after_save in S1 as (_ & _ & _ & _ & _ & P1).
  apply entries_after_save in S2 as (p7 & p8 & E7 & E8 & R & _ & P2).
  split; [|now split].
  eexists. split; [exact R|]. cbn. now repeat split.
Qed.

Lemma save_score_replaces_witness :
  exists db1 db2,
    save_score Sample.ledger Sample.message Sample.orders_score
      [EmailScoringSystem.ORDERS_SHIPPING] Sample.noon_jan_1 = inr db1
    /\ save_score db1 Sample.message Sample.doubtful_score
         [EmailScoringSystem.LOW_IMPORTANCE; EmailScoringSystem.LIKELY_SPAM]
         Sample.noon_mar_1 = inr db2
    /\ length (entries_for (Email.id Sample.message) db2) = 1%nat
    /\ is_email_processed db2 (Email.id Sample.message) = inr true.
Proof.
  destruct (save_score Sample.ledger Sample.message Sample.orders_score
              [EmailScoringSystem.ORDERS_SHIPPING] Sample.noon_jan_1) as [f|db1] eqn:S1;
    [vm_compute in S1; discriminate|].
  destruct (save_score db1 Sample.message Sample.doubtful_score
              [EmailScoringSystem.LOW_IMPORTANCE; EmailScoringSystem.LIKELY_SPAM]
              Sample.noon_mar_1) as [f|db2] eqn:S2.
  - exfalso. vm_compute in S1. injection S1 as <-. vm_compute in S2. discriminate.
  - exists db1, db2.
    destruct (save_score_replaces Sample.ledger db1 db2 Sample.message Sample.message
                Sample.orders_score Sample.doubtful_score
                [EmailScoringSystem.ORDERS_SHIPPING]
                [EmailScoringSystem.LOW_IMPORTANCE; EmailScoringSystem.LIKELY_SPAM]
                Sample.noon_jan_1 Sample.noon_mar_1 eq_refl S1 S2)
      as ((row & R & _) & _ & P).
    split; [reflexivity|]. split; [exact S2|]. split; [now rewrite R | exact P].
Defined.

Lemma col_id_le_largest (db : EmailDatabase.t) (r : Row) :
  In r (email_scores db) -> (col_id r <= largest_rowid db)%Z.
Proof.
  unfold largest_rowid. generalize (sequence db).
  induction (email_scores db) as [|a l IH]; intros z I; [destruct I|].
  cbn [map fold_right]. destruct I as [->|I]; [lia|]. specialize (IH z I). lia.
Qed.



Lemma filter_none {A : Type} (p : A -> bool) (l : list A) :
  (forall a, In a l -> p a = false) -> filter p l = [].
Proof.
  induction l as [|a l IH]; intros N; [reflexivity|]. cbn [filter].
  rewrite (N a) by now left. apply IH. intros b I. apply N. now right.
Qed.

(** C9. When the start of the window is a date the interpreter can
    represent and no row of the ledger was processed at or after it, the
    statistics are returned, not raised: total 0, average confidence 0, no
    message of high importance, no spam, and an empty mapping of
    categories. *)
Theorem stats_of_empty_window `{PyRuntime} `{SqliteEngine} (db : EmailDatabase.t)
  (now : datetime) (days_back : Z) :
  (Z.abs days_back <= 999999999)%Z ->
  (0 <= now - days_back * 86400000000 < DATETIME_END)%Z ->
  (forall r d, In r (email_scores db) -> col_date_processed r = Some d ->
               (d < now - days_back * 86400000000)%Z) ->
  get_performance_stats db now days_back = inr (mkStats 0 (PInt 0) 0 0 []).
Proof.
  intros D W Old. unfold get_performance_stats, timedelta_days, datetime_sub, and_then.
  destruct (Z.leb_spec (Z.abs days_back) 999999999); [|lia].
  destruct (Z.leb_spec 0 (now - days_back * 86400000000)); [|lia].
  destruct (Z.ltb_spec (now - days_back * 86400000000) DATETIME_END); [|lia].
  cbn [andb]. unfold stats_query. rewrite filter_none; [reflexivity|].
  intros r I. destruct (col_date_processed r) as [d|] eqn:E; [|reflexivity].
  specialize (Old r d I E). apply Z.leb_gt. exact Old.
Qed.

Lemma stats_of_empty_window_witness :
  get_performance_stats Sample.ledger Sample.noon_mar_1 7
  = inr (mkStats 0 (PInt 0) 0 0 []).
Proof.
  apply stats_of_empty_window.
  - vm_compute. discriminate.
  - split; vm_compute; [discriminate|reflexivity].
  - intros r d [<-|[]] E. vm_compute in E. injection E as <-. vm_compute. reflexivity.
Defined.

(** With the row inside the window the statistics count it. *)
Example stats_of_one_row :
  get_performance_stats Sample.ledger Sample.noon_jan_1 7
  = inr (mkStats 1 (PFloat 0.8) 0 0 [(Some (lit "orders"), 1%Z)]).
Proof. vm_compute. reflexivity. Qed.

End Ledger.

(** ** Removing tags *)

Module Html.
Import GmailReader.

(** The text [m] closes a tag on its line: it has a closing bracket with no
    line feed before it. *)
Lemma tag_end_None (b : pystr) :
  tag_end b = None -> forall m r, b = m ++ GT :: r -> In NEWLINE m.
Proof.
  intros E m; revert b E; induction m as [|c m IH]; intros b E r ->.
  - discriminate.
  - cbn [app tag_end] in E. destruct (N.eqb c GT); [discriminate|].
    destruct (N.eqb_spec c NEWLINE) as [->|N]; [now left|].
    right. destruct (tag_end (m ++ GT :: r)) eqn:T; [discriminate|].
    now apply (IH _ T r).
Qed.

Lemma tag_end_Some (b : pystr) (n : nat) :
  tag_end b = Some n ->
  exists m r, b = m ++ GT :: r /\ ~ In NEWLINE m /\ ~ In GT m /\ n = S (length m).
Proof.
  revert n; induction b as [|c b IH]; intros n E; [discriminate|].
  cbn [tag_end] in E. destruct (N.eqb_spec c GT) as [->|G].
  - injection E as <-. exists [], b. now repeat split.
  - destruct (N.eqb_spec c NEWLINE) as [|N]; [discriminate|].
    destruct (tag_end b) as [k|]; [|discriminate]. injection E as <-.
    destruct (IH k eq_refl) as (m & r & -> & Nn & Ng & ->).
    exists (c :: m), r. repeat split; try reflexivity; intros [?|?]; congruence || auto.
Qed.

(** A line on which no tag can close stays such a line. *)
Lemma strip_tags_keeps_open (s : pystr) :
  tag_end s = None -> tag_end (strip_tags 0 s) = None.
Proof.
  induction s as [|c s IH]; intros E; [reflexivity|].
  cbn [tag_end] in E. destruct (N.eqb c GT) eqn:G; [discriminate|].
  destruct (N.eqb c NEWLINE) eqn:N.
  - cbn [strip_tags]. destruct (N.eqb c LT) eqn:L.
    + apply N.eqb_eq in L, N. subst. discriminate.
    + cbn [tag_end]. now rewrite G, N.
  - destruct (tag_end s) eqn:T; [discriminate|]. specialize (IH eq_refl).
    cbn [strip_tags]. rewrite T. destruct (N.eqb c LT); cbn [tag_end]; now rewrite G, N, IH.
Qed.

(** After the removal, no opening bracket is closed on its line. *)
Lemma strip_tags_clean (s : pystr) :
  forall k a b, strip_tags k s = a ++ LT :: b -> tag_end b = None.
Proof.
  induction s as [|c s IH]; intros k a b E.
  - destruct a; discriminate.
  - cbn [strip_tags] in E. destruct k as [|k]; [|now apply (IH k a b)].
    destruct (N.eqb_spec c LT) as [->|L].
    + destruct (tag_end s) as [n|] eqn:T; [now apply (IH n a b)|].
      destruct a as [|d a]; cbn [app] in E.
      * injection E as E2. subst b. now apply strip_tags_keeps_open.
      * injection E as _ E2. now apply (IH 0%nat a b).
    + destruct a as [|d a]; cbn [app] in E; injection E as E1 E2; [congruence|].
      now apply (IH 0%nat a b).
Qed.

(** A text in which no opening bracket is closed on its line is kept as it
    is. *)
Lemma strip_tags_fixed (s : pystr) :
  (forall a b, s = a ++ LT :: b -> tag_end b = None) -> strip_tags 0 s = s.
Proof.
  induction s as [|c s IH]; intros C; [reflexivity|].
  assert (IH' : strip_tags 0 s = s).
  { apply IH. intros a b ->. now apply (C (c :: a) b). }
  cbn [strip_tags]. destruct (N.eqb_spec c LT) as [->|L]; [|now rewrite IH'].
  rewrite (C [] s eq_refl). now rewrite IH'.
Qed.

(** [_strip_html] leaves no tag behind: in its result every opening
    bracket is followed by a line feed before any closing bracket, or by no
    closing bracket at all. Hence a second pass changes nothing, and a text
    that has no opening bracket is returned as it is. *)
Theorem strip_html_leaves_no_tag (html_text : pystr) :
  (forall a m r, _strip_html html_text = a ++ LT :: m ++ GT :: r -> In NEWLINE m)
  /\ _strip_html (_strip_html html_text) = _strip_html html_text
  /\ (~ In LT html_text -> _strip_html html_text = html_text).
Proof.
  unfold _strip_html. repeat split.
  - intros a m r E. apply strip_tags_clean in E. now apply (tag_end_None _ E m r).
  - apply strip_tags_fixed. intros a b E. now apply strip_tags_clean in E.
  - intros N. apply strip_tags_fixed. intros a b ->. exfalso. apply N.
    apply in_or_app. right. now left.
Qed.

(** A tag that spans a line feed is not removed, and a tag nested in
    another opening bracket is removed with it. *)
Example strip_html_examples :
  _strip_html (lit "<p>Hello <b>you</b></p>") = lit "Hello you"
  /\ _strip_html (lit "a <b" ++ nl ++ lit "c> d") = lit "a <b" ++ nl ++ lit "c> d"
  /\ _strip_html (lit "1 < 2 and <<i>x</i>") = lit "1 x".
Proof. repeat split; vm_compute; reflexivity. Qed.

End Html.

(** ** Cleaning the body text *)

Module CleanText.
Import Occurrence GmailReader.

Lemma collapse_chars (in_run : bool) (s : pystr) (c : char) :
  In c (collapse in_run s) -> (c = SPACE \/ (In c s /\ isspace c = false)).
Proof.
  revert in_run; induction s as [|d s IH]; intros in_run I; [destruct I|].
  cbn [collapse] in I. destruct (isspace d) eqn:W.
  - destruct in_run.
    + destruct (IH _ I) as [?|[? ?]]; [now left|right; split; [now right|assumption]].
    + destruct I as [<-|I]; [now left|].
      destruct (IH _ I) as [?|[? ?]]; [now left|right; split; [now right|assumption]].
  - destruct I as [<-|I]; [right; split; [now left|assumption]|].
    destruct (IH _ I) as [?|[? ?]]; [now left|right; split; [now right|assumption]].
Qed.

Lemma collapse_no_newline (in_run : bool) (s : pystr) : ~ In NEWLINE (collapse in_run s).
Proof.
  intros I. apply collapse_chars in I as [E|[_ E]]; discriminate.
Qed.

Lemma remove_on_wrote_incl (s : pystr) :
  forall k c, In c (remove_on_wrote k s) -> In c s.
Proof.
  induction s as [|d s IH]; intros k c I; [destruct I|].
  cbn [remove_on_wrote] in I. destruct k as [|k]; [|right; now apply (IH k)].
  destruct (startswith ON (d :: s)).
  - destruct (rindex_of WROTE _); [right; now apply (IH _ c I)|].
    destruct I as [<-|I]; [now left|right; now apply (IH _ c I)].
  - destruct I as [<-|I]; [now left|right; now apply (IH _ c I)].
Qed.

Lemma line_of_no_newline (s : pystr) : ~ In NEWLINE s -> line_of s = s.
Proof.
  induction s as [|c s IH]; intros N; [reflexivity|]. cbn [line_of].
  destruct (N.eqb_spec c NEWLINE) as [->|_]; [exfalso; apply N; now left|].
  f_equal. apply IH. intros I. apply N. now right.
Qed.

Lemma skipn_incl (n : nat) (s : pystr) (c : char) : In c (skipn n s) -> In c s.
Proof.
  intros I. rewrite <- (firstn_skipn n s). apply in_or_app. now right.
Qed.

(** On a text without line feed the substitution of the [From: ] lines
    finds nothing to remove. *)
Lemma remove_from_lines_no_newline (s : pystr) :
  ~ In NEWLINE s -> remove_from_lines 0 s = s.
Proof.
  induction s as [|c s IH]; intros N; [reflexivity|].
  assert (IH' : remove_from_lines 0 s = s) by (apply IH; intros I; apply N; now right).
  cbn [remove_from_lines]. destruct (startswith FROM (c :: s)); [|now rewrite IH'].
  rewrite line_of_no_newline by (intros I; apply N; now apply skipn_incl in I).
  rewrite Nat.ltb_irrefl. now rewrite IH'.
Qed.

Lemma lstrip_head (s : pystr) (c : char) (a : pystr) :
  lstrip s = c :: a -> isspace c = false.
Proof.
  induction s as [|d s IH]; [discriminate|]. cbn [lstrip].
  destruct (isspace d) eqn:W; [exact IH|]. intros E. injection E as <- _. exact W.
Qed.

Lemma rstrip_last (s : pystr) :
  forall a c, rstrip s = a ++ [c] -> isspace c = false.
Proof.
  induction s as [|d s IH]; intros a c E; [destruct a; discriminate|].
  rewrite Strip.rstrip_cons in E. destruct (rstrip s) as [|e r] eqn:R.
  - destruct (isspace d) eqn:W; [destruct a; discriminate|].
    destruct a as [|x a]; [injection E as <-; exact W|].
    injection E as _ E. destruct a; discriminate.
  - destruct a as [|x a]; [discriminate|]. injection E as _ E. now apply (IH a c).
Qed.

Lemma lstrip_incl (s : pystr) (c : char) : In c (lstrip s) -> In c s.
Proof.
  destruct (Strip.lstrip_suffix s) as [ws E]. intros I. rewrite E.
  apply in_or_app. now right.
Qed.

Lemma rstrip_incl (s : pystr) (c : char) : In c (rstrip s) -> In c s.
Proof.
  induction s as [|d s IH]; intros I; [destruct I|].
  rewrite Strip.rstrip_cons in I. destruct (rstrip s) as [|e r].
  - destruct (isspace d); [destruct I|]. destruct I as [<-|[]]. now left.
  - destruct I as [<-|I]; [now left|right; now apply IH].
Qed.

Lemma strip_incl (s : pystr) (c : char) : In c (strip s) -> In c s.
Proof. intros I. now apply rstrip_incl, lstrip_incl. Qed.

(** A stripped text neither starts nor ends with whitespace. *)
Lemma strip_ends (s : pystr) :
  (forall c a, strip s = c :: a -> isspace c = false)
  /\ (forall a c, strip s = a ++ [c] -> isspace c = false).
Proof.
  unfold strip. split.
  - intros c a. apply lstrip_head.
  - intros a c E. destruct (Strip.lstrip_suffix (rstrip s)) as [ws W].
    rewrite E, app_assoc in W. now apply rstrip_last in W.
Qed.

(** After the first two substitutions no line feed is left for the third
    to find. *)
Lemma from_lines_kept (text : pystr) :
  remove_from_lines 0 (remove_on_wrote 0 (collapse false text))
  = remove_on_wrote 0 (collapse false text).
Proof.
  apply remove_from_lines_no_newline. intros I. apply remove_on_wrote_incl in I.
  now apply collapse_no_newline in I.
Qed.

(** The third substitution of [_clean_text] never removes anything: the
    first has replaced every line feed, so no [From: ] line is left that
    ends with one. The result is the text with its whitespace runs
    collapsed and its quoted-reply header removed, stripped. *)
Theorem clean_text_keeps_from_lines (text : pystr) :
  remove_from_lines 0 (remove_on_wrote 0 (collapse false text))
  = remove_on_wrote 0 (collapse false text)
  /\ _clean_text text = strip (remove_on_wrote 0 (collapse false text)).
Proof.
  split; [apply from_lines_kept|]. unfold _clean_text. now rewrite from_lines_kept.
Qed.

(** On its own the substitution does remove a [From: ] line; after the
    whitespace has been collapsed the line is kept. *)
Example from_line_example :
  remove_from_lines 0 (lit "From: alice@example.com" ++ nl ++ lit "Hello") = lit "Hello"
  /\ _clean_text (lit "From: alice@example.com" ++ nl ++ lit "Hello")
     = lit "From: alice@example.com Hello".
Proof. split; vm_compute; reflexivity. Qed.

(** The cleaned text has no whitespace but single space characters
    (U+0020), no line feed or tab in particular, and it neither starts nor
    ends with a space. *)
Theorem clean_text_whitespace (text : pystr) :
  (forall c, In c (_clean_text text) -> isspace c = true -> c = SPACE)
  /\ (forall c a, _clean_text text = c :: a -> isspace c = false)
  /\ (forall a c, _clean_text text = a ++ [c] -> isspace c = false).
Proof.
  unfold _clean_text. rewrite from_lines_kept.
  split; [|apply strip_ends].
  intros c I W. apply strip_incl, remove_on_wrote_incl, collapse_chars in I.
  destruct I as [?|[_ N]]; [assumption|congruence].
Qed.

Lemma occurs_at_line_of (sub s : pystr) (j : nat) :
  occurs_at sub (line_of s) j -> occurs_at sub s j.
Proof.
  assert (P : exists r, s = line_of s ++ r).
  { induction s as [|c s [r IH]]; [now exists []|]. cbn [line_of].
    destruct (N.eqb c NEWLINE); [now exists (c :: s)|].
    exists r. cbn [app]. now f_equal. }
  destruct P as [r P]. intros (a & b & E & L). exists a, (b ++ r). split; [|exact L].
  rewrite P at 1. rewrite E, <- !app_assoc. reflexivity.
Qed.

Lemma occurs_at_skipn (sub s : pystr) (n j : nat) :
  occurs_at sub (skipn n s) j -> exists j', occurs_at sub s j'.
Proof.
  intros (a & b & E & L). exists (length (firstn n s ++ a)), (firstn n s ++ a), b.
  split; [|reflexivity]. rewrite <- (firstn_skipn n s) at 1. rewrite E, <- app_assoc.
  reflexivity.
Qed.

(** A text in which [ wrote:] does not occur is kept as it is. *)
Lemma remove_on_wrote_no_wrote (s : pystr) :
  (forall j, ~ occurs_at WROTE s j) -> remove_on_wrote 0 s = s.
Proof.
  induction s as [|c s IH]; intros N; [reflexivity|].
  assert (IH' : remove_on_wrote 0 s = s).
  { apply IH. intros j O. apply (N (S j)). now apply occurs_at_S. }
  cbn [remove_on_wrote]. destruct (startswith ON (c :: s)); [|now rewrite IH'].
  destruct (rindex_of WROTE (line_of (skipn 3 (c :: s)))) as [j|] eqn:R;
    [|now rewrite IH'].
  exfalso. apply rindex_of_Some in R as [O _].
  apply occurs_at_line_of, occurs_at_skipn in O as [j' O]. now apply (N j').
Qed.

Lemma remove_on_wrote_skip (x y : pystr) :
  remove_on_wrote (length x) (x ++ y) = remove_on_wrote 0 y.
Proof.
  induction x as [|c x IH]; [reflexivity|]. cbn [length app remove_on_wrote].
  destruct (x ++ y) eqn:E; exact IH || (rewrite <- E; exact IH).
Qed.

(** Before the first [On ] nothing is removed. *)
Lemma remove_on_wrote_prefix (a rest : pystr) :
  (forall j, (j < length a)%nat -> ~ occurs_at ON (a ++ rest) j) ->
  remove_on_wrote 0 (a ++ rest) = a ++ remove_on_wrote 0 rest.
Proof.
  induction a as [|c a IH]; intros N; [reflexivity|].
  cbn [app remove_on_wrote].
  destruct (startswith ON (c :: a ++ rest)) eqn:P.
  - exfalso. apply (N 0%nat); [cbn; lia|]. now apply occurs_at_0.
  - f_equal. apply IH. intros j L O. apply (N (S j)); [cbn; lia|].
    now apply occurs_at_S.
Qed.

(** The removal of the quoted-reply header is greedy: in a text whose
    whitespace is already collapsed, everything from the first [On ] to the
    last [ wrote:] is removed, whatever lies between them, and the rest is
    kept. *)
Theorem clean_text_removes_to_last_wrote (a m b : pystr) :
  collapse false (a ++ ON ++ m ++ WROTE ++ b) = a ++ ON ++ m ++ WROTE ++ b ->
  first_at ON (a ++ ON ++ m ++ WROTE ++ b) (length a) ->
  last_at WROTE (m ++ WROTE ++ b) (length m) ->
  _clean_text (a ++ ON ++ m ++ WROTE ++ b) = strip (a ++ b).
Proof.
  intros C [_ F] [_ L].
  assert (NL : ~ In NEWLINE (a ++ ON ++ m ++ WROTE ++ b))
    by (rewrite <- C; apply collapse_no_newline).
  unfold _clean_text. rewrite from_lines_kept, C. f_equal.
  rewrite remove_on_wrote_prefix
    by (intros j Lt O; apply F in O; lia).
  f_equal.
  assert (NLm : ~ In NEWLINE (m ++ WROTE ++ b)).
  { intros I. apply NL. apply in_or_app. right. apply in_or_app. now right. }
  change (ON ++ m ++ WROTE ++ b) with (79%N :: [110%N; 32%N] ++ m ++ WROTE ++ b).
  cbn [remove_on_wrote].
  change (startswith ON (79%N :: [110%N; 32%N] ++ m ++ WROTE ++ b))
    with (startswith [] (m ++ WROTE ++ b)).
  cbn [startswith].
  change (skipn 3 (79%N :: [110%N; 32%N] ++ m ++ WROTE ++ b)) with (m ++ WROTE ++ b).
  rewrite (line_of_no_newline _ NLm).
  assert (R : rindex_of WROTE (m ++ WROTE ++ b) = Some (length m)).
  { apply rindex_of_last. split; [now exists m, b|exact L]. }
  rewrite R.
  replace (2 + length m + 7)%nat with (length ([110%N; 32%N] ++ m ++ WROTE))
    by (rewrite !length_app; cbn; lia).
  replace ([110%N; 32%N] ++ m ++ WROTE ++ b) with (([110%N; 32%N] ++ m ++ WROTE) ++ b)
    by (now rewrite <- !app_assoc).
  rewrite remove_on_wrote_skip. apply remove_on_wrote_no_wrote.
  intros j (x & y & Eb & Lx).
  assert (O : occurs_at WROTE (m ++ WROTE ++ b) (length (m ++ WROTE ++ x))).
  { exists (m ++ WROTE ++ x), y. split; [|reflexivity]. rewrite Eb, <- !app_assoc.
    reflexivity. }
  apply L in O. rewrite !length_app in O. cbn in O. lia.
Qed.

Lemma clean_text_removes_to_last_wrote_witness :
  _clean_text Fixtures.reply = strip (lit "Thanks. " ++ lit " bye").
Proof.
  apply (clean_text_removes_to_last_wrote (lit "Thanks. ")
           (lit "Mon, Alice wrote: see you On Tue, Bob") (lit " bye")).
  - vm_compute. reflexivity.
  - apply index_of_first. vm_compute. reflexivity.
  - apply rindex_of_last. vm_compute. reflexivity.
Defined.

End CleanText.

(** ** Reading a message *)

Module Reading.
Import Occurrence GmailReader.

Local Open Scope py_scope.

Lemma scan_parts_reaches_plain `{MailRuntime} (before after : list Part) (p : Part) :
  mimeType p = TEXT_PLAIN -> body_data p <> [] ->
  (forall q, In q before -> mimeType q = TEXT_PLAIN -> body_data q = []) ->
  (forall q, In q before -> mimeType q = TEXT_HTML -> body_data q <> [] ->
             exists html, decode_body (body_data q) = inr html) ->
  forall body, scan_parts (before ++ p :: after) body = decode_body (body_data p).
Proof.
  intros Mp Dp. induction before as [|q before IH]; intros NoPlain Html body.
  - cbn [app scan_parts]. rewrite Mp, eqb_refl. destruct (body_data p); [contradiction|].
    reflexivity.
  - assert (IH' : forall body, scan_parts (before ++ p :: after) body
                               = decode_body (body_data p)).
    { apply IH; intros q' I; [apply NoPlain|apply Html]; now right. }
    cbn [app scan_parts]. destruct (PyStr.eqb (mimeType q) TEXT_PLAIN) eqn:E1.
    + apply eqb_eq in E1. rewrite (NoPlain q (or_introl eq_refl) E1). apply IH'.
    + destruct (PyStr.eqb (mimeType q) TEXT_HTML) eqn:E2; [|apply IH'].
      apply eqb_eq in E2. destruct (body_data q) as [|c d] eqn:D; [apply IH'|].
      destruct body; [|apply IH'].
      destruct (Html q (or_introl eq_refl) E2) as [html Dec]; [now rewrite D|].
      rewrite D in Dec. rewrite Dec. cbn [bind]. apply IH'.
Qed.

(** In a multipart message the first plain-text part that has data gives
    the body, whatever HTML parts come before or after it, as long as the
    HTML parts before it can be decoded. *)
Theorem extract_body_prefers_plain `{MailRuntime} (mime : pystr) (data : option pystr)
  (before after : list Part) (p : Part) :
  mimeType p = TEXT_PLAIN -> body_data p <> [] ->
  (forall q, In q before -> mimeType q = TEXT_PLAIN -> body_data q = []) ->
  (forall q, In q before -> mimeType q = TEXT_HTML -> body_data q <> [] ->
             exists html, decode_body (body_data q) = inr html) ->
  _extract_body (mkPart mime data (Some (before ++ p :: after)))
  = decode_body (body_data p).
Proof.
  intros Mp Dp NoPlain Html. unfold _extract_body. cbn [parts].
  now apply scan_parts_reaches_plain.
Qed.

Lemma extract_body_prefers_plain_witness :
  _extract_body Fixtures.html_then_plain = ret (lit "Hello you").
Proof.
  change (_extract_body
            (mkPart (lit "multipart/alternative") None
               (Some ([mkPart TEXT_HTML (Some (lit "<p>Hello <b>you</b></p>")) None]
                      ++ mkPart TEXT_PLAIN (Some (lit "Hello you")) None :: [])))
          = decode_body (body_data (mkPart TEXT_PLAIN (Some (lit "Hello you")) None))).
  apply (extract_body_prefers_plain (lit "multipart/alternative") None
           [mkPart TEXT_HTML (Some (lit "<p>Hello <b>you</b></p>")) None] []
           (mkPart TEXT_PLAIN (Some (lit "Hello you")) None)).
  - reflexivity.
  - discriminate.
  - intros q [<-|[]] E. vm_compute in E. discriminate.
  - intros q [<-|[]] _ _. eexists. vm_compute. reflexivity.
Defined.

Lemma scan_parts_no_text `{MailRuntime} (ps : list Part) (body : pystr) :
  (forall q, In q ps -> mimeType q <> TEXT_PLAIN /\ mimeType q <> TEXT_HTML) ->
  scan_parts ps body = ret body.
Proof.
  induction ps as [|q ps IH]; intros N; [reflexivity|]. cbn [scan_parts].
  destruct (N q (or_introl eq_refl)) as [N1 N2].
  destruct (PyStr.eqb (mimeType q) TEXT_PLAIN) eqn:E1;
    [apply eqb_eq in E1; contradiction|].
  destruct (PyStr.eqb (mimeType q) TEXT_HTML) eqn:E2;
    [apply eqb_eq in E2; contradiction|].
  apply IH. intros q' I. apply N. now right.
Qed.

(** Only the first level of parts is read: a multipart message none of
    whose direct parts is plain text or HTML has an empty body, whatever
    its nested parts hold; and so has a message without parts whose type is
    not plain text, an HTML-only message in particular. *)
Theorem extract_body_reads_one_level `{MailRuntime} (mime : pystr) (data : option pystr) :
  (forall ps,
     (forall q, In q ps -> mimeType q <> TEXT_PLAIN /\ mimeType q <> TEXT_HTML) ->
     _extract_body (mkPart mime data (Some ps)) = ret [])
  /\ (mime <> TEXT_PLAIN -> _extract_body (mkPart mime data None) = ret []).
Proof.
  split.
  - intros ps N. unfold _extract_body. cbn [parts]. now apply scan_parts_no_text.
  - intros N. unfold _extract_body. cbn [parts mimeType].
    destruct (PyStr.eqb mime TEXT_PLAIN) eqn:E; [apply eqb_eq in E; contradiction|].
    reflexivity.
Qed.

Lemma extract_body_reads_one_level_witness :
  _extract_body Fixtures.nested = ret []
  /\ _extract_body (mkPart TEXT_HTML (Some (lit "<p>Hello</p>")) None) = ret [].
Proof.
  split.
  - apply (proj1 (extract_body_reads_one_level (lit "multipart/mixed") None)).
    intros q [<-|[]]. split; vm_compute; discriminate.
  - apply (proj2 (extract_body_reads_one_level TEXT_HTML (Some (lit "<p>Hello</p>")))).
    vm_compute. discriminate.
Defined.

Lemma label_id_dict_set (d : list (pystr * pystr)) (k v key : pystr) :
  GmailManager.label_id (dict_set d k v) key
  = if PyStr.eqb k key then Some v else GmailManager.label_id d key.
Proof.
  induction d as [|[k0 v0] d IH]; cbn [dict_set GmailManager.label_id]; [reflexivity|].
  destruct (PyStr.eqb k0 k) eqn:E0; cbn [GmailManager.label_id].
  - apply eqb_eq in E0. subst k0. now destruct (PyStr.eqb k key).
  - rewrite IH. destruct (PyStr.eqb k0 key) eqn:E1; [|reflexivity].
    destruct (PyStr.eqb k key) eqn:E2; [|reflexivity].
    apply eqb_eq in E1, E2. subst. rewrite eqb_refl in E0. discriminate.
Qed.

Lemma find_snoc {A : Type} (p : A -> bool) (l : list A) (a : A) :
  List.find p (l ++ [a]) = match List.find p l with
                      | Some x => Some x
                      | None => if p a then Some a else None
                      end.
Proof.
  induction l as [|x l IH]; cbn [app List.find]; [reflexivity|]. now destruct (p x).
Qed.

(** The last header of the list whose name, in lower case, is [key]. *)
Definition last_header `{MailRuntime} (hs : list (pystr * pystr)) (key : pystr)
  : option (pystr * pystr) :=
  List.find (fun h => PyStr.eqb (str_lower (fst h)) key) (rev hs).

Definition header_value `{MailRuntime} (hs : option (list (pystr * pystr))) (key : pystr)
  : pystr :=
  match last_header (or_default hs []) key with
  | Some h => snd h
  | None => []
  end.

Lemma header_dict_lookup `{MailRuntime} (hs : list (pystr * pystr)) (key : pystr) :
  dict_get_str (header_dict hs) key = header_value (Some hs) key.
Proof.
  unfold dict_get_str, header_value, header_dict, last_header, or_default.
  assert (G : forall d,
             GmailManager.label_id
               (fold_left (fun d h => dict_set d (str_lower (fst h)) (snd h)) hs d) key
             = match List.find (fun h => PyStr.eqb (str_lower (fst h)) key) (rev hs) with
               | Some h => Some (snd h)
               | None => GmailManager.label_id d key
               end).
  { induction hs as [|h hs IH]; intros d; [reflexivity|].
    cbn [fold_left rev]. rewrite IH, find_snoc, label_id_dict_set.
    now destruct (List.find _ (rev hs)), (PyStr.eqb (str_lower (fst h)) key). }
  rewrite G. now destruct (List.find _ (rev hs)).
Qed.

(** [_get_email_details] returns [None] exactly when the request or the
    decoding of the body raises. Otherwise the message carries the
    identifier it was asked for; its sender, subject and date are the
    values of the last header named From, Subject and Date, names compared
    in lower case, and the empty string when there is none; and its body is
    the extracted body, cleaned unless it is empty. *)
Theorem get_email_details_reads_headers `{MailRuntime} (got : result Message)
  (message_id : pystr) :
  match got with
  | inl _ => _get_email_details got message_id = None
  | inr msg =>
      match _extract_body (payload msg) with
      | inl _ => _get_email_details got message_id = None
      | inr body =>
          _get_email_details got message_id
          = Some (Email.mk message_id
                    (header_value (headers msg) (lit "from"))
                    (header_value (headers msg) (lit "subject"))
                    (header_value (headers msg) (lit "date"))
                    (match body with [] => [] | _ => _clean_text body end)
                    (or_default (labelIds msg) []) (or_default (threadId msg) [])
                    (or_default (snippet msg) []))
      end
  end.
Proof.
  unfold _get_email_details, email_details_try. destruct got as [e|msg]; cbn [bind];
    [reflexivity|].
  destruct (_extract_body (payload msg)) as [e|body]; cbn [bind ret]; [reflexivity|].
  rewrite !header_dict_lookup. unfold header_value. cbn [or_default].
  now destruct (headers msg).
Qed.

(** Two From headers, the second in capitals: the second wins. *)
Example last_header_wins :
  option_map Email.sender
    (_get_email_details (get_message Fixtures.read_service (lit "18c2f0a1")) (lit "18c2f0a1"))
  = Some (lit "orders@shop.example").
Proof. vm_compute. reflexivity. Qed.

(** A listed message can be read. *)
Definition readable `{MailRuntime} (service : ReadService) (message_id : pystr) : bool :=
  match _get_email_details (get_message service message_id) message_id with
  | Some _ => true
  | None => false
  end.

Lemma details_id `{MailRuntime} (got : result Message) (message_id : pystr) (e : Email.t) :
  _get_email_details got message_id = Some e -> Email.id e = message_id.
Proof.
  unfold _get_email_details, email_details_try. destruct got as [|msg]; cbn [bind];
    [discriminate|].
  destruct (_extract_body (payload msg)); cbn [bind ret]; [discriminate|].
  intros E. injection E as <-. reflexivity.
Qed.

Lemma collect_emails_ids `{MailRuntime} (service : ReadService) (ids : list pystr) :
  List.map Email.id (collect_emails service ids) = filter (readable service) ids
  /\ forall e, In e (collect_emails service ids) ->
       In (Email.id e) ids
       /\ _get_email_details (get_message service (Email.id e)) (Email.id e) = Some e.
Proof.
  induction ids as [|i ids [IH1 IH2]]; [now split|].
  cbn [collect_emails filter]. unfold readable at 1.
  destruct (_get_email_details (get_message service i) i) as [e0|] eqn:D.
  - pose proof (details_id _ _ _ D) as Id. split.
    + cbn [map]. now rewrite Id, IH1.
    + intros e [<-|I].
      * rewrite Id. split; [now left|exact D].
      * destruct (IH2 e I). split; [now right|assumption].
  - split; [exact IH1|]. intros e I. destruct (IH2 e I). split; [now right|assumption].
Qed.

(** When the window starts at a date the interpreter can represent,
    [get_recent_emails] returns a list and never raises: the empty list
    when the list request raises; otherwise the messages that could be
    read, in the order listed, each under the identifier it was listed
    with. A message that cannot be read is left out and the others are
    still read. *)
Theorem get_recent_emails_skips_unreadable `{MailRuntime} (service : ReadService)
  (now : EmailDatabase.datetime) (hours_back max_results : Z) :
  (Z.abs (hours_back / 24) <= 999999999)%Z ->
  (0 <= now - hours_back * 3600000000 < EmailDatabase.DATETIME_END)%Z ->
  let query := lit "after:" ++ strftime_ymd (now - hours_back * 3600000000)%Z
               ++ lit " -in:chats" in
  exists emails,
    get_recent_emails service now hours_back max_results = inr emails
    /\ (forall e, list_messages service query max_results = inl e -> emails = [])
    /\ (forall ids, list_messages service query max_results = inr ids ->
          List.map Email.id emails = filter (readable service) ids
          /\ forall e, In e emails ->
               _get_email_details (get_message service (Email.id e)) (Email.id e) = Some e).
Proof.
  intros D W query. unfold get_recent_emails, timedelta_hours, EmailDatabase.datetime_sub,
    EmailDatabase.and_then.
  destruct (Z.leb_spec (Z.abs (hours_back / 24)) 999999999); [|lia].
  destruct (Z.leb_spec 0 (now - hours_back * 3600000000)); [|lia].
  destruct (Z.ltb_spec (now - hours_back * 3600000000) EmailDatabase.DATETIME_END); [|lia].
  cbn [andb]. fold query.
  destruct (list_messages service query max_results) as [e|ids].
  - exists []. repeat split; intros; congruence.
  - exists (collect_emails service ids). split; [reflexivity|]. split; [congruence|].
    intros ids' E. injection E as <-. destruct (collect_emails_ids service ids) as [C1 C2].
    split; [exact C1|]. intros e I. now apply C2.
Qed.

Lemma get_recent_emails_skips_unreadable_witness :
  exists emails,
    get_recent_emails Fixtures.read_service Sample.noon_mar_1 1 1000 = inr emails
    /\ List.map Email.id emails = [lit "18c2f0a1"].
Proof.
  destruct (get_recent_emails_skips_unreadable Fixtures.read_service Sample.noon_mar_1 1 1000)
    as (emails & E & _ & R).
  - vm_compute. discriminate.
  - split; vm_compute; [discriminate|reflexivity].
  - exists emails. split; [exact E|].
    destruct (R [lit "18c2f0a1"; lit "18c2f0a2"] eq_refl) as [Ids _].
    rewrite Ids. vm_compute. reflexivity.
Defined.

End Reading.

(** ** Creating the labels *)

Module Setup.
Import Occurrence GmailReader GmailSetup.

(** The label is missing from the dict. *)
Definition missing (existing : list (pystr * pystr)) (label : pystr * pystr) : bool :=
  match GmailManager.label_id existing (fst label) with
  | Some _ => false
  | None => true
  end.

(** The create requests for the labels of a list that are missing. *)
Definition requests_for (existing required : list (pystr * pystr)) : list CreateRequest :=
  List.map (fun l => label_body (fst l) (snd l)) (filter (missing existing) required).

Lemma eqb_neq (s t : pystr) : s <> t -> PyStr.eqb s t = false.
Proof.
  intros N. destruct (PyStr.eqb s t) eqn:E; [|reflexivity].
  apply eqb_eq in E. contradiction.
Qed.

Lemma label_id_set_same (d : list (pystr * pystr)) (k v : pystr) :
  GmailManager.label_id (dict_set d k v) k = Some v.
Proof. rewrite Reading.label_id_dict_set. now rewrite eqb_refl. Qed.

Lemma label_id_set_other (d : list (pystr * pystr)) (k v key : pystr) :
  k <> key -> GmailManager.label_id (dict_set d k v) key = GmailManager.label_id d key.
Proof. intros N. rewrite Reading.label_id_dict_set. now rewrite eqb_neq. Qed.

Lemma requests_for_set_other (d : list (pystr * pystr)) (k v : pystr)
  (required : list (pystr * pystr)) :
  ~ In k (List.map fst required) ->
  requests_for (dict_set d k v) required = requests_for d required.
Proof.
  intros N. unfold requests_for. f_equal. apply filter_ext_in. intros [n c] I.
  unfold missing. cbn [fst]. rewrite label_id_set_other; [reflexivity|].
  intros ->. apply N. now apply (in_map fst) in I.
Qed.

Lemma requests_for_cons (existing : list (pystr * pystr)) (n c : pystr)
  (required : list (pystr * pystr)) :
  requests_for existing ((n, c) :: required)
  = match GmailManager.label_id existing n with
    | Some _ => requests_for existing required
    | None => label_body n c :: requests_for existing required
    end.
Proof.
  unfold requests_for. cbn [filter]. unfold missing at 1. cbn [fst].
  now destruct (GmailManager.label_id existing n).
Qed.

(** What the loop of [_setup_labels] does, for label names that are
    pairwise different. *)
Lemma create_missing_spec (answers : list CreateRequest -> CreateRequest -> result pystr)
  (required : list (pystr * pystr)) :
  NoDup (List.map fst required) ->
  forall existing done,
    snd (create_missing required existing done answers)
    = done ++ requests_for existing required
    /\ (forall n i, GmailManager.label_id existing n = Some i ->
          GmailManager.label_id (fst (create_missing required existing done answers)) n
          = Some i)
    /\ (forall n, ~ In n (List.map fst required) ->
          GmailManager.label_id (fst (create_missing required existing done answers)) n
          = GmailManager.label_id existing n)
    /\ (forall pre n c post, required = pre ++ (n, c) :: post ->
          GmailManager.label_id existing n = None ->
          GmailManager.label_id (fst (create_missing required existing done answers)) n
          = match answers (done ++ requests_for existing pre) (label_body n c) with
            | inr new_id => Some new_id
            | inl _ => None
            end).
Proof.
  induction required as [|[n0 c0] required IH]; intros ND existing done.
  - cbn [create_missing fst snd]. unfold requests_for. cbn. rewrite app_nil_r.
    repeat split; try easy. intros [|? ?] ? ? ? E; discriminate.
  - cbn [map] in ND. apply NoDup_cons_iff in ND as [Fresh ND]. specialize (IH ND).
    cbn [create_missing]. rewrite requests_for_cons.
    destruct (GmailManager.label_id existing n0) as [i0|] eqn:L0.
    + destruct (IH existing done) as (R & Keep & Frame & New).
      split; [exact R|]. split; [exact Keep|]. split.
      * intros n N. apply Frame. intros I. apply N. now right.
      * intros pre n c post E Ln.
        destruct pre as [|[n1 c1] pre]; cbn [app] in E; injection E as <- <- ->.
        -- congruence.
        -- rewrite (New pre n c post eq_refl Ln), requests_for_cons. now rewrite L0.
    + destruct (answers done (label_body n0 c0)) as [e|new_id] eqn:A.
      * destruct (IH existing (done ++ [label_body n0 c0])) as (R & Keep & Frame & New).
        split; [rewrite R, <- app_assoc; reflexivity|]. split; [exact Keep|]. split.
        -- intros n N. apply Frame. intros I. apply N. now right.
        -- intros pre n c post E Ln.
           destruct pre as [|[n1 c1] pre]; cbn [app] in E; injection E as <- <- ->.
           ++ rewrite (Frame n0 Fresh), Ln.
              unfold requests_for. cbn. now rewrite app_nil_r, A.
           ++ rewrite (New pre n c post eq_refl Ln), requests_for_cons, L0.
              now rewrite <- app_assoc.
      * destruct (IH (dict_set existing n0 new_id) (done ++ [label_body n0 c0]))
          as (R & Keep & Frame & New).
        split; [rewrite R, <- app_assoc, (requests_for_set_other _ _ _ _ Fresh);
                reflexivity|].
        split; [|split].
        -- intros n i Ln. apply Keep. rewrite label_id_set_other; [exact Ln|].
           intros ->. congruence.
        -- intros n N. rewrite Frame by (intros I; apply N; now right).
           apply label_id_set_other. intros ->. apply N. now left.
        -- intros pre n c post E Ln.
           destruct pre as [|[n1 c1] pre]; cbn [app] in E; injection E as <- <- ->.
           ++ rewrite (Frame n0 Fresh), label_id_set_same.
              unfold requests_for. cbn. now rewrite app_nil_r, A.
           ++ assert (Nn : n0 <> n).
              { intros ->. apply Fresh. rewrite map_app. apply in_or_app. right.
                now left. }
              rewrite (New pre n c post eq_refl)
                by (rewrite label_id_set_other; assumption).
              rewrite requests_for_set_other
                by (intros I; apply Fresh; rewrite map_app; apply in_or_app; now left).
              rewrite requests_for_cons, L0. now rewrite <- app_assoc.
Qed.

Lemma required_labels_distinct : NoDup (List.map fst required_labels).
Proof.
  repeat (apply NoDup_cons; [cbn; intros I;
    repeat (destruct I as [I|I]; [vm_compute in I; discriminate|]); destruct I|]).
  apply NoDup_nil.
Qed.

(** When the list request returns, [_setup_labels] asks the service to
    create every required label that was not listed, in the order of
    [required_labels] and whether or not an earlier creation failed, and
    asks for nothing else. A listed label keeps the id it was listed with.
    A required label that was not listed is in the dict, under the id the
    service answered, exactly when its creation returned. A name that is
    neither listed nor required is not in the dict. *)
Theorem setup_labels_creates_missing (service : LabelService)
  (listing : list (pystr * pystr)) :
  listed service = inr listing ->
  exists labels service',
    _setup_labels service = inr (labels, service')
    /\ created service' = created service ++ requests_for (existing_of listing) required_labels
    /\ (forall n i, GmailManager.label_id (existing_of listing) n = Some i ->
          GmailManager.label_id labels n = Some i)
    /\ (forall n, ~ In n (List.map fst required_labels) ->
          GmailManager.label_id labels n = GmailManager.label_id (existing_of listing) n)
    /\ (forall pre n c post, required_labels = pre ++ (n, c) :: post ->
          GmailManager.label_id (existing_of listing) n = None ->
          GmailManager.label_id labels n
          = match create_answers service
                    (created service ++ requests_for (existing_of listing) pre)
                    (label_body n c) with
            | inr new_id => Some new_id
            | inl _ => None
            end).
Proof.
  intros L. unfold _setup_labels. rewrite L. cbn [bind].
  destruct (create_missing_spec (create_answers service) required_labels
              required_labels_distinct (existing_of listing) (created service))
    as (R & Keep & Frame & New).
  destruct (create_missing required_labels (existing_of listing) (created service)
              (create_answers service)) as [labels done].
  cbn [fst snd] in *. exists labels, (mkLabelService (listed service) done
                                        (create_answers service)).
  split; [now rewrite L|]. cbn [created]. now repeat split.
Qed.

Lemma setup_labels_creates_missing_witness :
  exists labels service',
    _setup_labels Fixtures.label_service = inr (labels, service')
    /\ List.map create_name (created service')
       = List.map fst (skipn 1 required_labels)
    /\ GmailManager.label_id labels (lit "EmailScorer/High-Importance") = Some (lit "Label_1")
    /\ GmailManager.label_id labels (lit "EmailScorer/Likely-Spam") = None.
Proof.
  destruct (setup_labels_creates_missing Fixtures.label_service
              [(lit "INBOX", lit "INBOX");
               (lit "EmailScorer/High-Importance", lit "Label_1")] eq_refl)
    as (labels & service' & E & C & Keep & _ & New).
  exists labels, service'. split; [exact E|]. split; [|split].
  - rewrite C. vm_compute. reflexivity.
  - apply Keep. vm_compute. reflexivity.
  - rewrite (New (firstn 4 required_labels) (lit "EmailScorer/Likely-Spam")
               (lit "#ffad47") (skipn 5 required_labels));
      vm_compute; reflexivity.
Defined.

(** A required label whose creation failed stays unknown to the manager:
    applying it returns [False] and sends nothing to the service, and the
    mailbox is as before. *)
Theorem uncreated_label_is_never_applied (service : LabelService)
  (listing labels : list (pystr * pystr)) (service' : LabelService)
  (pre post : list (pystr * pystr)) (n c : pystr) (e : exc)
  (modify : GmailManager.Service) (email_id : pystr) :
  listed service = inr listing ->
  _setup_labels service = inr (labels, service') ->
  required_labels = pre ++ (n, c) :: post ->
  GmailManager.label_id (existing_of listing) n = None ->
  create_answers service (created service ++ requests_for (existing_of listing) pre)
    (label_body n c) = inl e ->
  GmailManager.apply_label (GmailManager.mk labels modify) email_id n
  = (false, GmailManager.mk labels modify).
Proof.
  intros L S R Un A. unfold _setup_labels in S. rewrite L in S. cbn [bind] in S.
  destruct (create_missing_spec (create_answers service) required_labels
              required_labels_distinct (existing_of listing) (created service))
    as (_ & _ & _ & New).
  destruct (create_missing required_labels (existing_of listing) (created service)
              (create_answers service)) as [labels0 done].
  injection S as <- <-. cbn [fst] in New.
  specialize (New pre n c post R Un). rewrite A in New.
  unfold GmailManager.apply_label. cbn [GmailManager.labels]. now rewrite New.
Qed.

Lemma uncreated_label_is_never_applied_witness :
  exists labels service',
    _setup_labels Fixtures.label_service = inr (labels, service')
    /\ GmailManager.apply_label
         (GmailManager.mk labels (GmailManager.service Sample.mailbox))
         (lit "18c2f0a1") (lit "EmailScorer/Likely-Spam")
       = (false, GmailManager.mk labels (GmailManager.service Sample.mailbox)).
Proof.
  destruct (_setup_labels Fixtures.label_service) as [e|[labels service']] eqn:S;
    [vm_compute in S; discriminate|].
  exists labels, service'. split; [reflexivity|].
  apply (uncreated_label_is_never_applied Fixtures.label_service
           [(lit "INBOX", lit "INBOX"); (lit "EmailScorer/High-Importance", lit "Label_1")]
           labels service' (firstn 4 required_labels) (skipn 5 required_labels)
           (lit "EmailScorer/Likely-Spam") (lit "#ffad47")
           (Raise (lit "HttpError") (lit "Invalid label name"))
           (GmailManager.service Sample.mailbox) (lit "18c2f0a1"));
    try (vm_compute; reflexivity). exact S.
Defined.

End Setup.

(** ** Invariants and frame of the ledger *)

Module LedgerKeys.
Import Occurrence EmailDatabase Ledger.

(** The keys of the table are keys: no two rows share a row id, and no two
    rows share a message identifier. *)
Definition keyed (db : EmailDatabase.t) : Prop :=
  NoDup (List.map col_id (email_scores db))
  /\ forall k, (length (entries_for k db) <= 1)%nat.

Lemma text_is_other (id k : pystr) (v : option pystr) :
  k <> id -> text_is k v = true -> text_is id v = false.
Proof.
  destruct v as [s|]; [|discriminate]. cbn [text_is]. intros N E.
  apply eqb_eq in E. subst s. destruct (PyStr.eqb k id) eqn:E'; [|reflexivity].
  apply eqb_eq in E'. contradiction.
Qed.

Lemma filter_filter_implied {A : Type} (p q : A -> bool) (l : list A) :
  (forall a, p a = true -> q a = true) -> filter p (filter q l) = filter p l.
Proof.
  intros I. induction l as [|a l IH]; [reflexivity|]. cbn [filter].
  destruct (q a) eqn:Q; cbn [filter].
  - now rewrite IH.
  - destruct (p a) eqn:P; [rewrite (I a P) in Q; discriminate|exact IH].
Qed.

Lemma NoDup_map_filter {A B : Type} (f : A -> B) (p : A -> bool) (l : list A) :
  NoDup (List.map f l) -> NoDup (List.map f (filter p l)).
Proof.
  induction l as [|a l IH]; intros N; [exact N|]. cbn [map] in N.
  apply NoDup_cons_iff in N as [Fresh N]. cbn [filter].
  destruct (p a); [|now apply IH]. cbn [map]. apply NoDup_cons; [|now apply IH].
  intros I. apply Fresh. apply in_map_iff in I as (x & E & I).
  apply filter_In in I as [I _]. apply in_map_iff. now exists x.
Qed.

Lemma existsb_filter {A : Type} (p : A -> bool) (l : list A) :
  existsb p l = match filter p l with [] => false | _ => true end.
Proof.
  induction l as [|a l IH]; [reflexivity|]. cbn [existsb filter].
  destruct (p a); [reflexivity|exact IH].
Qed.

(** The rows of another identifier are not touched by a save. *)
Lemma entries_for_other `{SqliteEngine} (db db' : EmailDatabase.t) (email : Email.t)
  (score : EmailScore) (labels_applied : list pystr) (now : datetime) (k : pystr) :
  save_score db email score labels_applied now = inr db' ->
  k <> Email.id email -> entries_for k db' = entries_for k db.
Proof.
  intros S N. apply save_score_inv in S as (p7 & p8 & _ & _ & _ & ->).
  unfold entries_for, other_entries. cbn [email_scores]. rewrite filter_app.
  cbn [filter col_email_id text_is].
  assert (E : PyStr.eqb (Email.id email) k = false).
  { destruct (PyStr.eqb (Email.id email) k) eqn:E; [|reflexivity].
    apply eqb_eq in E. now subst. }
  rewrite E, app_nil_r. apply filter_filter_implied. intros r T.
  now rewrite (text_is_other (Email.id email) k _ N T).
Qed.

Lemma keyed_after_save `{SqliteEngine} (db db' : EmailDatabase.t) (email : Email.t)
  (score : EmailScore) (labels_applied : list pystr) (now : datetime) :
  keyed db -> save_score db email score labels_applied now = inr db' -> keyed db'.
Proof.
  intros [Ids Keys] S. pose proof S as S0. pose proof S as S1.
  apply entries_after_save in S0 as (p7 & p8 & _ & _ & Own & _ & _).
  apply save_score_inv in S1 as (q7 & q8 & _ & _ & _ & E). split.
  - rewrite E. cbn [email_scores]. rewrite map_app. apply NoDup_app.
    + now apply NoDup_map_filter.
    + cbn. apply NoDup_cons; [easy|apply NoDup_nil].
    + intros a I [<-|[]]. apply in_map_iff in I as (r & Er & I).
      apply filter_In in I as [I _]. apply col_id_le_largest in I.
      cbn [col_id] in Er. lia.
  - intros k. destruct (PyStr.eqb k (Email.id email)) eqn:Ek.
    + apply eqb_eq in Ek. subst k. now rewrite Own.
    + rewrite (entries_for_other db db' email score labels_applied now k S);
        [apply Keys|].
      intros ->. now rewrite eqb_refl in Ek.
Qed.


Lemma sample_ledger_keyed : keyed Sample.ledger.
Proof.
  split.
  - cbn. apply NoDup_cons; [easy|apply NoDup_nil].
  - intros k. unfold entries_for. etransitivity; [apply filter_length_le|]. cbn. lia.
Qed.


Lemma other_identifiers_untouched `{SqliteEngine} (db db' : EmailDatabase.t)
  (email : Email.t) (score : EmailScore) (labels_applied : list pystr) (now : datetime)
  (k : pystr) :
  save_score db email score labels_applied now = inr db' ->
  k <> Email.id email ->
  entries_for k db' = entries_for k db
  /\ is_email_processed db' k = is_email_processed db k.
Proof.
  intros S N. pose proof (entries_for_other db db' email score labels_applied now k S N)
    as E. split; [exact E|].
  unfold is_email_processed, and_then. destruct (bind_text 1 k); [reflexivity|].
  f_equal. rewrite !existsb_filter. unfold entries_for in E. now rewrite E.
Qed.

Lemma processed_after_save `{SqliteEngine} (db db' : EmailDatabase.t)
  (email : Email.t) (score : EmailScore) (labels_applied : list pystr) (now : datetime)
  (k : pystr) :
  save_score db email score labels_applied now = inr db' ->
  is_email_processed db k = inr true -> is_email_processed db' k = inr true.
Proof.
  intros S P. destruct (PyStr.eqb k (Email.id email)) eqn:Ek.
  - apply eqb_eq in Ek. subst k.
    now apply entries_after_save in S as (_ & _ & _ & _ & _ & _ & Own).
  - destruct (other_identifiers_untouched db db' email score labels_applied now k S)
      as [_ ->]; [|exact P].
    intros ->. now rewrite eqb_refl in Ek.
Qed.

(** A save changes the ledger for its own identifier only: for every other
    identifier the rows and the answer of the processed-check are as
    before; for its own the check then answers true. An identifier that
    was processed stays processed. *)
Theorem save_score_only_touches_its_identifier `{SqliteEngine} (db db' : EmailDatabase.t)
  (email : Email.t) (score : EmailScore) (labels_applied : list pystr) (now : datetime) :
  save_score db email score labels_applied now = inr db' ->
  (forall k, k <> Email.id email ->
     entries_for k db' = entries_for k db
     /\ is_email_processed db' k = is_email_processed db k)
  /\ is_email_processed db' (Email.id email) = inr true
  /\ (forall k, is_email_processed db k = inr true -> is_email_processed db' k = inr true).
Proof.
  intros S. split; [|split].
  - intros k N. now apply (other_identifiers_untouched db db' email score labels_applied now).
  - now apply entries_after_save in S as (_ & _ & _ & _ & _ & _ & Own).
  - intros k. now apply (processed_after_save db db' email score labels_applied now).
Qed.

Lemma save_score_only_touches_its_identifier_witness :
  exists db',
    save_score Sample.ledger
      (Email.mk (lit "18c2f0a2") [] [] [] [] [] [] []) Sample.doubtful_score []
      Sample.noon_mar_1 = inr db'
    /\ is_email_processed db' (lit "18c2f0a1") = inr true
    /\ is_email_processed db' (lit "18c2f0a2") = inr true.
Proof.
  destruct (save_score Sample.ledger (Email.mk (lit "18c2f0a2") [] [] [] [] [] [] [])
              Sample.doubtful_score [] Sample.noon_mar_1) as [f|db'] eqn:S;
    [vm_compute in S; discriminate|].
  exists db'. split; [reflexivity|].
  destruct (save_score_only_touches_its_identifier Sample.ledger db'
              (Email.mk (lit "18c2f0a2") [] [] [] [] [] [] []) Sample.doubtful_score []
              Sample.noon_mar_1 S) as (_ & Own & Stay).
  split; [|exact Own]. apply Stay. vm_compute. reflexivity.
Defined.

(** A value SQLite can store in a TEXT column through the [sqlite3]
    module. *)
Definition bindable (v : pyval) : bool :=
  match v with
  | PStr s => negb (existsb is_surrogate s)
  | PInt z => (INT64_MIN <=? z)%Z && (z <=? INT64_MAX)%Z
  | PList _ | PDict _ => false
  | PNone | PBool _ | PFloat _ => true
  end.

Lemma bind_to_text_returns `{SqliteEngine} (param : nat) (v : pyval) :
  (exists p, bind_to_text param v = inr p) <-> bindable v = true.
Proof.
  destruct v; cbn [bind_to_text bindable]; unfold bind_text.
  all: try (split; [reflexivity|intros _; eexists; reflexivity]).
  - destruct ((INT64_MIN <=? z)%Z && (z <=? INT64_MAX)%Z); split; try discriminate.
    + reflexivity.
    + intros _. eexists. reflexivity.
    + intros [p E]. discriminate.
  - destruct (existsb is_surrogate s); cbn [negb]; split; try discriminate.
    + intros [p E]. discriminate.
    + reflexivity.
    + intros _. eexists. reflexivity.
  - split; [intros [p E]|]; discriminate.
  - split; [intros [p E]|]; discriminate.
Qed.

(** [save_score] returns exactly when the identifier, the sender, the
    subject and the label names have no lone surrogate, the category and
    the reasoning of the score are values SQLite can store (not a list, not
    a dict, not an integer beyond 64 bits, not a string with a lone
    surrogate), and a row id is left. In every other case it raises. *)
Theorem save_score_returns_iff `{SqliteEngine} (db : EmailDatabase.t) (email : Email.t)
  (score : EmailScore) (labels_applied : list pystr) (now : datetime) :
  (exists db', save_score db email score labels_applied now = inr db')
  <-> (existsb is_surrogate (Email.id email) = false
       /\ existsb is_surrogate (Email.sender email) = false
       /\ existsb is_surrogate (Email.subject email) = false
       /\ bindable (category score) = true
       /\ bindable (reasoning score) = true
       /\ existsb is_surrogate (join (lit ",") labels_applied) = false
       /\ (largest_rowid db < INT64_MAX)%Z).
Proof.
  pose proof (bind_to_text_returns 7 (category score)) as B7.
  pose proof (bind_to_text_returns 8 (reasoning score)) as B8.
  unfold save_score, and_then, bind_text.
  change (existsb is_surrogate (lit "v1.0")) with false. cbv iota.
  destruct (existsb is_surrogate (Email.id email));
    [split; [intros [? ?]; discriminate|intros (? & _); discriminate]|].
  destruct (existsb is_surrogate (Email.sender email));
    [split; [intros [? ?]; discriminate|intros (_ & ? & _); discriminate]|].
  destruct (existsb is_surrogate (Email.subject email));
    [split; [intros [? ?]; discriminate|intros (_ & _ & ? & _); discriminate]|].
  destruct (bind_to_text 7 (category score)) as [f7|p7].
  { split; [intros [? ?]; discriminate|]. intros (_ & _ & _ & C & _).
    apply B7 in C as [? ?]. discriminate. }
  destruct (bind_to_text 8 (reasoning score)) as [f8|p8].
  { split; [intros [? ?]; discriminate|]. intros (_ & _ & _ & _ & C & _).
    apply B8 in C as [? ?]. discriminate. }
  destruct (existsb is_surrogate (join (lit ",") labels_applied));
    [split; [intros [? ?]; discriminate|intros (_ & _ & _ & _ & _ & ? & _); discriminate]|].
  destruct (Z.gtb_spec (largest_rowid db + 1) INT64_MAX).
  - split; [intros [? ?]; discriminate|]. intros (_ & _ & _ & _ & _ & _ & ?). lia.
  - split; [|intros _; eexists; reflexivity]. intros _.
    repeat split; try reflexivity; try (apply B7; now eexists);
      try (apply B8; now eexists). lia.
Qed.

(** A category that is a JSON array cannot be saved. *)
Example list_category_is_not_saved :
  save_score Sample.ledger Sample.message Fixtures.list_category_score [] Sample.noon_mar_1
  = inl (TypeNotSupported 7 (lit "list")).
Proof. vm_compute. reflexivity. Qed.

End LedgerKeys.

(** ** The statistics *)

Module Statistics.
Import Occurrence EmailDatabase Ledger.

Lemma text_compare_eq (s t : pystr) : text_compare s t = Eq <-> s = t.
Proof.
  revert t; induction s as [|c s IH]; intros [|d t]; cbn [text_compare];
    try (split; [discriminate|discriminate]); [now split|].
  destruct (N.compare_spec c d) as [->|L|L].
  - rewrite IH. split; [now intros ->|]. intros E. now injection E.
  - split; [discriminate|]. intros E. injection E as -> _. lia.
  - split; [discriminate|]. intros E. injection E as -> _. lia.
Qed.

Lemma text_compare_antisym (s t : pystr) :
  text_compare t s = CompOpp (text_compare s t).
Proof.
  revert t; induction s as [|c s IH]; intros [|d t]; cbn [text_compare]; try reflexivity.
  rewrite (N.compare_antisym c d). destruct (N.compare c d); cbn [CompOpp]; auto.
Qed.

Lemma text_compare_trans (a b c : pystr) :
  text_compare a b = Lt -> text_compare b c = Lt -> text_compare a c = Lt.
Proof.
  revert b c; induction a as [|x a IH]; intros [|y b] [|z c]; cbn [text_compare];
    try discriminate; try reflexivity.
  destruct (N.compare_spec x y) as [->|L1|L1]; try discriminate.
  - destruct (N.compare_spec y z) as [->|L2|L2]; try discriminate; [apply IH|reflexivity].
  - intros _. destruct (N.compare_spec y z) as [->|L2|L2]; try discriminate.
    + intros _. destruct (N.compare_spec x z); try reflexivity; lia.
    + intros _. destruct (N.compare_spec x z); try reflexivity; lia.
Qed.

Lemma key_compare_eq (a b : option pystr) : key_compare a b = Eq <-> a = b.
Proof.
  destruct a as [s|], b as [t|]; cbn [key_compare]; try (split; discriminate);
    [|now split].
  rewrite text_compare_eq. split; [now intros ->|]. intros E. now injection E.
Qed.

Lemma key_compare_gt (a b : option pystr) : key_compare a b = Gt -> key_compare b a = Lt.
Proof.
  destruct a as [s|], b as [t|]; cbn [key_compare]; try discriminate; try reflexivity.
  rewrite (text_compare_antisym s t). now intros ->.
Qed.

Lemma key_compare_trans (a b c : option pystr) :
  key_compare a b = Lt -> key_compare b c = Lt -> key_compare a c = Lt.
Proof.
  destruct a as [s|], b as [t|], c as [u|]; cbn [key_compare]; try discriminate;
    try reflexivity. apply text_compare_trans.
Qed.

Lemma same_key_eq (a b : option pystr) : same_key a b = true <-> a = b.
Proof.
  unfold same_key. rewrite <- key_compare_eq.
  destruct (key_compare a b); split; congruence.
Qed.

(** The keys increase strictly. *)
Fixpoint increasing (ks : list (option pystr)) : Prop :=
  match ks with
  | [] => True
  | k :: rest => (forall x, In x rest -> key_compare k x = Lt) /\ increasing rest
  end.

Lemma insert_key_In (k x : option pystr) (ks : list (option pystr)) :
  In x (insert_key k ks) <-> x = k \/ In x ks.
Proof.
  induction ks as [|k' ks IH]; cbn [insert_key].
  - cbn. intuition.
  - destruct (key_compare k k') eqn:C.
    + apply key_compare_eq in C. subst k'. cbn. intuition.
    + cbn. intuition.
    + cbn [In]. rewrite IH. intuition.
Qed.

Lemma insert_key_increasing (k : option pystr) (ks : list (option pystr)) :
  increasing ks -> increasing (insert_key k ks).
Proof.
  induction ks as [|k' ks IH]; intros I; cbn [insert_key].
  - cbn. now split.
  - destruct I as [Lt_all I]. destruct (key_compare k k') eqn:C.
    + now split.
    + split; [|now split]. intros x [<-|Ix]; [exact C|].
      apply (key_compare_trans k k' x C). now apply Lt_all.
    + split; [|now apply IH]. intros x Ix. apply insert_key_In in Ix as [->|Ix].
      * now apply key_compare_gt.
      * now apply Lt_all.
Qed.

Lemma increasing_NoDup (ks : list (option pystr)) : increasing ks -> NoDup ks.
Proof.
  induction ks as [|k ks IH]; intros I; [apply NoDup_nil|]. destruct I as [L I].
  apply NoDup_cons; [|now apply IH]. intros Ik. apply L in Ik.
  assert (E : key_compare k k = Eq) by now apply key_compare_eq. congruence.
Qed.

Lemma group_keys_spec (rows : list Row) :
  increasing (group_keys rows)
  /\ forall k, In k (group_keys rows) <-> exists r, In r rows /\ col_category r = k.
Proof.
  unfold group_keys. induction rows as [|r rows [I M]]; cbn [map fold_right].
  - split; [exact Logic.I|]. intros k. split; [intros []|intros (r & [] & _)].
  - split; [now apply insert_key_increasing|]. intros k. rewrite insert_key_In, M.
    split.
    + intros [->|(r' & I' & E)]; [exists r; split; [now left|reflexivity]|].
      exists r'. split; [now right|exact E].
    + intros (r' & [<-|I'] & E); [now left|]. right. now exists r'.
Qed.

(** [sum] over integers, from the right. *)
Lemma int_sum_cons (x : Z) (l : list Z) : int_sum (x :: l) = (x + int_sum l)%Z.
Proof.
  unfold int_sum. cbn [fold_left].
  assert (G : forall l a, fold_left Z.add l a = (a + fold_left Z.add l 0)%Z).
  { clear. induction l as [|y l IH]; intros a; cbn [fold_left]; [lia|].
    rewrite (IH (a + y)%Z), (IH (0 + y)%Z). lia. }
  rewrite (G l (0 + x)%Z). lia.
Qed.

Lemma indicator_zero (k0 : option pystr) (ks : list (option pystr)) :
  ~ In k0 ks ->
  int_sum (List.map (fun k => if same_key k0 k then 1%Z else 0%Z) ks) = 0%Z.
Proof.
  induction ks as [|k ks IH]; intros N; [reflexivity|]. cbn [map].
  rewrite int_sum_cons, IH by (intros I; apply N; now right).
  destruct (same_key k0 k) eqn:S; [|reflexivity].
  apply same_key_eq in S. subst k. exfalso. apply N. now left.
Qed.

Lemma indicator_sum (k0 : option pystr) (ks : list (option pystr)) :
  NoDup ks -> In k0 ks ->
  int_sum (List.map (fun k => if same_key k0 k then 1%Z else 0%Z) ks) = 1%Z.
Proof.
  induction ks as [|k ks IH]; intros N I; [destruct I|].
  apply NoDup_cons_iff in N as [Fresh N]. cbn [map]. rewrite int_sum_cons.
  destruct I as [->|I].
  - rewrite (proj2 (same_key_eq k0 k0) eq_refl), (indicator_zero k0 ks Fresh). reflexivity.
  - rewrite (IH N I). destruct (same_key k0 k) eqn:S; [|reflexivity].
    apply same_key_eq in S. subst k. contradiction.
Qed.

(** Each row is counted in exactly one group. *)
Lemma group_counts (f : Row -> bool) (ks : list (option pystr)) (rows : list Row) :
  NoDup ks -> (forall r, In r rows -> In (col_category r) ks) ->
  int_sum (List.map
             (fun k => Z.of_nat (length (filter f
                         (filter (fun r => same_key (col_category r) k) rows)))) ks)
  = Z.of_nat (length (filter f rows)).
Proof.
  intros N. induction rows as [|r rows IH]; intros Cover.
  - cbn. clear. induction ks as [|k ks IH]; [reflexivity|]. cbn [map].
    now rewrite int_sum_cons, IH.
  - assert (IH' := IH (fun r' I => Cover r' (or_intror I))). clear IH.
    assert (S : forall l,
      int_sum (List.map
        (fun k => Z.of_nat (length (filter f
                    (filter (fun r0 => same_key (col_category r0) k) (r :: rows))))) l)
      = (int_sum (List.map
           (fun k => Z.of_nat (length (filter f
                       (filter (fun r0 => same_key (col_category r0) k) rows)))) l)
         + (if f r then int_sum (List.map
                           (fun k => if same_key (col_category r) k then 1 else 0) l)
            else 0))%Z).
    { induction l as [|k l IHl]; [cbn; destruct (f r); reflexivity|].
      cbn [map]. rewrite !int_sum_cons, IHl. cbn [filter].
      destruct (same_key (col_category r) k); cbn [filter];
        destruct (f r); cbn [length]; rewrite ?int_sum_cons; lia. }
    rewrite S, IH', (indicator_sum _ ks N (Cover r (or_introl eq_refl))). cbn [filter].
    destruct (f r); cbn [length]; lia.
Qed.

Lemma filter_all {A : Type} (l : list A) : filter (fun _ => true) l = l.
Proof. induction l as [|a l IH]; [reflexivity|]. cbn. now rewrite IH. Qed.

(** The rows processed at or after [since_date]. *)
Definition window (db : EmailDatabase.t) (since_date : datetime) : list Row :=
  filter (fun r => match col_date_processed r with
                   | Some d => (since_date <=? d)%Z
                   | None => false
                   end) (email_scores db).

Definition ge7 (col : Row -> option float) (r : Row) : bool :=
  match col r with
  | Some x => PrimFloat.leb 7 x
  | None => false
  end.

(** When the statistics are returned, they count the rows of the window:
    the total is their number, the two counters are the numbers of rows
    whose importance and whose spam score are at least 7, the categories
    are those of the rows, each once, in increasing order, each with the
    number of its rows, at least one; and the numbers of the categories add
    up to the total. *)
Theorem stats_count_the_window `{PyRuntime} `{SqliteEngine} (db : EmailDatabase.t)
  (now : datetime) (days_back : Z) (st : Stats) :
  get_performance_stats db now days_back = inr st ->
  let rows := window db (now - days_back * 86400000000)%Z in
  total_processed st = Z.of_nat (length rows)
  /\ high_importance_count st
     = Z.of_nat (length (filter (ge7 col_importance_score) rows))
  /\ spam_count st = Z.of_nat (length (filter (ge7 col_spam_score) rows))
  /\ List.map fst (categories st) = group_keys rows
  /\ increasing (List.map fst (categories st))
  /\ (forall k n, In (k, n) (categories st) ->
        n = Z.of_nat (length (filter (fun r => same_key (col_category r) k) rows))
        /\ (1 <= n)%Z)
  /\ int_sum (List.map snd (categories st)) = total_processed st.
Proof.
  intros G rows. unfold get_performance_stats, timedelta_days, datetime_sub, and_then in G.
  destruct (Z.abs days_back <=? 999999999)%Z; [|discriminate].
  destruct ((0 <=? now - days_back * 86400000000)%Z
            && (now - days_back * 86400000000 <? DATETIME_END)%Z); [|discriminate].
  fold (window db (now - days_back * 86400000000)%Z) in G. unfold stats_query in G.
  fold (window db (now - days_back * 86400000000)%Z) in G. fold rows in G.
  destruct (group_keys_spec rows) as [Inc Mem].
  pose proof (increasing_NoDup _ Inc) as ND.
  assert (Cover : forall r, In r rows -> In (col_category r) (group_keys rows)).
  { intros r I. apply Mem. now exists r. }
  assert (T : int_sum (List.map r5 (List.map (group_row rows) (group_keys rows)))
              = Z.of_nat (length rows)).
  { rewrite map_map. cbn [group_row r5].
    rewrite <- (filter_all rows) at 2.
    rewrite <- (group_counts (fun _ => true) _ rows ND Cover). f_equal.
    apply map_ext. intros k. now rewrite filter_all. }
  assert (H2 : int_sum (List.map r2 (List.map (group_row rows) (group_keys rows)))
               = Z.of_nat (length (filter (ge7 col_importance_score) rows))).
  { rewrite map_map. cbn [group_row r2]. unfold count_ge7.
    now rewrite <- (group_counts (ge7 col_importance_score) _ rows ND Cover). }
  assert (H3 : int_sum (List.map r3 (List.map (group_row rows) (group_keys rows)))
               = Z.of_nat (length (filter (ge7 col_spam_score) rows))).
  { rewrite map_map. cbn [group_row r3]. unfold count_ge7.
    now rewrite <- (group_counts (ge7 col_spam_score) _ rows ND Cover). }
  assert (Cats : List.map (fun r => (r4 r, r5 r)) (List.map (group_row rows) (group_keys rows))
                 = List.map (fun k => (k, Z.of_nat (length
                      (filter (fun r => same_key (col_category r) k) rows))))
                     (group_keys rows)).
  { rewrite map_map. reflexivity. }
  assert (Fields : total_processed st = Z.of_nat (length rows)
     /\ high_importance_count st = Z.of_nat (length (filter (ge7 col_importance_score) rows))
     /\ spam_count st = Z.of_nat (length (filter (ge7 col_spam_score) rows))
     /\ categories st = List.map (fun k => (k, Z.of_nat (length
                          (filter (fun r => same_key (col_category r) k) rows))))
                         (group_keys rows)).
  { rewrite <- T, <- H2, <- H3, <- Cats.
    match type of G with
    | match ?m with inl _ => _ | inr _ => _ end = _ => destruct m as [f|avg]
    end; [discriminate|].
    injection G as <-. now repeat split. }
  destruct Fields as (F1 & F2 & F3 & F4).
  assert (Keys : List.map fst (categories st) = group_keys rows).
  { rewrite F4, map_map. cbn [fst]. apply map_id. }
  split; [exact F1|]. split; [exact F2|]. split; [exact F3|]. split; [exact Keys|].
  split; [now rewrite Keys|]. split.
  - intros k n I. rewrite F4 in I. apply in_map_iff in I as (k' & E & I).
    injection E as -> <-. split; [reflexivity|].
    apply Mem in I as (r & Ir & Er).
    assert (Ig : In r (filter (fun r0 => same_key (col_category r0) k) rows)).
    { apply filter_In. split; [exact Ir|]. now apply same_key_eq. }
    remember (filter (fun r0 => same_key (col_category r0) k) rows) as g.
    destruct g; [contradiction|]. cbn [length]. lia.
  - rewrite F1, <- T, F4, !map_map. reflexivity.
Qed.

Lemma stats_count_the_window_witness :
  exists st,
    get_performance_stats Sample.ledger Sample.noon_jan_1 7 = inr st
    /\ total_processed st = 1%Z
    /\ List.map fst (categories st) = [Some (lit "orders")].
Proof.
  destruct (get_performance_stats Sample.ledger Sample.noon_jan_1 7) as [f|st] eqn:G;
    [vm_compute in G; discriminate|].
  exists st. split; [reflexivity|].
  destruct (stats_count_the_window Sample.ledger Sample.noon_jan_1 7 st G)
    as (T & _ & _ & K & _).
  split; [rewrite T|rewrite K]; vm_compute; reflexivity.
Defined.

End Statistics.

(** ** Edge cases of the statistics *)

Module StatisticsEdge.
Import Occurrence EmailDatabase Ledger Statistics.

Lemma weighted_fails (results : list StatRow) (x : StatRow) :
  In x results -> r1 x = None -> exists f, weighted results = inl f.
Proof.
  induction results as [|r results IH]; intros I N; [destruct I|].
  cbn [weighted]. destruct I as [->|I].
  - rewrite N. now eexists.
  - destruct (r1 r) as [a|]; [|now eexists]. unfold and_then.
    destruct (to_float (r5 r)) as [e|n]; [now eexists|].
    destruct (IH I N) as [e ->]. now eexists.
Qed.

Lemma non_null_none {A : Type} (l : list (option A)) :
  (forall x, In x l -> x = None) -> non_null l = [].
Proof.
  induction l as [|x l IH]; intros N; [reflexivity|].
  rewrite (N x (or_introl eq_refl)). cbn [non_null]. apply IH.
  intros y I. apply N. now right.
Qed.

(** A NaN confidence is stored as NULL. If every row that a category has in
    the window holds a NULL confidence, the statistics raise instead of
    returning: the average of the category is [None], and the weighted
    sum multiplies it. *)
Theorem stats_raise_on_null_confidence `{PyRuntime} `{SqliteEngine} (db : EmailDatabase.t)
  (now : datetime) (days_back : Z) (r : Row) :
  (Z.abs days_back <= 999999999)%Z ->
  (0 <= now - days_back * 86400000000 < DATETIME_END)%Z ->
  In r (window db (now - days_back * 86400000000)%Z) ->
  (forall r', In r' (window db (now - days_back * 86400000000)%Z) ->
              col_category r' = col_category r -> col_confidence r' = None) ->
  (forall f, PrimFloat.is_nan f = true -> bind_real f = None)
  /\ exists failure, get_performance_stats db now days_back = inl failure.
Proof.
  intros D W I Null. split; [intros x N; unfold bind_real; now rewrite N|].
  unfold get_performance_stats, timedelta_days, datetime_sub, and_then.
  destruct (Z.leb_spec (Z.abs days_back) 999999999); [|lia].
  destruct (Z.leb_spec 0 (now - days_back * 86400000000)); [|lia].
  destruct (Z.ltb_spec (now - days_back * 86400000000) DATETIME_END); [|lia].
  cbn [andb]. unfold stats_query. fold (window db (now - days_back * 86400000000)%Z).
  set (rows := window db (now - days_back * 86400000000)%Z) in *.
  assert (K : In (col_category r) (group_keys rows)).
  { apply (proj2 (group_keys_spec rows)). now exists r. }
  set (x := group_row rows (col_category r)).
  assert (Ix : In x (List.map (group_row rows) (group_keys rows))) by now apply in_map.
  assert (Nx : r1 x = None).
  { subst x. cbn [group_row r1]. rewrite non_null_none; [reflexivity|].
    intros c Ic. apply in_map_iff in Ic as (r' & <- & Ir').
    apply filter_In in Ir' as [Ir' S]. apply same_key_eq in S. now apply Null. }
  destruct (weighted_fails _ x Ix Nx) as [f Wf].
  destruct (List.map (group_row rows) (group_keys rows)) as [|y ys] eqn:E;
    [destruct Ix|].
  rewrite Wf. now eexists.
Qed.

Lemma stats_raise_on_null_confidence_witness :
  exists db' failure,
    save_score Sample.ledger Fixtures.other_message Fixtures.nan_score [] Sample.noon_mar_1
    = inr db'
    /\ get_performance_stats db' Sample.noon_mar_1 7 = inl failure.
Proof.
  destruct (save_score Sample.ledger Fixtures.other_message Fixtures.nan_score []
              Sample.noon_mar_1) as [e|db'] eqn:S; [vm_compute in S; discriminate|].
  set (row := mkRow 2 (Some (Email.id Fixtures.other_message))
                (Some (Email.sender Fixtures.other_message))
                (Some (Email.subject Fixtures.other_message)) (Some Sample.noon_mar_1)
                (Some 5%float) (Some 0%float) (Some (lit "odd"))
                (Some (lit "No confidence")) None (Some (lit "v1.0")) (Some []) None).
  assert (W : window db' (Sample.noon_mar_1 - 7 * 86400000000)%Z = [row]).
  { vm_compute in S. injection S as <-. vm_compute. reflexivity. }
  destruct (stats_raise_on_null_confidence db' Sample.noon_mar_1 7 row)
    as [_ [failure F]].
  - vm_compute. discriminate.
  - split; vm_compute; [discriminate|reflexivity].
  - rewrite W. now left.
  - intros r' Ir' _. rewrite W in Ir'. destruct Ir' as [<-|[]]. reflexivity.
  - exists db', failure. split; [reflexivity|exact F].
Defined.

End StatisticsEdge.

(** ** The report against the labels *)

Module ReportVsLabels.
Import Occurrence EmailDatabase Ledger Statistics EmailScoringSystem.

(** A float that something is at most is a number. *)
Lemma leb_not_nan (a x : float) : PrimFloat.leb a x = true -> PrimFloat.is_nan x = false.
Proof.
  unfold PrimFloat.is_nan. rewrite FloatAxioms.leb_spec, FloatAxioms.eqb_spec.
  unfold SFleb, SFeqb. destruct (Prim2SF x) as [s| s| |s m e].
  - reflexivity.
  - intros _. now destruct s.
  - destruct (Prim2SF a); discriminate.
  - intros _. cbn [SFcompare]. rewrite Z.compare_refl.
    change (PosDef.Pos.compare_cont Eq m m) with (Pos.compare m m).
    rewrite Pos.compare_refl. now destruct s.
Qed.

Lemma succeeded_incl (outcomes : list (pystr * bool)) (l : pystr) :
  In l (Labels.succeeded outcomes) -> In l (List.map fst outcomes).
Proof.
  unfold Labels.succeeded. intros I. apply in_map_iff in I as (x & E & I).
  apply filter_In in I as [I _]. apply in_map_iff. now exists x.
Qed.

Lemma filter_comm {A : Type} (p q : A -> bool) (l : list A) :
  filter p (filter q l) = filter q (filter p l).
Proof.
  induction l as [|a l IH]; [reflexivity|]. cbn [filter].
  destruct (p a) eqn:P, (q a) eqn:Q; cbn [filter]; rewrite ?P, ?Q, IH; reflexivity.
Qed.

Lemma filter_keeps_all {A : Type} (p : A -> bool) (l : list A) :
  existsb (fun a => negb (p a)) l = false -> filter p l = l.
Proof.
  induction l as [|a l IH]; [reflexivity|]. cbn [existsb filter].
  destruct (p a); cbn [negb orb]; [|discriminate]. intros E. now rewrite IH.
Qed.

(** The counter of the statistics is the number of rows of the window
    whose importance is at least 7. *)
Lemma high_importance_counted `{PyRuntime} `{SqliteEngine} (db : EmailDatabase.t)
  (now : datetime) (days_back : Z) (st : Stats) :
  get_performance_stats db now days_back = inr st ->
  high_importance_count st
  = Z.of_nat (length (filter (ge7 col_importance_score)
                        (window db (now - days_back * 86400000000)%Z))).
Proof.
  intros G. unfold get_performance_stats, timedelta_days, datetime_sub, and_then in G.
  destruct (Z.abs days_back <=? 999999999)%Z; [|discriminate].
  destruct ((0 <=? now - days_back * 86400000000)%Z
            && (now - days_back * 86400000000 <? DATETIME_END)%Z); [|discriminate].
  fold (window db (now - days_back * 86400000000)%Z) in G. unfold stats_query in G.
  fold (window db (now - days_back * 86400000000)%Z) in G.
  remember (window db (now - days_back * 86400000000)%Z) as rows.
  destruct (group_keys_spec rows) as [Inc Mem].
  pose proof (increasing_NoDup _ Inc) as ND.
  assert (Cover : forall r, In r rows -> In (col_category r) (group_keys rows)).
  { intros r I. apply Mem. now exists r. }
  rewrite <- (group_counts (ge7 col_importance_score) _ rows ND Cover).
  match type of G with
  | match ?m with inl _ => _ | inr _ => _ end = _ => destruct m as [f|avg]
  end; [discriminate|].
  injection G as <-. cbn [high_importance_count]. rewrite map_map. reflexivity.
Qed.

(** The report and the labels use different thresholds. A message whose
    importance is at least 7 and below 8 never gets the high-importance
    label, whatever the mailbox does; once it is saved, statistics whose
    window holds the time of the save count it as of high importance:
    their counter is one more than the number of the rows of the other
    messages in the window whose importance is at least 7, and, for a
    message that was not in the ledger, one more than the counter of the
    statistics before the save. *)
Theorem report_counts_importance_from_seven `{PyRuntime} `{SqliteEngine}
  (db db' : EmailDatabase.t) (gmail : GmailManager.t) (email : Email.t)
  (score : EmailScore) (labels_applied : list pystr) (saved_at now : datetime)
  (days_back : Z) (st' : Stats) :
  PrimFloat.leb 7 (importance_score score) = true ->
  PrimFloat.leb 8 (importance_score score) = false ->
  save_score db email score labels_applied saved_at = inr db' ->
  (now - days_back * 86400000000 <= saved_at)%Z ->
  get_performance_stats db' now days_back = inr st' ->
  ~ In HIGH_IMPORTANCE (fst (_apply_scoring_labels gmail email score))
  /\ List.map (ge7 col_importance_score) (entries_for (Email.id email) db') = [true]
  /\ high_importance_count st'
     = (Z.of_nat (length (filter (ge7 col_importance_score)
                            (filter (fun r => negb (text_is (Email.id email)
                                                      (col_email_id r)))
                               (window db (now - days_back * 86400000000)%Z))))
        + 1)%Z
  /\ (forall st, get_performance_stats db now days_back = inr st ->
        is_email_processed db (Email.id email) = inr false ->
        high_importance_count st' = (high_importance_count st + 1)%Z).
Proof.
  intros Seven Eight S In_window G'.
  assert (Count : high_importance_count st'
     = (Z.of_nat (length (filter (ge7 col_importance_score)
                            (filter (fun r => negb (text_is (Email.id email)
                                                      (col_email_id r)))
                               (window db (now - days_back * 86400000000)%Z))))
        + 1)%Z).
  { rewrite (high_importance_counted db' now days_back st' G').
    pose proof S as S0. apply save_score_inv in S0 as (p7 & p8 & _ & _ & _ & ->).
    unfold window, other_entries. cbn [email_scores].
    rewrite filter_app. cbn [filter col_date_processed].
    destruct (Z.leb_spec (now - days_back * 86400000000) saved_at); [|lia].
    rewrite filter_app. cbn [filter]. unfold ge7 at 2. cbn [col_importance_score].
    unfold bind_real. rewrite (leb_not_nan _ _ Seven), Seven.
    rewrite length_app. cbn [length]. rewrite (filter_comm _ _ (email_scores db)). lia. }
  split; [|split; [|split; [exact Count|]]].
  - rewrite Labels.apply_scoring_labels_attempts. cbn [fst]. intros I.
    apply succeeded_incl in I. rewrite Labels.attempt_all_labels in I.
    unfold Labels.decide, Labels.importance_tier, ge in I. rewrite Eight in I.
    destruct (py_eq_str _ _), (PrimFloat.leb 5 _), (PrimFloat.leb 7 (spam_score score)),
      (lt _ _); cbn [app In] in I;
      repeat (destruct I as [I|I]; [vm_compute in I; discriminate|]); destruct I.
  - apply entries_after_save in S as (p7 & p8 & _ & _ & -> & _).
    cbn [map]. unfold ge7. cbn [col_importance_score]. unfold bind_real.
    rewrite (leb_not_nan _ _ Seven). now rewrite Seven.
  - intros st G New. rewrite Count, (high_importance_counted db now days_back st G).
    unfold is_email_processed, and_then in New.
    destruct (bind_text 1 (Email.id email)); [discriminate|]. injection New as New.
    unfold window. rewrite (filter_comm _ _ (email_scores db)).
    rewrite (filter_keeps_all (fun r => negb (text_is (Email.id email) (col_email_id r))));
      [reflexivity|].
    rewrite <- New. clear. induction (email_scores db) as [|r l IH]; [reflexivity|].
    cbn [existsb]. rewrite negb_involutive. now rewrite IH.
Qed.

Lemma report_counts_importance_from_seven_witness :
  ~ In HIGH_IMPORTANCE
      (fst (_apply_scoring_labels Sample.mailbox Fixtures.other_message Fixtures.seven_score))
  /\ exists db' st',
       save_score Sample.ledger Fixtures.other_message Fixtures.seven_score
         [MEDIUM_IMPORTANCE] Sample.noon_mar_1 = inr db'
       /\ get_performance_stats db' Sample.noon_mar_1 90 = inr st'
       /\ high_importance_count st' = 1%Z.
Proof.
  destruct (save_score Sample.ledger Fixtures.other_message Fixtures.seven_score
              [MEDIUM_IMPORTANCE] Sample.noon_mar_1) as [e|db'] eqn:S;
    [vm_compute in S; discriminate|].
  destruct (get_performance_stats db' Sample.noon_mar_1 90) as [f|st'] eqn:G.
  { exfalso. vm_compute in S. injection S as <-. vm_compute in G. discriminate. }
  destruct (report_counts_importance_from_seven Sample.ledger db' Sample.mailbox
              Fixtures.other_message Fixtures.seven_score [MEDIUM_IMPORTANCE]
              Sample.noon_mar_1 Sample.noon_mar_1 90 st' eq_refl eq_refl S)
    as (NoHigh & _ & Count & _); [vm_compute; discriminate|exact G|].
  split; [exact NoHigh|]. exists db', st'. split; [reflexivity|].
  split; [exact G|]. rewrite Count. vm_compute. reflexivity.
Defined.

End ReportVsLabels.

(** ** The time of the last run *)

Module LastProcessed.
Import Occurrence EmailDatabase ProcessingState.

(** The table keeps one slot for the time of the last run: after an update
    it holds exactly one row under the key, with the text of the time
    written last, the rows of other keys are as before, and the time read
    back is what [fromisoformat] makes of that text. With no row under the
    key the time read is [None]. *)
Theorem last_processed_single_slot `{DatetimeText} (table : ProcessingState.t)
  (earlier timestamp : datetime) :
  let table' := update_last_processed_time
                  (update_last_processed_time table earlier) timestamp in
  filter (fun row => text_is LAST_PROCESSED (fst row)) table'
  = [(Some LAST_PROCESSED, Some (isoformat timestamp))]
  /\ filter (fun row => negb (text_is LAST_PROCESSED (fst row))) table'
     = filter (fun row => negb (text_is LAST_PROCESSED (fst row))) table
  /\ get_last_processed_time table'
     = bind (fromisoformat (isoformat timestamp)) (fun d => ret (Some d))
  /\ (filter (fun row => text_is LAST_PROCESSED (fst row)) table = [] ->
      get_last_processed_time table = ret None).
Proof.
  cbv zeta.
  assert (One : forall tb ts,
            filter (fun row => text_is LAST_PROCESSED (fst row))
              (update_last_processed_time tb ts)
            = [(Some LAST_PROCESSED, Some (isoformat ts))]).
  { intros tb ts. unfold update_last_processed_time. rewrite filter_app.
    rewrite (Ledger.filter_negb_filter (fun row => text_is LAST_PROCESSED (fst row))).
    cbn [filter fst app]. now rewrite Ledger.text_is_refl. }
  assert (Others : forall tb ts,
            filter (fun row => negb (text_is LAST_PROCESSED (fst row)))
              (update_last_processed_time tb ts)
            = filter (fun row => negb (text_is LAST_PROCESSED (fst row))) tb).
  { intros tb ts. unfold update_last_processed_time. rewrite filter_app.
    rewrite Ledger.filter_idem. cbn [filter fst]. rewrite Ledger.text_is_refl.
    cbn [negb]. apply app_nil_r. }
  split; [apply One|]. split; [now rewrite !Others|]. split.
  - unfold get_last_processed_time. now rewrite One.
  - intros E. unfold get_last_processed_time. now rewrite E.
Qed.

End LastProcessed.

(** ** The main loop *)

Module Orchestration.
Import Occurrence EmailDatabase Ledger LedgerKeys Orchestrator.

Lemma save_raises_unbindable `{SqliteEngine} (db : EmailDatabase.t) (email : Email.t)
  (score : EmailScore) (labels_applied : list pystr) (now : datetime) :
  bindable (category score) = false ->
  exists failure, save_score db email score labels_applied now = inl failure.
Proof.
  intros B. unfold save_score, and_then.
  destruct (bind_text 1 _); [now eexists|]. destruct (bind_text 2 _); [now eexists|].
  destruct (bind_text 3 _); [now eexists|].
  destruct (bind_to_text 7 (category score)) as [f|p7] eqn:E; [now eexists|].
  assert (C : bindable (category score) = true)
    by (apply (bind_to_text_returns 7); now exists p7).
  congruence.
Qed.

Lemma apply_scoring_labels_effect (gmail : GmailManager.t) (email : Email.t)
  (score : EmailScore) :
  GmailManager.labels (snd (EmailScoringSystem._apply_scoring_labels gmail email score))
  = GmailManager.labels gmail
  /\ GmailManager.executed
       (GmailManager.service
          (snd (EmailScoringSystem._apply_scoring_labels gmail email score)))
     = GmailManager.executed (GmailManager.service gmail)
       ++ flat_map (Labels.request_for gmail email) (Labels.decide score).
Proof.
  rewrite Labels.apply_scoring_labels_attempts. cbn [snd].
  destruct (Labels.attempt_all_requests gmail email (Labels.decide score)) as (L & _ & X).
  now split.
Qed.

(** What one turn of the loop keeps and how it counts. *)
Lemma process_one_facts `{PyRuntime} `{SqliteEngine} (self : Orchestrator.t)
  (counts : Counts) (email : Email.t) :
  let self' := fst (process_one (self, counts) email) in
  let counts' := snd (process_one (self, counts) email) in
  skip_processed_emails self' = skip_processed_emails self
  /\ GmailManager.labels (gmail self') = GmailManager.labels (gmail self)
  /\ (forall k, is_email_processed (db self) k = inr true ->
                is_email_processed (db self') k = inr true)
  /\ (keyed (db self) -> keyed (db self'))
  /\ (processed_count counts <= processed_count counts')%Z
  /\ (skipped_count counts <= skipped_count counts')%Z
  /\ (processed_count counts' + skipped_count counts'
      <= processed_count counts + skipped_count counts + 1)%Z
  /\ ((processed_count counts' + skipped_count counts'
       = processed_count counts + skipped_count counts + 1)%Z ->
      is_email_processed (db self') (Email.id email) = inr true).
Proof.
  cbv zeta. unfold process_one.
  destruct (already_processed self email) as [f|[|]] eqn:A; cbn [fst snd].
  - do 2 (split; [reflexivity|]). do 2 (split; [tauto|]).
    do 3 (split; [lia|]). intros C. lia.
  - cbn [processed_count skipped_count].
    do 2 (split; [reflexivity|]). do 2 (split; [tauto|]).
    do 3 (split; [lia|]). intros _. unfold already_processed in A.
    destruct (skip_processed_emails self); [exact A|discriminate].
  - pose proof (apply_scoring_labels_effect (gmail self) email
                  (EmailScorer.score_email (scorer self) (Email.sender email)
                     (Email.subject email) (Email.body email) (Email.date email)))
      as [L _].
    destruct (EmailScoringSystem._apply_scoring_labels (gmail self) email _)
      as [labels_applied gmail'] eqn:Ap. cbn [snd] in L.
    destruct (save_score (db self) email _ labels_applied _) as [f|db'] eqn:S;
      cbn [fst snd skip_processed_emails gmail db processed_count skipped_count].
    + split; [reflexivity|]. split; [exact L|]. do 2 (split; [tauto|]).
      do 3 (split; [lia|]). intros C. lia.
    + split; [reflexivity|]. split; [exact L|].
      split; [intros k; now apply (processed_after_save _ _ _ _ _ _ k S)|].
      split; [intros K; now apply (keyed_after_save _ _ _ _ _ _ K S)|].
      do 3 (split; [lia|]). intros _.
      now apply entries_after_save in S as (p7 & p8 & _ & _ & _ & _ & Own).
Qed.

Lemma fold_facts `{PyRuntime} `{SqliteEngine} (emails : list Email.t) :
  forall (self : Orchestrator.t) (counts : Counts),
    let self' := fst (fold_left process_one emails (self, counts)) in
    let counts' := snd (fold_left process_one emails (self, counts)) in
    skip_processed_emails self' = skip_processed_emails self
    /\ GmailManager.labels (gmail self') = GmailManager.labels (gmail self)
    /\ (forall k, is_email_processed (db self) k = inr true ->
                  is_email_processed (db self') k = inr true)
    /\ (keyed (db self) -> keyed (db self'))
    /\ (processed_count counts' + skipped_count counts'
        <= processed_count counts + skipped_count counts + Z.of_nat (length emails))%Z
    /\ ((processed_count counts' + skipped_count counts'
         = processed_count counts + skipped_count counts + Z.of_nat (length emails))%Z ->
        forall e, In e emails -> is_email_processed (db self') (Email.id e) = inr true).
Proof.
  induction emails as [|email emails IH]; intros self counts; cbv zeta.
  - cbn [fold_left fst snd length]. do 2 (split; [reflexivity|]).
    do 2 (split; [tauto|]). split; [lia|]. intros _ e [].
  - cbn [fold_left]. pose proof (process_one_facts self counts email) as F.
    cbv zeta in F. destruct (process_one (self, counts) email) as [self1 counts1].
    cbn [fst snd] in F. destruct F as (F1 & F2 & F3 & F4 & F5 & F6 & F7 & F8).
    specialize (IH self1 counts1). cbv zeta in IH.
    destruct (fold_left process_one emails (self1, counts1)) as [self' counts'].
    cbn [fst snd] in *. destruct IH as (I1 & I2 & I3 & I4 & I5 & I6).
    cbn [length]. split; [congruence|]. split; [congruence|].
    split; [intros k P; now apply I3, F3|]. split; [intros K; now apply I4, F4|].
    split.
    + lia.
    + intros E e [<-|I].
      * apply I3, F8. lia.
      * apply I6; [lia|exact I].
Qed.

(** With the skip flag set, a batch whose messages are all in the ledger
    changes neither the mailbox nor the ledger: no label is requested, no
    row is written, every message is counted as skipped. The time of the
    last run is still updated when the batch is not empty. *)
Theorem process_batch_skips_processed `{PyRuntime} `{SqliteEngine}
  `{ProcessingState.DatetimeText} (self : Orchestrator.t) (emails : list Email.t) :
  skip_processed_emails self = true ->
  (forall e, In e emails -> is_email_processed (db self) (Email.id e) = inr true) ->
  gmail (fst (process_batch self emails)) = gmail self
  /\ db (fst (process_batch self emails)) = db self
  /\ snd (process_batch self emails) = mkCounts 0 (Z.of_nat (length emails))
  /\ (emails <> [] ->
      processing_state (fst (process_batch self emails))
      = ProcessingState.update_last_processed_time (processing_state self)
          (clock self (ticks self))).
Proof.
  intros Skip P.
  assert (F : forall es c, (forall e, In e es ->
                is_email_processed (db self) (Email.id e) = inr true) ->
              fold_left process_one es (self, c)
              = (self, mkCounts (processed_count c)
                         (skipped_count c + Z.of_nat (length es)))).
  { induction es as [|e es IH]; intros c Pe.
    - cbn [fold_left length]. destruct c. cbn. f_equal. f_equal. lia.
    - cbn [fold_left]. unfold process_one at 2. unfold already_processed.
      rewrite Skip, (Pe e (or_introl eq_refl)).
      rewrite IH by (intros e' I; apply Pe; now right).
      cbn [processed_count skipped_count length]. f_equal. f_equal. lia. }
  unfold process_batch. destruct emails as [|e emails].
  - cbn [fst snd length]. repeat split; try reflexivity. intros C. contradiction.
  - rewrite (F (e :: emails) (mkCounts 0 0) P). cbn [fst snd gmail db processing_state
      processed_count skipped_count]. repeat split; reflexivity.
Qed.

Lemma process_batch_skips_processed_witness :
  gmail (fst (process_batch (Fixtures.system (Sample.scorer_answering Sample.finance_reply))
                [Sample.message; Sample.message]))
  = Sample.mailbox
  /\ snd (process_batch (Fixtures.system (Sample.scorer_answering Sample.finance_reply))
            [Sample.message; Sample.message])
     = mkCounts 0 2.
Proof.
  destruct (process_batch_skips_processed
              (Fixtures.system (Sample.scorer_answering Sample.finance_reply))
              [Sample.message; Sample.message] eq_refl) as (G & _ & C & _).
  - intros e [<-|[<-|[]]]; vm_compute; reflexivity.
  - split; [exact G|exact C].
Defined.

(** A batch never takes a message out of the ledger and never doubles a
    key: an identifier that was processed before the batch is processed
    after it; a ledger with one row per message identifier and per row id
    stays one; the label dict of the manager and the skip flag are
    unchanged. *)
Theorem process_batch_keeps_ledger `{PyRuntime} `{SqliteEngine}
  `{ProcessingState.DatetimeText} (self : Orchestrator.t) (emails : list Email.t) :
  (forall k, is_email_processed (db self) k = inr true ->
             is_email_processed (db (fst (process_batch self emails))) k = inr true)
  /\ (keyed (db self) -> keyed (db (fst (process_batch self emails))))
  /\ GmailManager.labels (gmail (fst (process_batch self emails)))
     = GmailManager.labels (gmail self)
  /\ skip_processed_emails (fst (process_batch self emails)) = skip_processed_emails self.
Proof.
  unfold process_batch. destruct emails as [|e emails].
  - cbn [fst]. split; [tauto|]. split; [tauto|]. split; reflexivity.
  - pose proof (fold_facts (e :: emails) self (mkCounts 0 0)) as F. cbv zeta in F.
    destruct (fold_left process_one (e :: emails) (self, mkCounts 0 0)) as [self' counts'].
    cbn [fst snd db gmail skip_processed_emails] in *.
    destruct F as (F1 & F2 & F3 & F4 & _).
    split; [exact F3|]. split; [exact F4|]. split; [exact F2|exact F1].
Qed.

(** The counters tell whether the batch went through: when the processed
    and the skipped messages add up to the size of the batch, every message
    of the batch is in the ledger afterwards. *)
Theorem process_batch_counts `{PyRuntime} `{SqliteEngine}
  `{ProcessingState.DatetimeText} (self : Orchestrator.t) (emails : list Email.t) :
  (processed_count (snd (process_batch self emails))
   + skipped_count (snd (process_batch self emails)) <= Z.of_nat (length emails))%Z
  /\ ((processed_count (snd (process_batch self emails))
       + skipped_count (snd (process_batch self emails)) = Z.of_nat (length emails))%Z ->
      forall e, In e emails ->
        is_email_processed (db (fst (process_batch self emails))) (Email.id e) = inr true).
Proof.
  unfold process_batch. destruct emails as [|e emails].
  - cbn. split; [lia|]. intros _ e [].
  - pose proof (fold_facts (e :: emails) self (mkCounts 0 0)) as F. cbv zeta in F.
    destruct (fold_left process_one (e :: emails) (self, mkCounts 0 0)) as [self' counts'].
    cbn [fst snd db processed_count skipped_count] in *.
    destruct F as (_ & _ & _ & _ & F5 & F6). split; [lia|].
    intros E. apply F6. lia.
Qed.

Lemma process_batch_counts_witness :
  is_email_processed
    (db (fst (process_batch
                (Fixtures.system (Sample.scorer_answering Sample.finance_reply))
                [Sample.message; Fixtures.other_message])))
    (Email.id Fixtures.other_message) = inr true.
Proof.
  apply (process_batch_counts
           (Fixtures.system (Sample.scorer_answering Sample.finance_reply))
           [Sample.message; Fixtures.other_message]).
  - vm_compute. reflexivity.
  - right. left. reflexivity.
Defined.

(** A list request that raises looks like an empty mailbox: when the window
    starts at a representable date, [process_emails] returns without
    touching the mailbox or the ledger, and the time of the last run is
    not updated. *)
Theorem process_emails_listing_failure `{PyRuntime} `{SqliteEngine}
  `{ProcessingState.DatetimeText} `{GmailReader.MailRuntime} (self : Orchestrator.t)
  (hours_back : Z) (e : exc) :
  let now := clock self (ticks self) in
  (Z.abs (hours_back / 24) <= 999999999)%Z ->
  (0 <= now - hours_back * 3600000000 < DATETIME_END)%Z ->
  GmailReader.list_messages (reader self)
    (lit "after:" ++ GmailReader.strftime_ymd (now - hours_back * 3600000000)%Z
     ++ lit " -in:chats") 1000 = inl e ->
  exists self',
    process_emails self hours_back = inr (self', mkCounts 0 0)
    /\ gmail self' = gmail self /\ db self' = db self
    /\ processing_state self' = processing_state self.
Proof.
  intros now D W L. unfold process_emails, GmailReader.get_recent_emails,
    GmailReader.timedelta_hours, datetime_sub, and_then. fold now.
  cbn [reader].
  destruct (Z.leb_spec (Z.abs (hours_back / 24)) 999999999); [|lia].
  destruct (Z.leb_spec 0 (now - hours_back * 3600000000)); [|lia].
  destruct (Z.ltb_spec (now - hours_back * 3600000000) DATETIME_END); [|lia].
  cbn [andb]. rewrite L. cbn [process_batch]. eexists. split; [reflexivity|].
  now repeat split.
Qed.

Lemma process_emails_listing_failure_witness :
  exists self',
    process_emails
      (mk (Sample.scorer_answering Sample.finance_reply) Sample.mailbox
         (GmailReader.mkReadService
            (fun _ _ => raise (Raise (lit "HttpError") (lit "Backend Error")))
            (fun _ => raise (Raise (lit "HttpError") (lit "Not Found"))))
         Sample.ledger [] true (fun _ => Sample.noon_mar_1) 0) 1
    = inr (self', mkCounts 0 0)
    /\ db self' = Sample.ledger /\ processing_state self' = [].
Proof.
  destruct (process_emails_listing_failure
              (mk (Sample.scorer_answering Sample.finance_reply) Sample.mailbox
                 (GmailReader.mkReadService
                    (fun _ _ => raise (Raise (lit "HttpError") (lit "Backend Error")))
                    (fun _ => raise (Raise (lit "HttpError") (lit "Not Found"))))
                 Sample.ledger [] true (fun _ => Sample.noon_mar_1) 0) 1
              (Raise (lit "HttpError") (lit "Backend Error")))
    as (self' & E & _ & D & P).
  - vm_compute. discriminate.
  - split; vm_compute; [discriminate|reflexivity].
  - reflexivity.
  - exists self'. split; [exact E|]. split; [exact D|exact P].
Defined.

(** A score the ledger cannot store is labelled and not recorded: when the
    category the model returned is not a value SQLite accepts (a JSON
    array, say), the turn of the loop sends the requests for the decided
    labels, then the save raises; the ledger and the counters are as
    before, and the message is still unprocessed, so the next run does the
    same again. *)
Theorem unsaved_message_is_labelled `{PyRuntime} `{SqliteEngine} (self : Orchestrator.t)
  (counts : Counts) (email : Email.t) :
  let score := EmailScorer.score_email (scorer self) (Email.sender email)
                 (Email.subject email) (Email.body email) (Email.date email) in
  already_processed self email = inr false ->
  bindable (category score) = false ->
  db (fst (process_one (self, counts) email)) = db self
  /\ snd (process_one (self, counts) email) = counts
  /\ GmailManager.executed (GmailManager.service (gmail (fst (process_one (self, counts) email))))
     = GmailManager.executed (GmailManager.service (gmail self))
       ++ flat_map (Labels.request_for (gmail self) email) (Labels.decide score)
  /\ already_processed (fst (process_one (self, counts) email)) email = inr false.
Proof.
  intros score A B. unfold process_one. rewrite A. fold score.
  pose proof (apply_scoring_labels_effect (gmail self) email score) as [_ X].
  destruct (EmailScoringSystem._apply_scoring_labels (gmail self) email score)
    as [labels_applied gmail'] eqn:Ap. cbn [snd] in X.
  destruct (save_raises_unbindable (db self) email score labels_applied
              (clock self (ticks self)) B) as [failure S].
  rewrite S. cbn [fst snd db gmail]. repeat split; try assumption.
Qed.

Lemma unsaved_message_is_labelled_witness :
  db (fst (@process_one Fixtures.list_runtime Sample.engine
             (Fixtures.system (Sample.scorer_answering (lit "{}")), mkCounts 0 0)
             Fixtures.other_message)) = Sample.ledger
  /\ length (GmailManager.executed (GmailManager.service (gmail
       (fst (@process_one Fixtures.list_runtime Sample.engine
               (Fixtures.system (Sample.scorer_answering (lit "{}")), mkCounts 0 0)
               Fixtures.other_message))))) = 2%nat.
Proof.
  destruct (@unsaved_message_is_labelled Fixtures.list_runtime Sample.engine
              (Fixtures.system (Sample.scorer_answering (lit "{}")))
              (mkCounts 0 0) Fixtures.other_message) as (D & _ & X & _).
  - vm_compute. reflexivity.
  - vm_compute. reflexivity.
  - split; [exact D|]. rewrite X. vm_compute. reflexivity.
Defined.

End Orchestration.

(** ** The object handed to the JSON parser *)

Module Extraction.
Import Occurrence Strip EmailScorer JsonPattern.

(** The pattern of line 113 in words: an opening brace, a run without
    braces, any number of groups (a brace pair around a run, then a run),
    a closing brace. *)
Definition plain (x : pystr) : Prop := ~ In lbrace x /\ ~ In rbrace x.

Definition group (gx : pystr * pystr) : pystr := lbrace :: fst gx ++ rbrace :: snd gx.

Definition plain_group (gx : pystr * pystr) : Prop := plain (fst gx) /\ plain (snd gx).

Definition object_tail (x : pystr) (gs : list (pystr * pystr)) : pystr :=
  x ++ concat (List.map group gs) ++ [rbrace].

Definition object_text (x : pystr) (gs : list (pystr * pystr)) : pystr :=
  lbrace :: object_tail x gs.

Lemma plain_cons (c : char) (x : pystr) :
  N.eqb c lbrace = false -> N.eqb c rbrace = false -> plain x -> plain (c :: x).
Proof.
  intros L R [Lx Rx]. apply N.eqb_neq in L, R.
  split; intros [E|I]; auto.
Qed.

Lemma plain_inv (c : char) (x : pystr) :
  plain (c :: x) -> N.eqb c lbrace = false /\ N.eqb c rbrace = false /\ plain x.
Proof.
  intros [L R]. repeat split.
  - apply N.eqb_neq. intros E. apply L. now left.
  - apply N.eqb_neq. intros E. apply R. now left.
  - intros I. apply L. now right.
  - intros I. apply R. now right.
Qed.

Lemma plain_nil : plain [].
Proof. split; intros []. Qed.

(** What a successful scan has read. *)
Lemma scan_shape (s : pystr) : forall (inner : bool) (n : nat),
  scan inner s = Some n ->
  if inner then
    exists g x gs, plain g /\ plain x /\ Forall plain_group gs
                   /\ firstn n s = g ++ rbrace :: object_tail x gs
  else
    exists x gs, plain x /\ Forall plain_group gs /\ firstn n s = object_tail x gs.
Proof.
  induction s as [|c s IH]; intros inner n E; cbn [scan] in E; [discriminate|].
  destruct (N.eqb c lbrace) eqn:L.
  - apply N.eqb_eq in L. subst c. destruct inner; [discriminate|].
    destruct (scan true s) as [n'|] eqn:E'; [|discriminate]. injection E as <-.
    destruct (IH true n' E') as (g & x & gs & Pg & Px & Pgs & F).
    exists [], ((g, x) :: gs). split; [apply plain_nil|]. split.
    + constructor; [now split|exact Pgs].
    + cbn [firstn]. rewrite F. unfold object_tail, group. cbn [app map concat fst snd].
      now rewrite <- !app_assoc.
  - destruct (N.eqb c rbrace) eqn:R.
    + apply N.eqb_eq in R. subst c. destruct inner.
      * destruct (scan false s) as [n'|] eqn:E'; [|discriminate]. injection E as <-.
        destruct (IH false n' E') as (x & gs & Px & Pgs & F).
        exists [], x, gs. split; [apply plain_nil|]. split; [exact Px|].
        split; [exact Pgs|]. cbn [firstn app]. now rewrite F.
      * injection E as <-. exists [], []. split; [apply plain_nil|]. now split.
    + destruct (scan inner s) as [n'|] eqn:E'; [|discriminate]. injection E as <-.
      specialize (IH inner n' E'). destruct inner.
      * destruct IH as (g & x & gs & Pg & Px & Pgs & F).
        exists (c :: g), x, gs. split; [now apply plain_cons|]. split; [exact Px|].
        split; [exact Pgs|]. cbn [firstn app]. now rewrite F.
      * destruct IH as (x & gs & Px & Pgs & F).
        exists (c :: x), gs. split; [now apply plain_cons|]. split; [exact Pgs|].
        cbn [firstn]. rewrite F. reflexivity.
Qed.

Lemma scan_plain (inner : bool) (x rest : pystr) :
  plain x -> scan inner (x ++ rest) = option_map (Nat.add (length x)) (scan inner rest).
Proof.
  induction x as [|c x IH]; intros P; cbn [app length].
  - now destruct (scan inner rest).
  - apply plain_inv in P as (L & R & P). cbn [scan]. rewrite L, R, (IH P).
    now destruct (scan inner rest).
Qed.

Lemma scan_groups (gs : list (pystr * pystr)) (rest : pystr) :
  Forall plain_group gs ->
  scan false (concat (List.map group gs) ++ rbrace :: rest)
  = Some (length (concat (List.map group gs) ++ [rbrace])).
Proof.
  induction 1 as [|[g x] gs [Pg Px] _ IH]; cbn [map concat app].
  - reflexivity.
  - unfold group at 1 3. cbn [fst snd] in *. cbn [app]. rewrite <- !app_assoc.
    cbn [app].
    change (scan false (lbrace :: ?s)) with (option_map S (scan true s)).
    rewrite scan_plain by exact Pg.
    change (scan true (rbrace :: ?s)) with (option_map S (scan false s)).
    rewrite scan_plain by exact Px. rewrite IH. cbn [option_map length]. f_equal.
    rewrite !length_app. cbn [length]. rewrite !length_app. cbn [length]. lia.
Qed.

(** The scan reads an object of the pattern to its end, whatever follows. *)
Lemma scan_object (x : pystr) (gs : list (pystr * pystr)) (post : pystr) :
  plain x -> Forall plain_group gs ->
  scan false (object_tail x gs ++ post) = Some (length (object_tail x gs)).
Proof.
  intros Px Pgs. unfold object_tail. rewrite <- !app_assoc. cbn [app].
  rewrite scan_plain by exact Px. rewrite (scan_groups gs post Pgs).
  cbn [option_map]. f_equal. rewrite !length_app. lia.
Qed.

Lemma firstn_length_app {A : Type} (a b : list A) : firstn (length a) (a ++ b) = a.
Proof. induction a as [|c a IH]; cbn; [now destruct b|now rewrite IH]. Qed.

(** The first match, and that no brace before it starts one. *)
Lemma first_match (s : pystr) : forall (m : pystr) (ms : list pystr),
  findall_from 0 s = m :: ms ->
  exists pre s' n,
    s = pre ++ lbrace :: s' /\ scan false s' = Some n /\ m = lbrace :: firstn n s'
    /\ forall a b, pre = a ++ lbrace :: b -> scan false (b ++ lbrace :: s') = None.
Proof.
  induction s as [|c s IH]; intros m ms E; cbn [findall_from] in E; [discriminate|].
  destruct (N.eqb c lbrace) eqn:L.
  - apply N.eqb_eq in L. subst c. destruct (scan false s) as [n|] eqn:Sc.
    + injection E as E1 E2. subst m. exists [], s, n. repeat split; try assumption.
      intros [|? ?] b C; discriminate.
    + destruct (IH m ms E) as (pre & s' & n & -> & Sc' & -> & First).
      exists (lbrace :: pre), s', n. repeat split; try assumption.
      intros [|a0 a] b C; cbn [app] in C.
      * injection C as C. subst b. exact Sc.
      * injection C as C1 C2. now apply (First a b).
  - destruct (IH m ms E) as (pre & s' & n & -> & Sc' & -> & First).
    exists (c :: pre), s', n. repeat split; try assumption.
    intros [|a0 a] b C; cbn [app] in C.
    + injection C as C1 C2. subst c. now rewrite N.eqb_refl in L.
    + injection C as C1 C2. now apply (First a b).
Qed.

Lemma strip_object (x : pystr) (gs : list (pystr * pystr)) :
  strip (object_text x gs) = object_text x gs.
Proof.
  pose proof (strip_around (object_text x gs) [] []) as S.
  rewrite app_nil_r in S. cbn [app lstrip rstrip] in S. rewrite app_nil_r in S.
  apply S. exists lbrace, (object_tail x gs), (lbrace :: x ++ concat (List.map group gs)), rbrace.
  repeat split. unfold object_text, object_tail. cbn [app]. now rewrite <- app_assoc.
Qed.

Lemma app_same_length {A : Type} (a b c d : list A) :
  a ++ b = c ++ d -> (length a <= length c)%nat -> exists e, c = a ++ e /\ b = e ++ d.
Proof.
  revert c; induction a as [|x a IH]; intros c E Le.
  - exists c. now split.
  - destruct c as [|y c]; [cbn in Le; lia|]. cbn [app] in E. injection E as -> E.
    destruct (IH c E) as (e & -> & ->); [cbn in Le; lia|]. now exists e.
Qed.

(** The text handed to [json.loads] is the leftmost occurrence of the
    pattern in the text searched: it lies in the text, it is an opening
    brace, a run without braces, groups of one nested brace pair each and a
    closing brace, so no brace in it is nested deeper than one level, and
    no occurrence of the pattern starts before it. *)
Theorem find_json_leftmost_object (t m : pystr) :
  find_json t = inr m ->
  exists pre x gs post,
    t = pre ++ m ++ post /\ m = object_text x gs /\ plain x /\ Forall plain_group gs
    /\ forall a x' gs' post',
         plain x' -> Forall plain_group gs' -> t = a ++ object_text x' gs' ++ post' ->
         (length pre <= length a)%nat.
Proof.
  unfold find_json, findall. destruct (findall_from 0 t) as [|m0 ms] eqn:F; [discriminate|].
  intros E. destruct (first_match t m0 ms F) as (pre & s' & n & -> & Sc & -> & First).
  destruct (scan_shape s' false n Sc) as (x & gs & Px & Pgs & Fn).
  rewrite Fn in E. fold (object_text x gs) in E. rewrite strip_object in E.
  injection E as <-. exists pre, x, gs, (skipn n s').
  split. { unfold object_text. rewrite <- Fn. cbn [app]. now rewrite firstn_skipn. }
  split; [reflexivity|]. split; [exact Px|]. split; [exact Pgs|].
  intros a x' gs' post' Px' Pgs' T.
  destruct (Nat.le_gt_cases (length pre) (length a)) as [Le|Gt]; [exact Le|exfalso].
  symmetry in T. destruct (app_same_length a _ pre _ T) as (e & -> & T'); [lia|].
  destruct e as [|c e]; [rewrite app_nil_r in Gt; lia|].
  unfold object_text in T'. cbn [app] in T'. injection T' as <- T'.
  specialize (First a e eq_refl). rewrite <- T' in First.
  rewrite (scan_object x' gs' post' Px' Pgs') in First. discriminate.
Qed.

Lemma find_json_leftmost_object_witness :
  exists pre post, lit "Sure: {a{b{c}}} ok" = pre ++ lit "{b{c}}" ++ post.
Proof.
  destruct (find_json_leftmost_object (lit "Sure: {a{b{c}}} ok") (lit "{b{c}}"))
    as (pre & x & gs & post & T & _); [vm_compute; reflexivity|].
  now exists pre, post.
Defined.

Lemma findall_skips (pre rest : pystr) :
  ~ In lbrace pre -> findall_from 0 (pre ++ rest) = findall_from 0 rest.
Proof.
  induction pre as [|c pre IH]; intros N; [reflexivity|]. cbn [app findall_from].
  assert (L : N.eqb c lbrace = false).
  { apply N.eqb_neq. intros E. apply N. now left. }
  rewrite L. apply IH. intros I. apply N. now right.
Qed.

(** An object of the pattern with no opening brace before it is the text
    handed to [json.loads], whatever follows it. *)
Theorem find_json_finds (pre x post : pystr) (gs : list (pystr * pystr)) :
  ~ In lbrace pre -> plain x -> Forall plain_group gs ->
  find_json (pre ++ object_text x gs ++ post) = inr (object_text x gs).
Proof.
  intros N Px Pgs. unfold find_json, findall. rewrite (findall_skips pre _ N).
  unfold object_text at 1. cbn [app findall_from]. rewrite N.eqb_refl.
  rewrite (scan_object x gs post Px Pgs), firstn_length_app.
  fold (object_text x gs). cbn [ret]. now rewrite strip_object.
Qed.

Lemma find_json_finds_witness :
  find_json (lit "Result } " ++ object_text (lit "a") [(lit "b", lit "c")] ++ lit "} {}")
  = inr (lit "{a{b}c}").
Proof.
  apply (find_json_finds (lit "Result } ") (lit "a") (lit "} {}") [(lit "b", lit "c")]).
  - cbn. intuition discriminate.
  - split; cbn; intuition discriminate.
  - constructor; [|constructor]. split; split; cbn; intuition discriminate.
Defined.

Lemma scan_needs_closing (s : pystr) : forall inner, ~ In rbrace s -> scan inner s = None.
Proof.
  induction s as [|c s IH]; intros inner N; [reflexivity|]. cbn [scan].
  assert (R : N.eqb c rbrace = false).
  { apply N.eqb_neq. intros E. apply N. now left. }
  rewrite R. assert (N' : ~ In rbrace s) by (intros I; apply N; now right).
  rewrite !(IH _ N'). destruct (N.eqb c lbrace); [now destruct inner|reflexivity].
Qed.

Lemma findall_needs_braces (s : pystr) : forall skip,
  ~ In lbrace s \/ ~ In rbrace s -> findall_from skip s = [].
Proof.
  induction s as [|c s IH]; intros skip N; [reflexivity|]. cbn [findall_from].
  assert (N' : ~ In lbrace s \/ ~ In rbrace s).
  { destruct N as [N|N]; [left|right]; intros I; apply N; now right. }
  destruct skip as [|k]; [|now apply IH].
  destruct (N.eqb c lbrace) eqn:L; [|now apply IH].
  destruct N as [N|N].
  - apply N.eqb_eq in L. exfalso. apply N. now left.
  - rewrite scan_needs_closing by (intros I; apply N; now right). now apply IH.
Qed.

Lemma firstn_incl (n : nat) (s : pystr) (c : char) : In c (firstn n s) -> In c s.
Proof.
  revert n; induction s as [|d s IH]; intros [|n]; cbn; try tauto.
  intros [E|I]; [now left|right; now apply (IH n)].
Qed.

Lemma remove_thinking_incl (s : pystr) (c : char) : In c (remove_thinking s) -> In c s.
Proof.
  unfold remove_thinking, slice_from.
  destruct (contains think_open s && contains think_close s); [|easy].
  intros I. apply CleanText.strip_incl, CleanText.skipn_incl in I. exact I.
Qed.

Lemma remove_code_blocks_incl (s : pystr) (c : char) :
  In c (remove_code_blocks s) -> In c s.
Proof.
  unfold remove_code_blocks, slice.
  destruct (contains json_fence s); [|destruct (contains fence s); [|easy]].
  all: match goal with |- context [if ?b then _ else _] => destruct b end; [|easy].
  all: intros I; apply CleanText.strip_incl, firstn_incl, CleanText.skipn_incl in I;
    exact I.
Qed.

(** A completion is scored only if it holds both braces: when the text of
    the first choice lacks the opening or the closing brace, [score_email]
    returns the fallback score, with the message of the empty response when
    the text is blank and of the missing JSON otherwise. The JSON parser is
    not called. *)
Theorem braceless_completion_is_not_scored `{PyRuntime} (self : EmailScorer.t)
  (sender subject body email_date content : pystr) (rest : Response) :
  client_create self (request self (prompt sender subject body email_date))
  = inr (Some content :: rest) ->
  ~ In lbrace content \/ ~ In rbrace content ->
  score_email self sender subject body email_date
  = fallback_score
      (ValueError (match strip content with
                   | [] => lit "Empty response from model"
                   | _ => lit "No JSON found in model response"
                   end)).
Proof.
  intros C N. unfold score_email, score_email_try. rewrite C. cbn [bind first_content ret].
  unfold interpret. destruct (strip content) as [|c0 r0] eqn:S; [reflexivity|].
  rewrite <- S. unfold extract_and_build, find_json, findall.
  rewrite findall_needs_braces; [reflexivity|].
  destruct N as [N|N]; [left|right]; intros I; apply N;
    apply remove_code_blocks_incl, remove_thinking_incl, CleanText.strip_incl in I;
    exact I.
Qed.

Lemma braceless_completion_is_not_scored_witness :
  reasoning (score_email (Sample.scorer_answering (lit "importance_score: 9}"))
               [] [] [] [])
  = PStr (lit "Error during scoring: No JSON found in model response").
Proof.
  rewrite (braceless_completion_is_not_scored
             (Sample.scorer_answering (lit "importance_score: 9}")) [] [] [] []
             (lit "importance_score: 9}") [] eq_refl).
  - vm_compute. reflexivity.
  - left. cbn. intuition discriminate.
Defined.

End Extraction.

(** ** A message whose scoring failed *)

Module FailedScoring.
Import Occurrence EmailDatabase Ledger LedgerKeys Orchestrator EmailScoringSystem.

Lemma save_returns `{SqliteEngine} (db : EmailDatabase.t) (email : Email.t)
  (score : EmailScore) (labels_applied : list pystr) (now : datetime) (p7 p8 : option pystr) :
  existsb is_surrogate (Email.id email) = false ->
  existsb is_surrogate (Email.sender email) = false ->
  existsb is_surrogate (Email.subject email) = false ->
  bind_to_text 7 (category score) = inr p7 ->
  bind_to_text 8 (reasoning score) = inr p8 ->
  existsb is_surrogate (join (lit ",") labels_applied) = false ->
  (largest_rowid db < INT64_MAX)%Z ->
  exists db', save_score db email score labels_applied now = inr db'.
Proof.
  intros S1 S2 S3 B7 B8 S11 Free. unfold save_score, and_then, bind_text.
  rewrite S1, S2, S3, B7, B8, S11.
  change (existsb is_surrogate (lit "v1.0")) with false. cbv iota.
  destruct (Z.gtb_spec (largest_rowid db + 1) INT64_MAX); [lia|]. now eexists.
Qed.

(** The labels of a failed scoring, whatever the outcomes of the two
    requests, join to a text SQLite accepts. *)
Lemma fallback_labels (gmail : GmailManager.t) (email : Email.t) (e : exc) :
  existsb is_surrogate
    (join (lit ",")
       (fst (_apply_scoring_labels gmail email (EmailScorer.fallback_score e)))) = false.
Proof.
  rewrite Labels.apply_scoring_labels_attempts. cbn [fst].
  change (Labels.decide (EmailScorer.fallback_score e))
    with [MEDIUM_IMPORTANCE; NEEDS_REVIEW].
  cbn [Labels.attempt_all].
  destruct (GmailManager.apply_label gmail (Email.id email) MEDIUM_IMPORTANCE) as [[|] g1];
    destruct (GmailManager.apply_label g1 (Email.id email) NEEDS_REVIEW) as [[|] g2];
    reflexivity.
Qed.

(** A failed scoring is final. When the [try] block of [score_email] raises
    (the model is down, the completion holds no JSON, a score is not a
    number) and the ledger can store the message, the turn of the loop
    requests the labels of medium importance and of review, counts the
    message as processed and records it with importance 5, category
    [unknown] and confidence 0.1; with the skip flag set, the next turn for
    this message skips it, so it is not scored again. *)
Theorem failed_scoring_is_recorded `{PyRuntime} `{SqliteEngine} (self : Orchestrator.t)
  (counts : Counts) (email : Email.t) (e : exc) :
  let self' := fst (process_one (self, counts) email) in
  let counts' := snd (process_one (self, counts) email) in
  EmailScorer.score_email_try (scorer self) (Email.sender email) (Email.subject email)
    (Email.body email) (Email.date email) = inl e ->
  already_processed self email = inr false ->
  existsb is_surrogate (Email.id email) = false ->
  existsb is_surrogate (Email.sender email) = false ->
  existsb is_surrogate (Email.subject email) = false ->
  existsb is_surrogate (exc_str e) = false ->
  (largest_rowid (db self) < INT64_MAX)%Z ->
  GmailManager.executed (GmailManager.service (gmail self'))
  = GmailManager.executed (GmailManager.service (gmail self))
    ++ flat_map (Labels.request_for (gmail self) email) [MEDIUM_IMPORTANCE; NEEDS_REVIEW]
  /\ counts' = mkCounts (processed_count counts + 1) (skipped_count counts)
  /\ (exists labels,
        entries_for (Email.id email) (db self')
        = [mkRow (largest_rowid (db self) + 1) (Some (Email.id email))
             (Some (Email.sender email)) (Some (Email.subject email))
             (Some (clock self (ticks self))) (Some 5%float) (Some 0%float)
             (Some (lit "unknown")) (Some (lit "Error during scoring: " ++ exc_str e))
             (Some 0.1%float) (Some (lit "v1.0")) (Some labels) None])
  /\ (skip_processed_emails self = true ->
      process_one (self', counts') email
      = (self', mkCounts (processed_count counts') (skipped_count counts' + 1))).
Proof.
  intros self' counts' Try A S1 S2 S3 Se Free.
  assert (Sc : EmailScorer.score_email (scorer self) (Email.sender email)
                 (Email.subject email) (Email.body email) (Email.date email)
               = EmailScorer.fallback_score e)
    by (unfold EmailScorer.score_email; now rewrite Try).
  assert (B8 : bind_to_text 8 (reasoning (EmailScorer.fallback_score e))
               = inr (Some (lit "Error during scoring: " ++ exc_str e))).
  { cbn [reasoning EmailScorer.fallback_score bind_to_text]. unfold bind_text.
    rewrite existsb_app, Se. reflexivity. }
  pose proof (Orchestration.apply_scoring_labels_effect (gmail self) email
                (EmailScorer.fallback_score e)) as [_ X].
  pose proof (fallback_labels (gmail self) email e) as S11.
  destruct (_apply_scoring_labels (gmail self) email (EmailScorer.fallback_score e))
    as [labels_applied gmail'] eqn:Ap. cbn [fst snd] in X, S11.
  destruct (save_returns (db self) email (EmailScorer.fallback_score e) labels_applied
              (clock self (ticks self)) (Some (lit "unknown"))
              (Some (lit "Error during scoring: " ++ exc_str e)) S1 S2 S3 eq_refl B8 S11 Free)
    as [db' Sv].
  assert (Turn : process_one (self, counts) email
                 = (mk (scorer self) gmail' (reader self) db' (processing_state self)
                      (skip_processed_emails self) (clock self) (S (ticks self)),
                    mkCounts (processed_count counts + 1) (skipped_count counts)))
    by (unfold process_one; now rewrite A, Sc, Ap, Sv).
  subst self' counts'. rewrite Turn. cbn [fst snd gmail db processed_count skipped_count].
  pose proof (entries_after_save _ _ _ _ _ _ Sv) as (p7 & p8 & E7 & E8 & Own & _ & P).
  rewrite B8 in E8. injection E8 as <-.
  change (bind_to_text 7 (category (EmailScorer.fallback_score e)))
    with (inr (B := option pystr) (A := failure) (Some (lit "unknown"))) in E7.
  injection E7 as <-.
  split; [exact X|]. split; [reflexivity|]. split.
  - exists (join (lit ",") labels_applied). exact Own.
  - intros Skip. unfold process_one, already_processed.
    cbn [skip_processed_emails db]. now rewrite Skip, P.
Qed.

Lemma failed_scoring_is_recorded_witness :
  snd (process_one
         (Fixtures.system (Sample.scorer_raising (Raise (lit "APIConnectionError")
                                                    (lit "Connection error."))),
          mkCounts 0 0) Fixtures.other_message)
  = mkCounts 1 0.
Proof.
  apply (failed_scoring_is_recorded
           (Fixtures.system (Sample.scorer_raising (Raise (lit "APIConnectionError")
                                                      (lit "Connection error."))))
           (mkCounts 0 0) Fixtures.other_message
           (Raise (lit "APIConnectionError") (lit "Connection error."))).
  all: vm_compute; reflexivity.
Defined.

End FailedScoring.
